(** * aicp_ros: the ROS front end of AICP ([src/aicp_ros/src/app_ros.cpp])

    A shallow embedding of the four callbacks of [AppROS]
    ([robotPoseCallBack], [velodyneCallBack], [interactionMarkerCallBack],
    [loadMapFromFile]) as functions on an explicit record of the member
    variables they read and write, each returning the new record together
    with the trace of observable actions (log lines, publications, calls on
    the accumulator, the wake-up of the worker).

    Eigen, tf, PCL and the Velodyne accumulator are libraries outside the
    file: their operations are taken as interfaces (type classes below) and
    one concrete instance of each, over binary64 floats, is given for
    evaluating the callbacks on concrete inputs. *)

From Stdlib Require Import ZArith List String DecimalString Bool Lia.
From Stdlib Require Import PrimFloat SpecFloat FloatOps.
Import ListNotations.

Set Implicit Arguments.
Set Warnings "-inexact-float".

Local Open Scope bool_scope.
Local Open Scope Z_scope.

(** ** Interfaces of the external libraries *)

(** [Eigen::Isometry3d] and [Eigen::Matrix4f], with the operations the file
    applies to them.  [quat_to_euler] stands for
    [quat_to_euler(Eigen::Quaterniond(T.rotation()), r, p, y)] and
    [translation_norm] for [T.translation().norm()]; both return doubles. *)
Class Isometry3dOps (Isometry3d Matrix4f : Type) : Type := {
  Identity : Isometry3d;
  compose : Isometry3d -> Isometry3d -> Isometry3d;
  inverse : Isometry3d -> Isometry3d;
  matrix_cast_float : Isometry3d -> Matrix4f;
  fromMatrix4fToIsometry3d : Matrix4f -> Isometry3d;
  translation_norm : Isometry3d -> float;
  quat_to_euler : Isometry3d -> float * float * float
}.

Infix "**" := compose (at level 40, left associativity).

(** [tf::poseMsgToTF] followed by [tf::transformTFToEigen], on the
    [geometry_msgs::Pose] payload of a message. *)
Class TfConversions (GeoPose Isometry3d : Type) : Type := {
  poseMsgToEigen : GeoPose -> Isometry3d
}.

(** [VelodyneAccumulatorROS], reached through the pointer [accu_];
    [getCounter] is the number of scans accumulated so far. *)
Class AccumulatorOps (Accumulator Scan Cloud : Type) : Type := {
  processLidar : Accumulator -> Scan -> Accumulator;
  clearCloud : Accumulator -> Accumulator;
  getCounter : Accumulator -> N;
  getFinished : Accumulator -> bool;
  getFinishedTime : Accumulator -> Z;
  getCloud : Accumulator -> Cloud
}.

(** PCL: [pcl::io::loadPLYFile] ([None] is its [-1]), the pre-filter of
    [aicp_utils] and [points.size()]. *)
Class CloudOps (Cloud : Type) : Type := {
  loadPLYFile : string -> option Cloud;
  regionGrowingUniformPlaneSegmentationFilter : Cloud -> Cloud;
  points_size : Cloud -> nat
}.

(** ** Floating-point constants of the motion test *)

Definition M_PI : float := 0x1.921fb54442d18p+1%float.

(** [10.0 * M_PI / 180.0], evaluated in binary64 as the compiler does. *)
Definition angle_threshold : float := (10.0 * M_PI / 180.0)%float.

Definition dist_threshold : float := 1.0%float.

(** C's [a > b] on doubles (false when either side is NaN). *)
Definition fgt (a b : float) : bool := PrimFloat.ltb b a.

Definition fabs (a : float) : float := PrimFloat.abs a.

(** ** Data *)

Record CommandLineConfig : Type := {
  load_map_from_file : bool;
  localize_against_prior_map : bool;
  verbose : bool;
  fixed_frame : string;
  map_from_file_path : string
}.

(** The guard [cl_cfg_.load_map_from_file || cl_cfg_.localize_against_prior_map]. *)
Definition map_service (c : CommandLineConfig) : bool :=
  load_map_from_file c || localize_against_prior_map c.

(** The external libraries the node is linked against, as one structure. *)
Record Platform : Type := {
  Isometry3d : Type;
  Matrix4f : Type;
  GeoPose : Type;
  Accumulator : Type;
  Scan : Type;
  Cloud : Type;
  EigenOps : Isometry3dOps Isometry3d Matrix4f;
  TfOps : TfConversions GeoPose Isometry3d;
  AccOps : AccumulatorOps Accumulator Scan Cloud;
  PclOps : CloudOps Cloud
}.

#[global] Existing Instances EigenOps TfOps AccOps PclOps.

Section AppROS.

Variable P : Platform.

(** [geometry_msgs::PoseWithCovarianceStamped]: only the fields read. *)
Record PoseWithCovarianceStamped : Type := {
  header_stamp : Z * Z;
  pose_pose : GeoPose P;
  pose_covariance : list float
}.

(** [AlignedCloud(utime, cloud, world_to_body)]. *)
Record AlignedCloud : Type := {
  getUtime : Z;
  getCloudPtr : Cloud P;
  getWorldToBody : Isometry3d P
}.

(** What the callbacks do to the outside, in program order. *)
Inductive Event : Type :=
| ROS_WARN (msg : string)
| ROS_INFO (msg : string)
| ROS_ERROR (msg : string)
| PublishPose (p : Isometry3d P) (utime : Z)
| PublishFixedFrameToOdomTF (p : Isometry3d P) (stamp : Z * Z)
| PublishCorrectedPose (p : Isometry3d P) (cov : list float) (stamp : Z * Z)
                       (frame_id : string)
| PublishMap (map : Cloud P) (utime : Z)
| AccuProcessLidar (scan : Scan P)
| AccuClearCloud
| CoutFinishedCollecting (utime : Z)
| CoutProcessingCloud (npoints : nat)
| CoutDropping (n : nat)
| NotifyWorker.

(** The members of [AppROS] (and of its base [App]) the callbacks touch. *)
Record AppROS : Type := {
  cl_cfg_ : CommandLineConfig;
  pose_initialized_ : bool;
  pose_marker_initialized_ : bool;
  map_initialized_ : bool;
  updated_correction_ : bool;
  clear_clouds_buffer_ : bool;
  world_to_body_msg_ : Isometry3d P;
  world_to_body_ : Isometry3d P;
  world_to_body_previous_ : Isometry3d P;
  world_to_body_marker_msg_ : Isometry3d P;
  total_correction_ : Isometry3d P;
  corrected_pose_ : Isometry3d P;
  initialT_ : Matrix4f P;
  accu_ : Accumulator P;
  cloud_queue_ : list AlignedCloud;
  prior_map_ : option AlignedCloud
}.

(** Assignment to one member, the others kept. *)
Definition set_pose_initialized_ (v : bool) (app : AppROS) : AppROS :=
  {| cl_cfg_ := cl_cfg_ app; pose_initialized_ := v;
     pose_marker_initialized_ := pose_marker_initialized_ app;
     map_initialized_ := map_initialized_ app;
     updated_correction_ := updated_correction_ app;
     clear_clouds_buffer_ := clear_clouds_buffer_ app;
     world_to_body_msg_ := world_to_body_msg_ app;
     world_to_body_ := world_to_body_ app;
     world_to_body_previous_ := world_to_body_previous_ app;
     world_to_body_marker_msg_ := world_to_body_marker_msg_ app;
     total_correction_ := total_correction_ app;
     corrected_pose_ := corrected_pose_ app; initialT_ := initialT_ app;
     accu_ := accu_ app; cloud_queue_ := cloud_queue_ app;
     prior_map_ := prior_map_ app |}.

Definition set_pose_marker_initialized_ (v : bool) (app : AppROS) : AppROS :=
  {| cl_cfg_ := cl_cfg_ app; pose_initialized_ := pose_initialized_ app;
     pose_marker_initialized_ := v; map_initialized_ := map_initialized_ app;
     updated_correction_ := updated_correction_ app;
     clear_clouds_buffer_ := clear_clouds_buffer_ app;
     world_to_body_msg_ := world_to_body_msg_ app;
     world_to_body_ := world_to_body_ app;
     world_to_body_previous_ := world_to_body_previous_ app;
     world_to_body_marker_msg_ := world_to_body_marker_msg_ app;
     total_correction_ := total_correction_ app;
     corrected_pose_ := corrected_pose_ app; initialT_ := initialT_ app;
     accu_ := accu_ app; cloud_queue_ := cloud_queue_ app;
     prior_map_ := prior_map_ app |}.

Definition set_map_initialized_ (v : bool) (app : AppROS) : AppROS :=
  {| cl_cfg_ := cl_cfg_ app; pose_initialized_ := pose_initialized_ app;
     pose_marker_initialized_ := pose_marker_initialized_ app;
     map_initialized_ := v; updated_correction_ := updated_correction_ app;
     clear_clouds_buffer_ := clear_clouds_buffer_ app;
     world_to_body_msg_ := world_to_body_msg_ app;
     world_to_body_ := world_to_body_ app;
     world_to_body_previous_ := world_to_body_previous_ app;
     world_to_body_marker_msg_ := world_to_body_marker_msg_ app;
     total_correction_ := total_correction_ app;
     corrected_pose_ := corrected_pose_ app; initialT_ := initialT_ app;
     accu_ := accu_ app; cloud_queue_ := cloud_queue_ app;
     prior_map_ := prior_map_ app |}.

Definition set_updated_correction_ (v : bool) (app : AppROS) : AppROS :=
  {| cl_cfg_ := cl_cfg_ app; pose_initialized_ := pose_initialized_ app;
     pose_marker_initialized_ := pose_marker_initialized_ app;
     map_initialized_ := map_initialized_ app; updated_correction_ := v;
     clear_clouds_buffer_ := clear_clouds_buffer_ app;
     world_to_body_msg_ := world_to_body_msg_ app;
     world_to_body_ := world_to_body_ app;
     world_to_body_previous_ := world_to_body_previous_ app;
     world_to_body_marker_msg_ := world_to_body_marker_msg_ app;
     total_correction_ := total_correction_ app;
     corrected_pose_ := corrected_pose_ app; initialT_ := initialT_ app;
     accu_ := accu_ app; cloud_queue_ := cloud_queue_ app;
     prior_map_ := prior_map_ app |}.

Definition set_clear_clouds_buffer_ (v : bool) (app : AppROS) : AppROS :=
  {| cl_cfg_ := cl_cfg_ app; pose_initialized_ := pose_initialized_ app;
     pose_marker_initialized_ := pose_marker_initialized_ app;
     map_initialized_ := map_initialized_ app;
     updated_correction_ := updated_correction_ app;
     clear_clouds_buffer_ := v; world_to_body_msg_ := world_to_body_msg_ app;
     world_to_body_ := world_to_body_ app;
     world_to_body_previous_ := world_to_body_previous_ app;
     world_to_body_marker_msg_ := world_to_body_marker_msg_ app;
     total_correction_ := total_correction_ app;
     corrected_pose_ := corrected_pose_ app; initialT_ := initialT_ app;
     accu_ := accu_ app; cloud_queue_ := cloud_queue_ app;
     prior_map_ := prior_map_ app |}.

Definition set_world_to_body_msg_ (v : Isometry3d P) (app : AppROS) : AppROS :=
  {| cl_cfg_ := cl_cfg_ app; pose_initialized_ := pose_initialized_ app;
     pose_marker_initialized_ := pose_marker_initialized_ app;
     map_initialized_ := map_initialized_ app;
     updated_correction_ := updated_correction_ app;
     clear_clouds_buffer_ := clear_clouds_buffer_ app;
     world_to_body_msg_ := v; world_to_body_ := world_to_body_ app;
     world_to_body_previous_ := world_to_body_previous_ app;
     world_to_body_marker_msg_ := world_to_body_marker_msg_ app;
     total_correction_ := total_correction_ app;
     corrected_pose_ := corrected_pose_ app; initialT_ := initialT_ app;
     accu_ := accu_ app; cloud_queue_ := cloud_queue_ app;
     prior_map_ := prior_map_ app |}.

Definition set_world_to_body_ (v : Isometry3d P) (app : AppROS) : AppROS :=
  {| cl_cfg_ := cl_cfg_ app; pose_initialized_ := pose_initialized_ app;
     pose_marker_initialized_ := pose_marker_initialized_ app;
     map_initialized_ := map_initialized_ app;
     updated_correction_ := updated_correction_ app;
     clear_clouds_buffer_ := clear_clouds_buffer_ app;
     world_to_body_msg_ := world_to_body_msg_ app; world_to_body_ := v;
     world_to_body_previous_ := world_to_body_previous_ app;
     world_to_body_marker_msg_ := world_to_body_marker_msg_ app;
     total_correction_ := total_correction_ app;
     corrected_pose_ := corrected_pose_ app; initialT_ := initialT_ app;
     accu_ := accu_ app; cloud_queue_ := cloud_queue_ app;
     prior_map_ := prior_map_ app |}.

Definition set_world_to_body_previous_ (v : Isometry3d P) (app : AppROS) : AppROS :=
  {| cl_cfg_ := cl_cfg_ app; pose_initialized_ := pose_initialized_ app;
     pose_marker_initialized_ := pose_marker_initialized_ app;
     map_initialized_ := map_initialized_ app;
     updated_correction_ := updated_correction_ app;
     clear_clouds_buffer_ := clear_clouds_buffer_ app;
     world_to_body_msg_ := world_to_body_msg_ app;
     world_to_body_ := world_to_body_ app; world_to_body_previous_ := v;
     world_to_body_marker_msg_ := world_to_body_marker_msg_ app;
     total_correction_ := total_correction_ app;
     corrected_pose_ := corrected_pose_ app; initialT_ := initialT_ app;
     accu_ := accu_ app; cloud_queue_ := cloud_queue_ app;
     prior_map_ := prior_map_ app |}.

Definition set_world_to_body_marker_msg_ (v : Isometry3d P) (app : AppROS) : AppROS :=
  {| cl_cfg_ := cl_cfg_ app; pose_initialized_ := pose_initialized_ app;
     pose_marker_initialized_ := pose_marker_initialized_ app;
     map_initialized_ := map_initialized_ app;
     updated_correction_ := updated_correction_ app;
     clear_clouds_buffer_ := clear_clouds_buffer_ app;
     world_to_body_msg_ := world_to_body_msg_ app;
     world_to_body_ := world_to_body_ app;
     world_to_body_previous_ := world_to_body_previous_ app;
     world_to_body_marker_msg_ := v;
     total_correction_ := total_correction_ app;
     corrected_pose_ := corrected_pose_ app; initialT_ := initialT_ app;
     accu_ := accu_ app; cloud_queue_ := cloud_queue_ app;
     prior_map_ := prior_map_ app |}.

Definition set_total_correction_ (v : Isometry3d P) (app : AppROS) : AppROS :=
  {| cl_cfg_ := cl_cfg_ app; pose_initialized_ := pose_initialized_ app;
     pose_marker_initialized_ := pose_marker_initialized_ app;
     map_initialized_ := map_initialized_ app;
     updated_correction_ := updated_correction_ app;
     clear_clouds_buffer_ := clear_clouds_buffer_ app;
     world_to_body_msg_ := world_to_body_msg_ app;
     world_to_body_ := world_to_body_ app;
     world_to_body_previous_ := world_to_body_previous_ app;
     world_to_body_marker_msg_ := world_to_body_marker_msg_ app;
     total_correction_ := v; corrected_pose_ := corrected_pose_ app;
     initialT_ := initialT_ app; accu_ := accu_ app;
     cloud_queue_ := cloud_queue_ app; prior_map_ := prior_map_ app |}.

Definition set_corrected_pose_ (v : Isometry3d P) (app : AppROS) : AppROS :=
  {| cl_cfg_ := cl_cfg_ app; pose_initialized_ := pose_initialized_ app;
     pose_marker_initialized_ := pose_marker_initialized_ app;
     map_initialized_ := map_initialized_ app;
     updated_correction_ := updated_correction_ app;
     clear_clouds_buffer_ := clear_clouds_buffer_ app;
     world_to_body_msg_ := world_to_body_msg_ app;
     world_to_body_ := world_to_body_ app;
     world_to_body_previous_ := world_to_body_previous_ app;
     world_to_body_marker_msg_ := world_to_body_marker_msg_ app;
     total_correction_ := total_correction_ app; corrected_pose_ := v;
     initialT_ := initialT_ app; accu_ := accu_ app;
     cloud_queue_ := cloud_queue_ app; prior_map_ := prior_map_ app |}.

Definition set_initialT_ (v : Matrix4f P) (app : AppROS) : AppROS :=
  {| cl_cfg_ := cl_cfg_ app; pose_initialized_ := pose_initialized_ app;
     pose_marker_initialized_ := pose_marker_initialized_ app;
     map_initialized_ := map_initialized_ app;
     updated_correction_ := updated_correction_ app;
     clear_clouds_buffer_ := clear_clouds_buffer_ app;
     world_to_body_msg_ := world_to_body_msg_ app;
     world_to_body_ := world_to_body_ app;
     world_to_body_previous_ := world_to_body_previous_ app;
     world_to_body_marker_msg_ := world_to_body_marker_msg_ app;
     total_correction_ := total_correction_ app;
     corrected_pose_ := corrected_pose_ app; initialT_ := v;
     accu_ := accu_ app; cloud_queue_ := cloud_queue_ app;
     prior_map_ := prior_map_ app |}.

Definition set_accu_ (v : Accumulator P) (app : AppROS) : AppROS :=
  {| cl_cfg_ := cl_cfg_ app; pose_initialized_ := pose_initialized_ app;
     pose_marker_initialized_ := pose_marker_initialized_ app;
     map_initialized_ := map_initialized_ app;
     updated_correction_ := updated_correction_ app;
     clear_clouds_buffer_ := clear_clouds_buffer_ app;
     world_to_body_msg_ := world_to_body_msg_ app;
     world_to_body_ := world_to_body_ app;
     world_to_body_previous_ := world_to_body_previous_ app;
     world_to_body_marker_msg_ := world_to_body_marker_msg_ app;
     total_correction_ := total_correction_ app;
     corrected_pose_ := corrected_pose_ app; initialT_ := initialT_ app;
     accu_ := v; cloud_queue_ := cloud_queue_ app;
     prior_map_ := prior_map_ app |}.

Definition set_cloud_queue_ (v : list AlignedCloud) (app : AppROS) : AppROS :=
  {| cl_cfg_ := cl_cfg_ app; pose_initialized_ := pose_initialized_ app;
     pose_marker_initialized_ := pose_marker_initialized_ app;
     map_initialized_ := map_initialized_ app;
     updated_correction_ := updated_correction_ app;
     clear_clouds_buffer_ := clear_clouds_buffer_ app;
     world_to_body_msg_ := world_to_body_msg_ app;
     world_to_body_ := world_to_body_ app;
     world_to_body_previous_ := world_to_body_previous_ app;
     world_to_body_marker_msg_ := world_to_body_marker_msg_ app;
     total_correction_ := total_correction_ app;
     corrected_pose_ := corrected_pose_ app; initialT_ := initialT_ app;
     accu_ := accu_ app; cloud_queue_ := v; prior_map_ := prior_map_ app |}.

Definition set_prior_map_ (v : option AlignedCloud) (app : AppROS) : AppROS :=
  {| cl_cfg_ := cl_cfg_ app; pose_initialized_ := pose_initialized_ app;
     pose_marker_initialized_ := pose_marker_initialized_ app;
     map_initialized_ := map_initialized_ app;
     updated_correction_ := updated_correction_ app;
     clear_clouds_buffer_ := clear_clouds_buffer_ app;
     world_to_body_msg_ := world_to_body_msg_ app;
     world_to_body_ := world_to_body_ app;
     world_to_body_previous_ := world_to_body_previous_ app;
     world_to_body_marker_msg_ := world_to_body_marker_msg_ app;
     total_correction_ := total_correction_ app;
     corrected_pose_ := corrected_pose_ app; initialT_ := initialT_ app;
     accu_ := accu_ app; cloud_queue_ := cloud_queue_ app; prior_map_ := v |}.

(** ** [AppROS::robotPoseCallBack] (lines 52-132)

    [now] is [ros::Time::now().toNSec() / 1000].  The diagnostics published
    under [cl_cfg_.verbose] (lines 110-129) read members written by the worker
    only and change nothing; they are left out of the trace. *)
Definition getPoseAsIsometry3d (pose : GeoPose P) : Isometry3d P :=
  poseMsgToEigen pose.

(** Lines 67-77: the first accepted pose. *)
Definition initialize_pose (app : AppROS) : AppROS :=
  let app := set_world_to_body_previous_ (world_to_body_ app) app in
  if map_service (cl_cfg_ app) then
    let app :=
      set_initialT_
        (matrix_cast_float
           (world_to_body_marker_msg_ app ** inverse (world_to_body_ app)))
        app in
    set_total_correction_ (fromMatrix4fToIsometry3d (initialT_ app)) app
  else app.

(** Lines 101-108: a correction written by the worker is acknowledged. *)
Definition acknowledge_correction (app : AppROS) : AppROS :=
  if updated_correction_ app then
    set_updated_correction_ false (set_clear_clouds_buffer_ true app)
  else app.

Definition robotPoseCallBack (app : AppROS)
    (pose_msg_in : PoseWithCovarianceStamped) (now : Z)
    : AppROS * list Event :=
  if map_service (cl_cfg_ app) && negb (pose_marker_initialized_ app) then
    (app,
     [ROS_WARN
        "[Aicp] Pose initial guess in map not set, waiting for interactive marker..."])
  else
    let first := negb (pose_initialized_ app) in
    let app :=
      set_world_to_body_msg_ (getPoseAsIsometry3d (pose_pose pose_msg_in)) app in
    let app := set_world_to_body_ (world_to_body_msg_ app) app in
    let app := if first then initialize_pose app else app in
    let app :=
      set_corrected_pose_ (total_correction_ app ** world_to_body_ app) app in
    let out :=
      (if first then
         [ROS_INFO "[Aicp] Starting localization...";
          PublishPose (corrected_pose_ app) now]
       else [])
      ++ [PublishFixedFrameToOdomTF (corrected_pose_ app)
            (header_stamp pose_msg_in);
          PublishCorrectedPose (corrected_pose_ app)
            (pose_covariance pose_msg_in) (header_stamp pose_msg_in)
            (fixed_frame (cl_cfg_ app))] in
    let app := acknowledge_correction app in
    (set_pose_initialized_ true app, out).

(** ** [AppROS::velodyneCallBack] (lines 134-207) *)

(** Lines 141-156: forward the scan, or consume a pending buffer clear. *)
Definition accumulate_scan (app : AppROS) (laser_msg_in : Scan P)
    : AppROS * list Event :=
  if negb (clear_clouds_buffer_ app) then
    (set_accu_ (processLidar (accu_ app) laser_msg_in) app,
     [AccuProcessLidar laser_msg_in])
  else
    let app := set_clear_clouds_buffer_ false app in
    if (0 <? getCounter (accu_ app))%N then
      (set_accu_ (clearCloud (accu_ app)) app, [AccuClearCloud])
    else (app, []).

(** Line 159. *)
Definition relative_motion (app : AppROS) : Isometry3d P :=
  inverse (world_to_body_previous_ app) ** world_to_body_ app.

(** Lines 160-162 and 166-169: the motion test. *)
Definition moved_enough (rel : Isometry3d P) : bool :=
  let dist := translation_norm rel in
  let '(roll, pitch, yaw) := quat_to_euler rel in
  fgt dist dist_threshold
  || fgt (fabs roll) angle_threshold
  || fgt (fabs pitch) angle_threshold
  || fgt (fabs yaw) angle_threshold.

Definition max_queue_size : nat := 100.

(** Lines 197-199: [while (size > max_queue_size) pop_front()]. *)
Fixpoint pop_overflow (q : list AlignedCloud) : list AlignedCloud :=
  match q with
  | [] => []
  | _ :: rest =>
      if (max_queue_size <? List.length q)%nat then pop_overflow rest else q
  end.

(** Lines 190-199: [push_back], the warning, and the overflow loop. *)
Definition queue_push (q : list AlignedCloud) (c : AlignedCloud)
    : list AlignedCloud * list Event :=
  let pushed := q ++ [c] in
  (pop_overflow pushed,
   if (max_queue_size <? List.length pushed)%nat
   then [CoutDropping (List.length pushed - max_queue_size)]
   else []).

(** The cloud a dispatch pushes (lines 185-187). *)
Definition current_cloud (app : AppROS) : AlignedCloud :=
  {| getUtime := getFinishedTime (accu_ app);
     getCloudPtr := getCloud (accu_ app);
     getWorldToBody := world_to_body_ app |}.

(** Lines 171-200: wrap the finished cloud and push it onto the queue. *)
Definition enqueue_cloud (app : AppROS) : AppROS * list Event :=
  let c := current_cloud app in
  let app := set_world_to_body_previous_ (world_to_body_ app) app in
  let '(q, dropping) := queue_push (cloud_queue_ app) c in
  (set_cloud_queue_ q app,
   [CoutFinishedCollecting (getUtime c);
    CoutProcessingCloud (points_size (getCloudPtr c))]
   ++ dropping).

(** Lines 164-206: what happens once the accumulator reports a full batch. *)
Definition dispatch_finished (app : AppROS) : AppROS * list Event :=
  if getFinished (accu_ app) then
    let '(app, out) :=
      if moved_enough (relative_motion app) then enqueue_cloud app
      else (app, []) in
    (set_accu_ (clearCloud (accu_ app)) app,
     out ++ [AccuClearCloud; NotifyWorker])
  else (app, []).

Definition velodyneCallBack (app : AppROS) (laser_msg_in : Scan P)
    : AppROS * list Event :=
  if negb (pose_initialized_ app) then
    (app, [ROS_WARN "[Aicp] Pose not initialized, waiting for pose prior..."])
  else
    let '(app, out1) := accumulate_scan app laser_msg_in in
    let '(app, out2) := dispatch_finished app in
    (app, out1 ++ out2).

(** ** [AppROS::interactionMarkerCallBack] (lines 209-229) *)
Definition interactionMarkerCallBack (app : AppROS) (init_pose : GeoPose P)
    : AppROS * list Event :=
  if negb (load_map_from_file (cl_cfg_ app))
     && negb (localize_against_prior_map (cl_cfg_ app)) then
    (app,
     [ROS_WARN "[Aicp] Map service disabled - interactive marker neglected."])
  else if negb (map_initialized_ app) then
    (app, [ROS_WARN "[Aicp] Map not initialized, waiting for map service..."])
  else if negb (pose_initialized_ app) then
    (set_pose_marker_initialized_ true
       (set_world_to_body_marker_msg_ (getPoseAsIsometry3d init_pose) app),
     [ROS_INFO "[Aicp] Set localization initial pose in map."])
  else
    (app,
     [ROS_WARN
        "[Aicp] Interactive marker cannot be updated after localization started!"]).

(** ** [AppROS::loadMapFromFile] (lines 237-274)

    The result is [None] where the code dereferences a null [prior_map_]
    (line 244 with no map loaded); otherwise the new members, the returned
    flag and the trace.  [now] is [ros::Time::now().toNSec() / 1000]. *)
Definition loadMapFromFile (app : AppROS) (file_path : string) (now : Z)
    : option (AppROS * bool * list Event) :=
  if negb (load_map_from_file (cl_cfg_ app))
     && negb (localize_against_prior_map (cl_cfg_ app)) then
    Some (app, false, [ROS_WARN "[Aicp] Map service disabled!"])
  else if pose_initialized_ app then
    match prior_map_ app with
    | None => None
    | Some prior =>
        Some (app, false,
              [PublishMap (getCloudPtr prior) (getUtime prior);
               ROS_WARN
                 "[Aicp] Map cannot be updated after localization started!"])
    end
  else
    match loadPLYFile file_path with
    | None =>
        Some (app, false,
              [ROS_INFO ("[Aicp] Loading map from '" ++ file_path ++ "' ...");
               ROS_ERROR "[Aicp] Error loading map from file!"])
    | Some map =>
        let filtered_map := regionGrowingUniformPlaneSegmentationFilter map in
        let prior :=
          {| getUtime := now; getCloudPtr := filtered_map;
             getWorldToBody := Identity |} in
        Some (set_map_initialized_ true (set_prior_map_ (Some prior) app),
              true,
              [ROS_INFO ("[Aicp] Loading map from '" ++ file_path ++ "' ...");
               ROS_INFO
                 ("[Aicp] Loaded map with "
                  ++ NilZero.string_of_uint
                       (Nat.to_uint (points_size filtered_map))
                  ++ " points.");
               PublishMap map (getUtime prior)])
    end.

(** ** The callbacks as one transition system

    The transport delivers the messages one at a time (the spinner of the
    node); a crash ends the run. *)
Inductive Input : Type :=
| RobotPose (msg : PoseWithCovarianceStamped) (now : Z)
| Velodyne (scan : Scan P)
| InteractionMarker (pose : GeoPose P)
| LoadMap (file_path : string) (now : Z).

Definition step (app : AppROS) (i : Input) : option (AppROS * list Event) :=
  match i with
  | RobotPose msg now => Some (robotPoseCallBack app msg now)
  | Velodyne scan => Some (velodyneCallBack app scan)
  | InteractionMarker pose => Some (interactionMarkerCallBack app pose)
  | LoadMap file_path now =>
      match loadMapFromFile app file_path now with
      | Some (app', _, out) => Some (app', out)
      | None => None
      end
  end.

Fixpoint run (app : AppROS) (inputs : list Input)
    : option (AppROS * list Event) :=
  match inputs with
  | [] => Some (app, [])
  | i :: rest =>
      match step app i with
      | None => None
      | Some (app', out) =>
          match run app' rest with
          | None => None
          | Some (app'', out') => Some (app'', out ++ out')
          end
      end
  end.


(** ** Lifecycle and construction *)

(** The three stages the flags [pose_initialized_] and
    [pose_marker_initialized_] encode, as the guards of the callbacks read
    them. *)
Inductive Lifecycle : Type := AwaitingSeed | AwaitingFirstPose | Tracking.

Definition stage (l : Lifecycle) : nat :=
  match l with AwaitingSeed => 0 | AwaitingFirstPose => 1 | Tracking => 2 end.

Definition lifecycle (app : AppROS) : Lifecycle :=
  if pose_initialized_ app then Tracking
  else if map_service (cl_cfg_ app) && negb (pose_marker_initialized_ app)
  then AwaitingSeed
  else AwaitingFirstPose.

(** Modelled from the spec: [paramInit()] and the member initialisers of the
    base class [App] are not in the file.  Every flag starts false, the queue
    empty, no map loaded, and the running correction is the identity
    ("Initial running correction: identity"); lines 34-35 set the two raw
    poses to the identity. *)
Definition paramInit (cl_cfg : CommandLineConfig) (accu : Accumulator P)
    : AppROS :=
  {| cl_cfg_ := cl_cfg;
     pose_initialized_ := false;
     pose_marker_initialized_ := false;
     map_initialized_ := false;
     updated_correction_ := false;
     clear_clouds_buffer_ := false;
     world_to_body_msg_ := Identity;
     world_to_body_ := Identity;
     world_to_body_previous_ := Identity;
     world_to_body_marker_msg_ := Identity;
     total_correction_ := Identity;
     corrected_pose_ := Identity;
     initialT_ := matrix_cast_float Identity;
     accu_ := accu;
     cloud_queue_ := [];
     prior_map_ := None |}.

(** The constructor (lines 14-50): the initial members, then
    [loadMapFromFile(cl_cfg_.map_from_file_path)] whose result is ignored. *)
Definition construct (cl_cfg : CommandLineConfig) (accu : Accumulator P)
    (now : Z) : option (AppROS * list Event) :=
  match loadMapFromFile (paramInit cl_cfg accu)
          (map_from_file_path cl_cfg) now with
  | Some (app, _, out) => Some (app, out)
  | None => None
  end.

(** The calls a trace makes on the accumulator. *)
Definition forwards_scan (e : Event) : bool :=
  match e with AccuProcessLidar _ => true | _ => false end.

Definition clears_accumulator (e : Event) : bool :=
  match e with AccuClearCloud => true | _ => false end.

(** The number of clouds a trace reports as dropped. *)
Fixpoint reported_drops (out : list Event) : nat :=
  match out with
  | [] => 0%nat
  | CoutDropping n :: rest => (n + reported_drops rest)%nat
  | _ :: rest => reported_drops rest
  end.

(** Successive pushes of the given clouds, with everything they print. *)
Fixpoint push_all (q : list AlignedCloud) (clouds : list AlignedCloud)
    : list AlignedCloud * list Event :=
  match clouds with
  | [] => (q, [])
  | c :: rest =>
      let '(q1, out1) := queue_push q c in
      let '(q2, out2) := push_all q1 rest in
      (q2, out1 ++ out2)
  end.

(** ** Observations on states and traces *)

(** The guard of lines 54-55, negated: the raw pose is taken. *)
Definition pose_accepted (app : AppROS) : bool :=
  negb (map_service (cl_cfg_ app) && negb (pose_marker_initialized_ app)).

(** The scan completes a batch that passes the motion test. *)
Definition dispatches (app : AppROS) (laser_msg_in : Scan P) : bool :=
  pose_initialized_ app
  && getFinished (accu_ (fst (accumulate_scan app laser_msg_in)))
  && moved_enough (relative_motion app).

Definition announces_dispatch (e : Event) : bool :=
  match e with CoutFinishedCollecting _ => true | _ => false end.

Definition is_loaded (m : option AlignedCloud) : bool :=
  match m with Some _ => true | None => false end.

(** What the guards maintain between the flags and the map pointer: a map
    flagged as initialised is there, the marker is taken only over a map, and
    with the map service on, tracking starts only after the marker. *)
Definition well_formed (app : AppROS) : bool :=
  implb (map_initialized_ app) (is_loaded (prior_map_ app))
  && implb (pose_marker_initialized_ app) (map_initialized_ app)
  && implb (pose_initialized_ app && map_service (cl_cfg_ app))
           (pose_marker_initialized_ app).

(** The guard under which the marker callback records the pose
    (lines 211-219). *)
Definition takes_seed (app : AppROS) (i : Input) : bool :=
  match i with
  | InteractionMarker _ =>
      map_service (cl_cfg_ app) && map_initialized_ app
      && negb (pose_initialized_ app)
  | _ => false
  end.

Definition awaits_seed (app : AppROS) : bool :=
  match lifecycle app with AwaitingSeed => true | _ => false end.

(** The number of marker poses a run records while awaiting the seed. *)
Fixpoint seeds_taken_awaiting (app : AppROS) (inputs : list Input) : nat :=
  match inputs with
  | [] => 0%nat
  | i :: rest =>
      ((if awaits_seed app && takes_seed app i then 1 else 0)
       + match step app i with
         | Some (app', _) => seeds_taken_awaiting app' rest
         | None => 0
         end)%nat
  end.

(** The newest [max_queue_size] entries of a list. *)
Definition most_recent (l : list AlignedCloud) : list AlignedCloud :=
  skipn (List.length l - max_queue_size) l.

(** ** [AppROS::loadMapFromFileCallBack] (lines 231-235)

    The service handler: the members after the load, the value the handler
    returns to the service layer, [response.success], and the trace. *)
Definition loadMapFromFileCallBack (app : AppROS) (request_file_path : string)
    (now : Z) : option (AppROS * (bool * bool) * list Event) :=
  match loadMapFromFile app request_file_path now with
  | Some (app', response_success, out) =>
      Some (app', (true, response_success), out)
  | None => None
  end.

(** ** Further observations on inputs and traces *)

(** [pcl::io::loadPLYFile] succeeds on the path. *)
Definition is_readable (file_path : string) : bool :=
  match loadPLYFile (Cloud := Cloud P) file_path with
  | Some _ => true
  | None => false
  end.

(** The input is not a load of a readable file. *)
Definition loads_nothing (i : Input) : bool :=
  match i with
  | LoadMap file_path _ => negb (is_readable file_path)
  | _ => true
  end.

Definition is_scan (i : Input) : bool :=
  match i with Velodyne _ => true | _ => false end.

Definition notifies_worker (e : Event) : bool :=
  match e with NotifyWorker => true | _ => false end.

Definition count_events (f : Event -> bool) (out : list Event) : nat :=
  List.length (List.filter f out).

Definition count_inputs (f : Input -> bool) (inputs : list Input) : nat :=
  List.length (List.filter f inputs).

(** The stamps and covariances of the corrected poses a trace publishes,
    with their frame, and of the raw poses among the inputs. *)
Definition published_corrections (out : list Event)
    : list (Z * Z * list float * string) :=
  List.flat_map
    (fun e =>
       match e with
       | PublishCorrectedPose _ cov stamp frame_id => [(stamp, cov, frame_id)]
       | _ => []
       end)
    out.

Definition received_poses (frame_id : string) (inputs : list Input)
    : list (Z * Z * list float * string) :=
  List.flat_map
    (fun i =>
       match i with
       | RobotPose msg _ =>
           [(header_stamp msg, pose_covariance msg, frame_id)]
       | _ => []
       end)
    inputs.

(** The batch a callback pushes (lines 185-191): the finished cloud with
    its time and the raw pose of the moment, when the input is a scan that
    dispatches; nothing otherwise. *)
Definition batch_pushed (app : AppROS) (i : Input) : list AlignedCloud :=
  match i with
  | Velodyne laser_msg_in =>
      if dispatches app laser_msg_in
      then [current_cloud (fst (accumulate_scan app laser_msg_in))]
      else []
  | _ => []
  end.

(** The batches a run pushes, in the order of the scans that complete
    them. *)
Fixpoint dispatched_batches (app : AppROS) (inputs : list Input)
    : list AlignedCloud :=
  match inputs with
  | [] => []
  | i :: rest =>
      batch_pushed app i
      ++ match step app i with
         | Some (app', _) => dispatched_batches app' rest
         | None => []
         end
  end.

(** The times the "Finished collecting" lines of a trace print. *)
Definition announced_times (out : list Event) : list Z :=
  List.flat_map
    (fun e =>
       match e with
       | CoutFinishedCollecting utime => [utime]
       | _ => []
       end)
    out.

(** A line of the ROS log. *)
Definition is_log (e : Event) : bool :=
  match e with
  | ROS_WARN _ | ROS_INFO _ | ROS_ERROR _ => true
  | _ => false
  end.

(** The composition the pose callback establishes, once a pose is in. *)
Definition corrected_is_composed (app : AppROS) : Prop :=
  pose_initialized_ app = true ->
  corrected_pose_ app = total_correction_ app ** world_to_body_ app.

End AppROS.

Arguments getPoseAsIsometry3d {P} pose.
Arguments moved_enough {P} rel.
Arguments forwards_scan {P} e.
Arguments clears_accumulator {P} e.
Arguments announces_dispatch {P} e.
Arguments notifies_worker {P} e.
Arguments is_log {P} e.
Arguments is_scan {P} i.
Arguments loads_nothing {P} i.
Arguments ROS_WARN {P} msg.
Arguments ROS_INFO {P} msg.
Arguments ROS_ERROR {P} msg.
Arguments PublishPose {P} p utime.
Arguments PublishFixedFrameToOdomTF {P} p stamp.
Arguments PublishCorrectedPose {P} p cov stamp frame_id.
Arguments PublishMap {P} map utime.
Arguments AccuProcessLidar {P} scan.
Arguments AccuClearCloud {P}.
Arguments CoutFinishedCollecting {P} utime.
Arguments CoutProcessingCloud {P} npoints.
Arguments CoutDropping {P} n.
Arguments NotifyWorker {P}.
Arguments RobotPose {P} msg now.
Arguments Velodyne {P} scan.
Arguments InteractionMarker {P} pose.
Arguments LoadMap {P} file_path now.

(** ** One implementation of the libraries, over binary64

    Used to run the callbacks on concrete messages.  The theorems below hold
    for every [Platform]; this one follows the libraries' formulas where they
    are arithmetic. *)

Module Binary64.

Local Open Scope float_scope.

Definition Vector3d : Type := float * float * float.

(** Row-major 3x3. *)
Definition Matrix3d : Type := Vector3d * Vector3d * Vector3d.

(** The top three rows of the 4x4 matrix; the last row is [0 0 0 1]. *)
Record Isometry3d : Type := {
  linear : Matrix3d;
  translation : Vector3d
}.

Definition dot (a b : Vector3d) : float :=
  let '(a1, a2, a3) := a in
  let '(b1, b2, b3) := b in
  a1 * b1 + a2 * b2 + a3 * b3.

Definition transpose (m : Matrix3d) : Matrix3d :=
  let '((a11, a12, a13), (a21, a22, a23), (a31, a32, a33)) := m in
  ((a11, a21, a31), (a12, a22, a32), (a13, a23, a33)).

Definition mat_vec (m : Matrix3d) (v : Vector3d) : Vector3d :=
  let '(r1, r2, r3) := m in (dot r1 v, dot r2 v, dot r3 v).

Definition mat_mul (m n : Matrix3d) : Matrix3d :=
  let '(r1, r2, r3) := m in
  let '(c1, c2, c3) := transpose n in
  ((dot r1 c1, dot r1 c2, dot r1 c3),
   (dot r2 c1, dot r2 c2, dot r2 c3),
   (dot r3 c1, dot r3 c2, dot r3 c3)).

Definition vec_add (u v : Vector3d) : Vector3d :=
  let '(u1, u2, u3) := u in
  let '(v1, v2, v3) := v in
  (u1 + v1, u2 + v2, u3 + v3).

Definition vec_opp (u : Vector3d) : Vector3d :=
  let '(u1, u2, u3) := u in (- u1, - u2, - u3).

Definition vec_map (f : float -> float) (u : Vector3d) : Vector3d :=
  let '(u1, u2, u3) := u in (f u1, f u2, f u3).

Definition Matrix3d_Identity : Matrix3d := ((1, 0, 0), (0, 1, 0), (0, 0, 1)).

Definition Identity : Isometry3d :=
  {| linear := Matrix3d_Identity; translation := (0, 0, 0) |}.

(** [Transform * Transform] for affine-compact modes:
    linear = L1 * L2, translation = L1 * t2 + t1. *)
Definition compose (a b : Isometry3d) : Isometry3d :=
  {| linear := mat_mul (linear a) (linear b);
     translation := vec_add (mat_vec (linear a) (translation b))
                            (translation a) |}.

(** [Transform::inverse(Isometry)]: linear = L^T, translation = - L^T * t. *)
Definition inverse (a : Isometry3d) : Isometry3d :=
  let lt := transpose (linear a) in
  {| linear := lt; translation := vec_opp (mat_vec lt (translation a)) |}.

(** A double converted to [float] (binary32: 24 bits of precision, exponents
    up to 128, round to nearest even, overflow to infinity) and held as the
    double of the same value. *)
Definition to_float (x : float) : float :=
  match Prim2SF x with
  | S754_finite s m e =>
      SF2Prim (binary_normalize 24 128 (cond_Zopp s (Zpos m)) e s)
  | _ => x
  end.

(** A [Matrix4f] of an isometry: the same twelve entries, each a binary32
    value. *)
Record Matrix4f : Type := {
  block33 : Matrix3d;
  column3 : Vector3d
}.

Definition matrix_cast_float (a : Isometry3d) : Matrix4f :=
  let '(r1, r2, r3) := linear a in
  {| block33 := (vec_map to_float r1, vec_map to_float r2, vec_map to_float r3);
     column3 := vec_map to_float (translation a) |}.

(** Every binary32 value is a binary64 value: the entries are copied. *)
Definition fromMatrix4fToIsometry3d (m : Matrix4f) : Isometry3d :=
  {| linear := block33 m; translation := column3 m |}.

Definition translation_norm (a : Isometry3d) : float :=
  sqrt (dot (translation a) (translation a)).

Definition vec_eqb (u v : Vector3d) : bool :=
  let '(u1, u2, u3) := u in
  let '(v1, v2, v3) := v in
  (u1 =? v1) && (u2 =? v2) && (u3 =? v3).

Definition is_rotation_free (a : Isometry3d) : bool :=
  let '(r1, r2, r3) := linear a in
  let '(i1, i2, i3) := Matrix3d_Identity in
  vec_eqb r1 i1 && vec_eqb r2 i2 && vec_eqb r3 i3.

(** The Euler angles of a rotation-free transform are [atan2(0, 1)],
    [asin(0)], [atan2(0, 1)], all zero.  Other rotations need libm's [atan2]
    and [asin], which binary64 here does not provide: they yield NaN. *)
Definition quat_to_euler (a : Isometry3d) : float * float * float :=
  if is_rotation_free a then (0, 0, 0) else (nan, nan, nan).

(** [geometry_msgs::Pose]: position, and orientation as (x, y, z, w). *)
Record GeoPose : Type := {
  position : Vector3d;
  orientation : float * float * float * float
}.

(** tf's [Matrix3x3::setRotation] on the quaternion, and the origin. *)
Definition poseMsgToEigen (g : GeoPose) : Isometry3d :=
  let '(x, y, z, w) := orientation g in
  let d := x * x + y * y + z * z + w * w in
  let s := 2 / d in
  let xs := x * s in let ys := y * s in let zs := z * s in
  let wx := w * xs in let wy := w * ys in let wz := w * zs in
  let xx := x * xs in let xy := x * ys in let xz := x * zs in
  let yy := y * ys in let yz := y * zs in let zz := z * zs in
  {| linear := ((1 - (yy + zz), xy - wz, xz + wy),
                (xy + wz, 1 - (xx + zz), yz - wx),
                (xz - wy, yz + wx, 1 - (xx + yy)));
     translation := position g |}.

(** A pose message at a position, not rotated. *)
Definition at_position (x y z : float) : GeoPose :=
  {| position := (x, y, z); orientation := (0, 0, 0, 1) |}.

(** A point cloud: its points. *)
Definition Cloud : Type := list Vector3d.

Record Scan : Type := {
  scan_stamp : Z;
  scan_points : list Vector3d
}.

(** Modelled from the spec: the accumulator is an external collaborator
    ("offer(scan), isFinished(), finishedAt(), takeCloud(), reset()"); this
    one counts the scans it was offered and reports a batch as finished once
    [batch_size] of them are in. *)
Record Accumulator : Type := {
  batch_size : N;
  counter : N;
  finished : bool;
  utime : Z;
  accumulated : Cloud
}.

Definition processLidar (a : Accumulator) (s : Scan) : Accumulator :=
  let n := (counter a + 1)%N in
  {| batch_size := batch_size a;
     counter := n;
     finished := (batch_size a <=? n)%N;
     utime := scan_stamp s;
     accumulated := accumulated a ++ scan_points s |}.

Definition clearCloud (a : Accumulator) : Accumulator :=
  {| batch_size := batch_size a;
     counter := 0%N;
     finished := false;
     utime := utime a;
     accumulated := [] |}.

Definition new_accumulator (size : N) : Accumulator :=
  {| batch_size := size; counter := 0%N; finished := false; utime := 0%Z;
     accumulated := [] |}.

(** The files a run can read: two maps. *)
Definition disk : list (string * Cloud) :=
  [("first.ply"%string, [(0, 0, 0); (1, 0, 0); (0, 1, 0)]);
   ("second.ply"%string, [(0, 0, 0); (2, 0, 0)])].

Fixpoint read_file (files : list (string * Cloud)) (path : string)
    : option Cloud :=
  match files with
  | [] => None
  | (name, content) :: rest =>
      if String.eqb name path then Some content else read_file rest path
  end.

Definition loadPLYFile (path : string) : option Cloud := read_file disk path.

(** The pre-filter, reduced to dropping the points with a NaN coordinate. *)
Definition regionGrowingUniformPlaneSegmentationFilter (c : Cloud) : Cloud :=
  List.filter (fun p => vec_eqb p p) c.

End Binary64.

Definition binary64 : Platform :=
  {| Isometry3d := Binary64.Isometry3d;
     Matrix4f := Binary64.Matrix4f;
     GeoPose := Binary64.GeoPose;
     Accumulator := Binary64.Accumulator;
     Scan := Binary64.Scan;
     Cloud := Binary64.Cloud;
     EigenOps :=
       {| Identity := Binary64.Identity;
          compose := Binary64.compose;
          inverse := Binary64.inverse;
          matrix_cast_float := Binary64.matrix_cast_float;
          fromMatrix4fToIsometry3d := Binary64.fromMatrix4fToIsometry3d;
          translation_norm := Binary64.translation_norm;
          quat_to_euler := Binary64.quat_to_euler |};
     TfOps := {| poseMsgToEigen := Binary64.poseMsgToEigen |};
     AccOps :=
       {| processLidar := Binary64.processLidar;
          clearCloud := Binary64.clearCloud;
          getCounter := Binary64.counter;
          getFinished := Binary64.finished;
          getFinishedTime := Binary64.utime;
          getCloud := Binary64.accumulated |};
     PclOps :=
       {| loadPLYFile := Binary64.loadPLYFile;
          regionGrowingUniformPlaneSegmentationFilter :=
            Binary64.regionGrowingUniformPlaneSegmentationFilter;
          points_size := @List.length Binary64.Vector3d |} |}.

(** ** Sample runs on [binary64] *)

Module Sample.

Local Open Scope float_scope.

Definition with_prior_map : CommandLineConfig :=
  {| load_map_from_file := true;
     localize_against_prior_map := true;
     verbose := false;
     fixed_frame := "map";
     map_from_file_path := "first.ply" |}.

Definition without_prior_map : CommandLineConfig :=
  {| load_map_from_file := false;
     localize_against_prior_map := false;
     verbose := false;
     fixed_frame := "odom";
     map_from_file_path := "" |}.

(** A raw-pose message at a position, not rotated. *)
Definition pose_msg (sec : Z) (x y z : float)
    : PoseWithCovarianceStamped binary64 :=
  Build_PoseWithCovarianceStamped binary64 (sec, 0%Z)
    (Binary64.at_position x y z) [].

Definition scan (sec : Z) : Scan binary64 :=
  {| Binary64.scan_stamp := sec; Binary64.scan_points := [(1, 2, 3)] |}.

(** The state a run leaves, the identity members when it crashes. *)
Definition final (r : option (AppROS binary64 * list (Event binary64)))
    : AppROS binary64 :=
  match r with
  | Some (app, _) => app
  | None => paramInit binary64 without_prior_map (Binary64.new_accumulator 1)
  end.

(** Odometry only, batches of two scans: constructed and tracking from a
    first pose at the origin. *)
Definition odometry_tracking : AppROS binary64 :=
  fst (robotPoseCallBack
         (final (construct binary64 without_prior_map (Binary64.new_accumulator 2) 0))
         (pose_msg 1 0 0 0) 1).

(** Prior-map mode, constructed with the first map loaded: awaiting the
    marker. *)
Definition awaiting_seed : AppROS binary64 :=
  final (construct binary64 with_prior_map (Binary64.new_accumulator 2) 0).

(** Tracking with one scan of the batch of two accumulated. *)
Definition one_scan_in : AppROS binary64 :=
  fst (velodyneCallBack odometry_tracking (scan 1)).

(** The robot then reports a raw pose [x] along the first axis. *)
Definition moved_to (x : float) : AppROS binary64 :=
  fst (robotPoseCallBack one_scan_in (pose_msg 2 x 0 0) 2).

(** What the worker leaves after an alignment (code outside the file): a
    new running correction and the flag [updated_correction_]. *)
Definition worker_corrects (app : AppROS binary64) : AppROS binary64 :=
  set_updated_correction_ true
    (@set_total_correction_ binary64
       (Binary64.poseMsgToEigen (Binary64.at_position 0.5 0 0)) app).

(** A buffer clear pending over an accumulator holding one scan, and over
    an empty one. *)
Definition clear_pending : AppROS binary64 :=
  fst (robotPoseCallBack (worker_corrects one_scan_in) (pose_msg 2 0 0 0) 2).

Definition clear_pending_empty : AppROS binary64 :=
  fst (robotPoseCallBack (worker_corrects odometry_tracking)
         (pose_msg 2 0 0 0) 2).

(** Prior-map mode with the marker dropped at [x] along the first axis. *)
Definition seeded_at (x : float) : AppROS binary64 :=
  fst (interactionMarkerCallBack awaiting_seed (Binary64.at_position x 0 0)).

(** [n] empty batches, stamped 1 to [n]. *)
Definition batches (n : nat) : list (AlignedCloud binary64) :=
  List.map
    (fun k => Build_AlignedCloud binary64 (Z.of_nat k) [] Binary64.Identity)
    (List.seq 1 n).

(** Prior-map mode, tracking: the marker at 2, the first raw pose at 1. *)
Definition tracking_over_map : AppROS binary64 :=
  fst (robotPoseCallBack (seeded_at 2) (pose_msg 1 1 0 0) 1).

(** The trace a run leaves, empty when it crashes. *)
Definition trace (r : option (AppROS binary64 * list (Event binary64)))
    : list (Event binary64) :=
  match r with
  | Some (_, out) => out
  | None => []
  end.

Definition returns (r : option (AppROS binary64 * list (Event binary64)))
    : bool :=
  match r with Some _ => true | None => false end.

(** Two batches of two scans, finished 0.4 and 0.8 away from the first
    pose. *)
Definition slow_inputs : list (Input binary64) :=
  [Velodyne (scan 1);
   RobotPose (pose_msg 2 0.4 0 0) 2; Velodyne (scan 2);
   Velodyne (scan 3);
   RobotPose (pose_msg 4 0.8 0 0) 4; Velodyne (scan 4)].

(** A third batch, finished 1.2 away from the first pose. *)
Definition third_batch : list (Input binary64) :=
  [Velodyne (scan 5); RobotPose (pose_msg 6 1.2 0 0) 6; Velodyne (scan 6)].

(** Prior-map mode with a map path that is not on the disk: constructed
    with no map. *)
Definition with_missing_map : CommandLineConfig :=
  {| load_map_from_file := true;
     localize_against_prior_map := true;
     verbose := false;
     fixed_frame := "map";
     map_from_file_path := "missing.ply" |}.

Definition awaiting_map : AppROS binary64 :=
  final (construct binary64 with_missing_map (Binary64.new_accumulator 2) 0).

(** Inputs that cannot get a node without a map going. *)
Definition inputs_without_map : list (Input binary64) :=
  [RobotPose (pose_msg 1 0 0 0) 1;
   @InteractionMarker binary64 (Binary64.at_position 2 0 0);
   Velodyne (scan 1);
   LoadMap "missing.ply" 3;
   RobotPose (pose_msg 2 1 0 0) 4;
   Velodyne (scan 2)].

(** Pose updates, a marker and a load, no scan. *)
Definition inputs_without_scan : list (Input binary64) :=
  [RobotPose (pose_msg 3 0.5 0 0) 3;
   @InteractionMarker binary64 (Binary64.at_position 2 0 0);
   LoadMap "second.ply" 4;
   RobotPose (pose_msg 4 2.5 0 0) 5].

(** A raw-pose message whose numbers are all NaN. *)
Definition nan_pose_msg (sec : Z) : PoseWithCovarianceStamped binary64 :=
  Build_PoseWithCovarianceStamped binary64 (sec, 0%Z)
    (Binary64.Build_GeoPose (nan, nan, nan) (nan, nan, nan, nan)) [].

(** One scan in, then a raw pose of NaNs. *)
Definition lost_odometry : AppROS binary64 :=
  fst (robotPoseCallBack one_scan_in (nan_pose_msg 2) 2).

(** A longer drive: batches of two scans finishing 1.5 apart. *)
Definition drive : list (Input binary64) :=
  [Velodyne (scan 1);
   RobotPose (pose_msg 2 1.5 0 0) 2; Velodyne (scan 2);
   Velodyne (scan 3);
   RobotPose (pose_msg 4 3 0 0) 4; Velodyne (scan 4);
   Velodyne (scan 5);
   RobotPose (pose_msg 6 3.2 0 0) 6; Velodyne (scan 6)].

(** From the marker to tracking, with a scan, a reload and a second marker
    after the first pose. *)
Definition through_the_lifecycle : list (Input binary64) :=
  [@InteractionMarker binary64 (Binary64.at_position 2 0 0);
   RobotPose (pose_msg 1 1 0 0) 1;
   Velodyne (scan 1);
   LoadMap "second.ply" 2;
   @InteractionMarker binary64 (Binary64.at_position 3 0 0);
   RobotPose (pose_msg 2 1.5 0 0) 3].

(** Scans, a reload and a rejected raw pose, all before the marker. *)
Definition before_the_marker : list (Input binary64) :=
  [Velodyne (scan 1);
   LoadMap "second.ply" 2;
   RobotPose (pose_msg 1 1 0 0) 1;
   Velodyne (scan 2)].

(** Entrywise comparison of two transforms. *)
Definition same_entries (a b : Isometry3d binary64) : bool :=
  let '(a1, a2, a3) := Binary64.linear a in
  let '(b1, b2, b3) := Binary64.linear b in
  Binary64.vec_eqb a1 b1 && Binary64.vec_eqb a2 b2 && Binary64.vec_eqb a3 b3
  && Binary64.vec_eqb (Binary64.translation a) (Binary64.translation b).

End Sample.

(** * Properties *)

Section Properties.

Variable P : Platform.

Implicit Types (app : AppROS P) (q clouds : list (AlignedCloud P)).
Implicit Types (out : list (Event P)) (scan : Scan P).

(** ** The bounded queue *)

Lemma most_recent_short q :
  (List.length q <= max_queue_size)%nat -> most_recent q = q.
Proof.
  intros Hlen. unfold most_recent.
  replace (List.length q - max_queue_size)%nat with 0%nat by lia.
  apply skipn_0.
Qed.

Lemma most_recent_cons c q :
  (max_queue_size < List.length (c :: q))%nat ->
  most_recent (c :: q) = most_recent q.
Proof.
  intros Hlen. unfold most_recent. cbn [List.length] in *.
  replace (S (List.length q) - max_queue_size)%nat
    with (S (List.length q - max_queue_size)) by lia.
  apply skipn_cons.
Qed.

(** The overflow loop leaves the newest [max_queue_size] entries. *)
Lemma pop_overflow_most_recent q : pop_overflow q = most_recent q.
Proof.
  induction q as [|c q IH].
  - reflexivity.
  - cbn [pop_overflow].
    destruct (Nat.ltb_spec max_queue_size (List.length (c :: q))) as [Hgt|Hle].
    + rewrite IH. symmetry. now apply most_recent_cons.
    + symmetry. now apply most_recent_short.
Qed.

Lemma most_recent_length q :
  List.length (most_recent q) = Nat.min (List.length q) max_queue_size.
Proof. unfold most_recent. rewrite length_skipn. lia. Qed.

(** Trimming early does not change what is kept in the end. *)
Lemma most_recent_app q clouds :
  most_recent (most_recent q ++ clouds) = most_recent (q ++ clouds).
Proof.
  unfold most_recent at 1 3.
  rewrite length_app, most_recent_length, length_app.
  unfold most_recent.
  set (k := (List.length q - max_queue_size)%nat).
  assert (Hk : (k <= List.length q)%nat) by (subst k; lia).
  replace (skipn k q ++ clouds) with (skipn k (q ++ clouds)).
  - rewrite skipn_skipn. f_equal. subst k. lia.
  - rewrite skipn_app.
    replace (k - List.length q)%nat with 0%nat by lia.
    now rewrite skipn_0.
Qed.

Lemma queue_push_queue q c : fst (queue_push q c) = most_recent (q ++ [c]).
Proof. unfold queue_push. cbn [fst]. apply pop_overflow_most_recent. Qed.

(** Each push prints exactly the number of clouds its loop pops. *)
Lemma queue_push_accounting q c :
  (reported_drops (snd (queue_push q c)) + List.length (fst (queue_push q c))
   = List.length q + 1)%nat.
Proof.
  rewrite queue_push_queue. unfold queue_push. cbn [snd].
  rewrite most_recent_length, length_app. cbn [List.length].
  destruct (Nat.ltb_spec max_queue_size (List.length q + 1)) as [Hgt|Hle];
    cbn [reported_drops]; lia.
Qed.

Lemma reported_drops_app out out' :
  reported_drops (out ++ out') = (reported_drops out + reported_drops out')%nat.
Proof.
  induction out as [|e out IH]; [reflexivity|].
  destruct e; cbn [app reported_drops]; rewrite IH; lia.
Qed.

Lemma push_all_cons q c clouds :
  push_all q (c :: clouds)
  = (fst (push_all (fst (queue_push q c)) clouds),
     snd (queue_push q c) ++ snd (push_all (fst (queue_push q c)) clouds)).
Proof.
  cbn [push_all].
  destruct (queue_push q c) as [q1 out1]. cbn [fst snd].
  destruct (push_all q1 clouds) as [q2 out2].
  reflexivity.
Qed.

Lemma push_all_queue clouds :
  forall q c,
    fst (push_all q (c :: clouds)) = most_recent (q ++ c :: clouds).
Proof.
  induction clouds as [|c' clouds IH]; intros q c; rewrite push_all_cons;
    cbn [fst].
  - apply queue_push_queue.
  - rewrite IH, queue_push_queue, most_recent_app, <- app_assoc.
    reflexivity.
Qed.

Lemma push_all_accounting clouds :
  forall q,
    (reported_drops (snd (push_all q clouds))
     + List.length (fst (push_all q clouds))
     = List.length q + List.length clouds)%nat.
Proof.
  induction clouds as [|c clouds IH]; intros q.
  - cbn. lia.
  - rewrite push_all_cons. cbn [fst snd List.length].
    rewrite reported_drops_app.
    pose proof (IH (fst (queue_push q c))) as Hrest.
    pose proof (queue_push_accounting q c) as Hpush.
    lia.
Qed.


(** ** Raw-pose updates *)

Lemma acknowledge_correction_poses app :
  world_to_body_ (acknowledge_correction app) = world_to_body_ app
  /\ world_to_body_previous_ (acknowledge_correction app)
     = world_to_body_previous_ app
  /\ total_correction_ (acknowledge_correction app) = total_correction_ app
  /\ corrected_pose_ (acknowledge_correction app) = corrected_pose_ app
  /\ world_to_body_marker_msg_ (acknowledge_correction app)
     = world_to_body_marker_msg_ app.
Proof.
  unfold acknowledge_correction.
  destruct (updated_correction_ app); repeat split; reflexivity.
Qed.

Lemma initialize_pose_raw app :
  world_to_body_ (initialize_pose app) = world_to_body_ app.
Proof.
  unfold initialize_pose. cbn.
  destruct (map_service (cl_cfg_ app)); reflexivity.
Qed.

(** What an accepted raw pose leaves in the pose members. *)
Lemma robotPoseCallBack_accepted app msg now :
  pose_accepted app = true ->
  let raw := getPoseAsIsometry3d (pose_pose msg) in
  let app' := fst (robotPoseCallBack app msg now) in
  world_to_body_ app' = raw
  /\ total_correction_ app'
     = (if negb (pose_initialized_ app) && map_service (cl_cfg_ app)
        then fromMatrix4fToIsometry3d
               (matrix_cast_float
                  (world_to_body_marker_msg_ app ** inverse raw))
        else total_correction_ app)
  /\ corrected_pose_ app' = total_correction_ app' ** raw
  /\ world_to_body_previous_ app'
     = (if pose_initialized_ app then world_to_body_previous_ app else raw)
  /\ pose_initialized_ app' = true.
Proof.
  unfold pose_accepted. intros Hacc. apply negb_true_iff in Hacc.
  unfold robotPoseCallBack. rewrite Hacc. cbn zeta.
  destruct (pose_initialized_ app) eqn:Hinit; cbn [negb andb fst];
    cbn [pose_initialized_ set_pose_initialized_].
  - pose proof (acknowledge_correction_poses
                  (set_corrected_pose_
                     (total_correction_ app
                      ** getPoseAsIsometry3d (pose_pose msg))
                     (set_world_to_body_
                        (getPoseAsIsometry3d (pose_pose msg))
                        (set_world_to_body_msg_
                           (getPoseAsIsometry3d (pose_pose msg)) app))))
      as (Hw & Hp & Ht & Hc & _).
    cbn in *. rewrite Hw, Hp, Ht, Hc. repeat split; reflexivity.
  - unfold initialize_pose. cbn.
    destruct (map_service (cl_cfg_ app)) eqn:Hmap; cbn.
    all: match goal with
         | |- context [acknowledge_correction ?a] =>
             pose proof (acknowledge_correction_poses a)
               as (Hw & Hp & Ht & Hc & _)
         end.
    all: cbn in *; rewrite Hw, Hp, Ht, Hc; repeat split; reflexivity.
Qed.

(** The pose published on the corrected-pose topic is the stored one. *)
Lemma robotPoseCallBack_publishes app msg now :
  pose_accepted app = true ->
  In (PublishCorrectedPose
        (corrected_pose_ (fst (robotPoseCallBack app msg now)))
        (pose_covariance msg) (header_stamp msg) (fixed_frame (cl_cfg_ app)))
     (snd (robotPoseCallBack app msg now)).
Proof.
  unfold pose_accepted. intros Hacc. apply negb_true_iff in Hacc.
  unfold robotPoseCallBack. rewrite Hacc. cbn zeta. cbn [fst snd].
  cbn [corrected_pose_ set_pose_initialized_].
  match goal with
  | |- context [acknowledge_correction ?a] =>
      destruct (acknowledge_correction_poses a) as (_ & _ & _ & Hc & _);
      rewrite Hc
  end.
  apply in_or_app. right. right. left.
  f_equal. cbn [cl_cfg_ set_corrected_pose_].
  destruct (negb (pose_initialized_ app)); [unfold initialize_pose|];
    cbn; [destruct (map_service (cl_cfg_ app))|]; reflexivity.
Qed.

(** C1.  Every accepted raw-pose update stores the pose of the message as the
    raw pose and sets the corrected pose to the running correction composed
    on the left of that raw pose; this is the pose it publishes. *)
Theorem corrected_pose_is_correction_after_raw app msg now :
  pose_accepted app = true ->
  let app' := fst (robotPoseCallBack app msg now) in
  world_to_body_ app' = getPoseAsIsometry3d (pose_pose msg)
  /\ corrected_pose_ app' = total_correction_ app' ** world_to_body_ app'
  /\ In (PublishCorrectedPose (total_correction_ app' ** world_to_body_ app')
           (pose_covariance msg) (header_stamp msg)
           (fixed_frame (cl_cfg_ app)))
        (snd (robotPoseCallBack app msg now)).
Proof.
  intros Hacc app'.
  destruct (robotPoseCallBack_accepted app msg now Hacc)
    as (Hraw & _ & Hcorr & _ & _).
  fold app' in Hraw, Hcorr.
  assert (Hcomp : corrected_pose_ app'
                  = total_correction_ app' ** world_to_body_ app')
    by (rewrite Hcorr, Hraw; reflexivity).
  repeat split; [exact Hraw | exact Hcomp |].
  rewrite <- Hcomp. now apply robotPoseCallBack_publishes.
Qed.


(** ** Scan intake *)

(** The intake step touches the accumulator and the clear flag only. *)
Lemma accumulate_scan_frame app scan :
  let app1 := fst (accumulate_scan app scan) in
  world_to_body_ app1 = world_to_body_ app
  /\ world_to_body_previous_ app1 = world_to_body_previous_ app
  /\ cloud_queue_ app1 = cloud_queue_ app
  /\ total_correction_ app1 = total_correction_ app
  /\ corrected_pose_ app1 = corrected_pose_ app
  /\ pose_initialized_ app1 = pose_initialized_ app
  /\ cl_cfg_ app1 = cl_cfg_ app.
Proof.
  unfold accumulate_scan.
  destruct (clear_clouds_buffer_ app); cbn;
    [destruct (getCounter (accu_ app)); cbn|]; repeat split; reflexivity.
Qed.

Lemma relative_motion_after_intake app scan :
  relative_motion (fst (accumulate_scan app scan)) = relative_motion app.
Proof.
  unfold relative_motion.
  destruct (accumulate_scan_frame app scan) as (Hw & Hp & _).
  now rewrite Hw, Hp.
Qed.

(** What the dispatch step changes, by cases on the accumulator's report
    and the motion test. *)
Lemma dispatch_finished_frame app :
  let app2 := fst (dispatch_finished app) in
  let pushes := getFinished (accu_ app) && moved_enough (relative_motion app) in
  world_to_body_ app2 = world_to_body_ app
  /\ world_to_body_previous_ app2
     = (if pushes then world_to_body_ app else world_to_body_previous_ app)
  /\ cloud_queue_ app2
     = (if pushes then fst (queue_push (cloud_queue_ app) (current_cloud app))
        else cloud_queue_ app)
  /\ accu_ app2
     = (if getFinished (accu_ app) then clearCloud (accu_ app) else accu_ app)
  /\ clear_clouds_buffer_ app2 = clear_clouds_buffer_ app
  /\ total_correction_ app2 = total_correction_ app
  /\ corrected_pose_ app2 = corrected_pose_ app
  /\ pose_initialized_ app2 = pose_initialized_ app
  /\ existsb forwards_scan (snd (dispatch_finished app)) = false
  /\ existsb announces_dispatch (snd (dispatch_finished app)) = pushes.
Proof.
  unfold dispatch_finished.
  destruct (getFinished (accu_ app)); cbn [andb];
    [|cbn; repeat split; reflexivity].
  destruct (moved_enough (relative_motion app));
    [|cbn; repeat split; reflexivity].
  unfold enqueue_cloud. cbn [cloud_queue_ set_world_to_body_previous_].
  destruct (queue_push (cloud_queue_ app) (current_cloud app))
    as [q dropping] eqn:Hpush.
  cbn. repeat split; try reflexivity.
  unfold queue_push in Hpush. inversion Hpush; subst.
  destruct (Nat.ltb _ _); reflexivity.
Qed.

Lemma velodyneCallBack_tracking app scan :
  pose_initialized_ app = true ->
  velodyneCallBack app scan
  = (fst (dispatch_finished (fst (accumulate_scan app scan))),
     snd (accumulate_scan app scan)
     ++ snd (dispatch_finished (fst (accumulate_scan app scan)))).
Proof.
  intros Hinit. unfold velodyneCallBack. rewrite Hinit. cbn [negb].
  destruct (accumulate_scan app scan) as [app1 out1]. cbn [fst snd].
  destruct (dispatch_finished app1) as [app2 out2]. reflexivity.
Qed.

(** The intake step under a pending buffer clear. *)
Lemma accumulate_scan_pending app scan :
  clear_clouds_buffer_ app = true ->
  let app1 := fst (accumulate_scan app scan) in
  let out1 := snd (accumulate_scan app scan) in
  clear_clouds_buffer_ app1 = false
  /\ existsb forwards_scan out1 = false
  /\ (existsb clears_accumulator out1 = true
      <-> (0 < getCounter (accu_ app))%N)
  /\ ((0 < getCounter (accu_ app))%N ->
      accu_ app1 = clearCloud (accu_ app) /\ out1 = [AccuClearCloud])
  /\ (getCounter (accu_ app) = 0%N -> accu_ app1 = accu_ app /\ out1 = []).
Proof.
  intros Hflag. unfold accumulate_scan. rewrite Hflag. cbn [negb].
  cbn [accu_ set_clear_clouds_buffer_].
  destruct (N.ltb_spec 0 (getCounter (accu_ app))) as [Hpos|Hzero]; cbn;
    (split; [reflexivity|split; [reflexivity|split; [|split]]]).
  - split; [intros _; exact Hpos | reflexivity].
  - intros _. split; reflexivity.
  - intros Hc. rewrite Hc in Hpos. lia.
  - split; [discriminate | lia].
  - lia.
  - intros _. split; reflexivity.
Qed.

(** The whole callback under a pending buffer clear. *)
Lemma velodyneCallBack_pending app scan :
  clear_clouds_buffer_ app = true ->
  pose_initialized_ app = true ->
  clear_clouds_buffer_ (fst (velodyneCallBack app scan)) = false
  /\ existsb forwards_scan (snd (velodyneCallBack app scan)) = false.
Proof.
  intros Hflag Hinit.
  destruct (accumulate_scan_pending app scan Hflag) as (Hclr & Hfwd & _).
  rewrite (velodyneCallBack_tracking _ _ Hinit). cbn [fst snd].
  destruct (dispatch_finished_frame (fst (accumulate_scan app scan)))
    as (_ & _ & _ & _ & Hc & _ & _ & _ & Hf & _).
  split.
  - rewrite Hc. exact Hclr.
  - rewrite existsb_app, Hfwd, Hf. reflexivity.
Qed.

(** C10.  A scan that arrives while the buffer-clear flag is set is never
    forwarded to the accumulator and always resets the flag; the intake step
    calls the accumulator's clear exactly when its scan counter is strictly
    positive, and with a counter of zero it leaves the accumulator as it is
    and calls nothing.  When no batch is reported finished either, the whole
    callback then only takes the flag down. *)
Theorem pending_clear_discards_one_scan app scan :
  clear_clouds_buffer_ app = true ->
  let app1 := fst (accumulate_scan app scan) in
  let out1 := snd (accumulate_scan app scan) in
  clear_clouds_buffer_ app1 = false
  /\ existsb forwards_scan out1 = false
  /\ (existsb clears_accumulator out1 = true
      <-> (0 < getCounter (accu_ app))%N)
  /\ ((0 < getCounter (accu_ app))%N ->
      accu_ app1 = clearCloud (accu_ app) /\ out1 = [AccuClearCloud])
  /\ (getCounter (accu_ app) = 0%N -> accu_ app1 = accu_ app /\ out1 = [])
  /\ (pose_initialized_ app = true ->
      clear_clouds_buffer_ (fst (velodyneCallBack app scan)) = false
      /\ existsb forwards_scan (snd (velodyneCallBack app scan)) = false)
  /\ (pose_initialized_ app = true ->
      getCounter (accu_ app) = 0%N ->
      getFinished (accu_ app) = false ->
      velodyneCallBack app scan = (set_clear_clouds_buffer_ false app, [])).
Proof.
  intros Hflag app1 out1.
  destruct (accumulate_scan_pending app scan Hflag)
    as (Hclr & Hfwd & Hiff & Hpos & Hzero).
  do 5 (split; [assumption|]).
  split; [intros Hinit; now apply velodyneCallBack_pending|].
  intros Hinit Hempty Hopen.
  unfold velodyneCallBack, accumulate_scan.
  rewrite Hinit, Hflag. cbn [negb accu_ set_clear_clouds_buffer_].
  rewrite Hempty. cbn [N.ltb N.compare].
  unfold dispatch_finished. cbn [accu_ set_clear_clouds_buffer_].
  rewrite Hopen. reflexivity.
Qed.


(** ** The motion gate *)

(** The motion test, spelled out on the translation norm and the three Euler
    angles of a relative motion. *)
Lemma moved_enough_iff (rel : Isometry3d P) :
  moved_enough rel = true
  <-> PrimFloat.ltb 1.0 (translation_norm rel) = true
      \/ PrimFloat.ltb (10.0 * M_PI / 180.0)
           (PrimFloat.abs (fst (fst (quat_to_euler rel)))) = true
      \/ PrimFloat.ltb (10.0 * M_PI / 180.0)
           (PrimFloat.abs (snd (fst (quat_to_euler rel)))) = true
      \/ PrimFloat.ltb (10.0 * M_PI / 180.0)
           (PrimFloat.abs (snd (quat_to_euler rel))) = true.
Proof.
  unfold moved_enough, fgt, fabs, dist_threshold, angle_threshold.
  destruct (quat_to_euler rel) as [[roll pitch] yaw]. cbn [fst snd].
  rewrite !orb_true_iff. tauto.
Qed.

(** The cloud pushed last is the last entry of the queue. *)
Lemma most_recent_snoc q c :
  exists front, most_recent (q ++ [c]) = front ++ [c].
Proof.
  exists (skipn (List.length (q ++ [c]) - max_queue_size) q).
  unfold most_recent. rewrite skipn_app.
  replace (List.length (q ++ [c]) - max_queue_size - List.length q)%nat
    with 0%nat by (rewrite length_app; cbn; unfold max_queue_size; lia).
  reflexivity.
Qed.

(** C2.  When a scan completes a batch, the batch is enqueued exactly when
    the motion from the previous accepted raw pose to the current one has a
    translation norm above 1.0 or a roll, pitch or yaw above 10 degrees in
    magnitude.  Enqueued, the batch becomes the last entry of the queue, with
    the current raw pose; otherwise the queue is left as it was. *)
Theorem finished_batch_enqueued_iff_moved app scan :
  pose_initialized_ app = true ->
  getFinished (accu_ (fst (accumulate_scan app scan))) = true ->
  let rel := inverse (world_to_body_previous_ app) ** world_to_body_ app in
  let rpy := quat_to_euler rel in
  let moved :=
    PrimFloat.ltb 1.0 (translation_norm rel) = true
    \/ PrimFloat.ltb (10.0 * M_PI / 180.0) (PrimFloat.abs (fst (fst rpy)))
       = true
    \/ PrimFloat.ltb (10.0 * M_PI / 180.0) (PrimFloat.abs (snd (fst rpy)))
       = true
    \/ PrimFloat.ltb (10.0 * M_PI / 180.0) (PrimFloat.abs (snd rpy))
       = true in
  let batch := current_cloud (fst (accumulate_scan app scan)) in
  let app' := fst (velodyneCallBack app scan) in
  (existsb announces_dispatch (snd (velodyneCallBack app scan)) = true
   <-> moved)
  /\ (moved ->
      cloud_queue_ app' = most_recent (cloud_queue_ app ++ [batch])
      /\ (exists front, cloud_queue_ app' = front ++ [batch])
      /\ getWorldToBody batch = world_to_body_ app)
  /\ (~ moved -> cloud_queue_ app' = cloud_queue_ app).
Proof.
  intros Hinit Hfin rel rpy moved batch app'.
  pose proof (moved_enough_iff rel) as Hiff. fold rpy moved in Hiff.
  subst app'. rewrite (velodyneCallBack_tracking _ _ Hinit). cbn [fst snd].
  destruct (dispatch_finished_frame (fst (accumulate_scan app scan)))
    as (_ & _ & Hq & _ & _ & _ & _ & _ & _ & Hann).
  destruct (accumulate_scan_frame app scan) as (Hw & _ & Hq1 & _).
  rewrite relative_motion_after_intake in Hq, Hann.
  rewrite Hfin in Hq, Hann. cbn [andb] in Hq, Hann.
  change (relative_motion app) with rel in Hq, Hann.
  rewrite Hq1 in Hq. fold batch in Hq.
  assert (Hout : existsb announces_dispatch
                   (snd (accumulate_scan app scan)
                    ++ snd (dispatch_finished
                              (fst (accumulate_scan app scan))))
                 = moved_enough rel).
  { rewrite existsb_app, Hann. unfold accumulate_scan.
    destruct (clear_clouds_buffer_ app); cbn;
      [destruct (getCounter (accu_ app)); cbn|]; reflexivity. }
  split; [rewrite Hout; exact Hiff|]. split.
  - intros Hmoved. apply Hiff in Hmoved. rewrite Hmoved in Hq.
    rewrite queue_push_queue in Hq. rewrite Hq.
    split; [reflexivity|]. split; [apply most_recent_snoc|].
    subst batch. cbn [current_cloud getWorldToBody]. exact Hw.
  - intros Hstill.
    destruct (moved_enough rel); [exfalso; apply Hstill, Hiff; reflexivity|].
    exact Hq.
Qed.

(** C7.  A scan offered before the first raw pose is accepted, and in
    prior-map mode a raw pose arriving before the marker seed, change no
    member and only log a warning. *)
Theorem early_inputs_are_discarded app :
  (pose_initialized_ app = false ->
   forall scan,
     velodyneCallBack app scan
     = (app,
        [ROS_WARN "[Aicp] Pose not initialized, waiting for pose prior..."]))
  /\ (map_service (cl_cfg_ app) = true ->
      pose_marker_initialized_ app = false ->
      forall msg now,
        robotPoseCallBack app msg now
        = (app,
           [ROS_WARN
              "[Aicp] Pose initial guess in map not set, waiting for interactive marker..."])).
Proof.
  split.
  - intros Hinit scan. unfold velodyneCallBack. now rewrite Hinit.
  - intros Hmap Hmarker msg now. unfold robotPoseCallBack.
    now rewrite Hmap, Hmarker.
Qed.

(** ** Frames of the callbacks *)

Lemma robotPoseCallBack_rejected app msg now :
  pose_accepted app = false ->
  fst (robotPoseCallBack app msg now) = app
  /\ existsb announces_dispatch (snd (robotPoseCallBack app msg now)) = false.
Proof.
  unfold pose_accepted. intros Hrej. apply negb_false_iff in Hrej.
  unfold robotPoseCallBack. rewrite Hrej. split; reflexivity.
Qed.

(** A raw-pose update leaves the configuration, the map, the marker, the
    queue and the accumulator alone, and dispatches nothing. *)
Lemma robotPoseCallBack_frame app msg now :
  let app' := fst (robotPoseCallBack app msg now) in
  cl_cfg_ app' = cl_cfg_ app
  /\ pose_marker_initialized_ app' = pose_marker_initialized_ app
  /\ map_initialized_ app' = map_initialized_ app
  /\ prior_map_ app' = prior_map_ app
  /\ world_to_body_marker_msg_ app' = world_to_body_marker_msg_ app
  /\ cloud_queue_ app' = cloud_queue_ app
  /\ accu_ app' = accu_ app
  /\ existsb announces_dispatch (snd (robotPoseCallBack app msg now)) = false.
Proof.
  destruct (pose_accepted app) eqn:Hacc.
  - unfold pose_accepted in Hacc. apply negb_true_iff in Hacc.
    unfold robotPoseCallBack. rewrite Hacc. cbn zeta. cbn [fst snd].
    unfold acknowledge_correction, initialize_pose.
    destruct (pose_initialized_ app); cbn;
      destruct (map_service (cl_cfg_ app)); cbn;
      destruct (updated_correction_ app); cbn; repeat split; reflexivity.
  - destruct (robotPoseCallBack_rejected app msg now Hacc) as [-> ->].
    repeat split; reflexivity.
Qed.

(** The marker callback writes the marker pose and its flag, nothing else,
    and only before the first raw pose. *)
Lemma interactionMarkerCallBack_frame app (pose : GeoPose P) :
  let app' := fst (interactionMarkerCallBack app pose) in
  let taken :=
    map_service (cl_cfg_ app) && map_initialized_ app
    && negb (pose_initialized_ app) in
  cl_cfg_ app' = cl_cfg_ app
  /\ pose_initialized_ app' = pose_initialized_ app
  /\ map_initialized_ app' = map_initialized_ app
  /\ prior_map_ app' = prior_map_ app
  /\ pose_marker_initialized_ app'
     = (if taken then true else pose_marker_initialized_ app)
  /\ world_to_body_marker_msg_ app'
     = (if taken then getPoseAsIsometry3d pose
        else world_to_body_marker_msg_ app)
  /\ world_to_body_ app' = world_to_body_ app
  /\ world_to_body_previous_ app' = world_to_body_previous_ app
  /\ total_correction_ app' = total_correction_ app
  /\ corrected_pose_ app' = corrected_pose_ app
  /\ (taken = false -> app' = app)
  /\ existsb announces_dispatch (snd (interactionMarkerCallBack app pose))
     = false.
Proof.
  unfold interactionMarkerCallBack, map_service.
  destruct (load_map_from_file (cl_cfg_ app));
    destruct (localize_against_prior_map (cl_cfg_ app));
    destruct (map_initialized_ app) eqn:Hmap;
    destruct (pose_initialized_ app) eqn:Hinit;
    cbn; rewrite ?Hmap, ?Hinit; repeat split; try reflexivity; discriminate.
Qed.

(** Loading a map writes the map and its flag, nothing else, and only before
    the first raw pose. *)
Lemma loadMapFromFile_frame app path now app' ok out :
  loadMapFromFile app path now = Some (app', ok, out) ->
  cl_cfg_ app' = cl_cfg_ app
  /\ pose_initialized_ app' = pose_initialized_ app
  /\ pose_marker_initialized_ app' = pose_marker_initialized_ app
  /\ world_to_body_marker_msg_ app' = world_to_body_marker_msg_ app
  /\ world_to_body_ app' = world_to_body_ app
  /\ world_to_body_previous_ app' = world_to_body_previous_ app
  /\ total_correction_ app' = total_correction_ app
  /\ corrected_pose_ app' = corrected_pose_ app
  /\ (ok = false -> app' = app)
  /\ (ok = true ->
      map_initialized_ app' = true /\ is_loaded (prior_map_ app') = true)
  /\ existsb announces_dispatch out = false.
Proof.
  unfold loadMapFromFile.
  destruct (negb (load_map_from_file (cl_cfg_ app))
            && negb (localize_against_prior_map (cl_cfg_ app))).
  { intros [= <- <- <-]. repeat split; try reflexivity; congruence. }
  destruct (pose_initialized_ app) eqn:Hinit.
  { destruct (prior_map_ app); [|discriminate].
    intros [= <- <- <-]. repeat split; try reflexivity; congruence. }
  destruct (loadPLYFile path).
  - intros [= <- <- <-]. cbn. rewrite ?Hinit.
    repeat split; try reflexivity; congruence.
  - intros [= <- <- <-]. repeat split; try reflexivity; congruence.
Qed.

Lemma accumulate_scan_flags app scan :
  let app1 := fst (accumulate_scan app scan) in
  cl_cfg_ app1 = cl_cfg_ app
  /\ pose_marker_initialized_ app1 = pose_marker_initialized_ app
  /\ map_initialized_ app1 = map_initialized_ app
  /\ prior_map_ app1 = prior_map_ app
  /\ world_to_body_marker_msg_ app1 = world_to_body_marker_msg_ app.
Proof.
  unfold accumulate_scan.
  destruct (clear_clouds_buffer_ app); cbn;
    [destruct (getCounter (accu_ app)); cbn|]; repeat split; reflexivity.
Qed.

Lemma dispatch_finished_flags app :
  let app2 := fst (dispatch_finished app) in
  cl_cfg_ app2 = cl_cfg_ app
  /\ pose_marker_initialized_ app2 = pose_marker_initialized_ app
  /\ map_initialized_ app2 = map_initialized_ app
  /\ prior_map_ app2 = prior_map_ app
  /\ world_to_body_marker_msg_ app2 = world_to_body_marker_msg_ app.
Proof.
  unfold dispatch_finished.
  destruct (getFinished (accu_ app)); [|cbn; repeat split; reflexivity].
  destruct (moved_enough (relative_motion app));
    [|cbn; repeat split; reflexivity].
  unfold enqueue_cloud.
  destruct (queue_push _ _) as [q dropping].
  cbn. repeat split; reflexivity.
Qed.

(** A scan leaves the configuration, the flags of the lifecycle, the map and
    the poses other than the previous one alone. *)
Lemma velodyneCallBack_frame app scan :
  let app' := fst (velodyneCallBack app scan) in
  cl_cfg_ app' = cl_cfg_ app
  /\ pose_initialized_ app' = pose_initialized_ app
  /\ pose_marker_initialized_ app' = pose_marker_initialized_ app
  /\ map_initialized_ app' = map_initialized_ app
  /\ prior_map_ app' = prior_map_ app
  /\ world_to_body_marker_msg_ app' = world_to_body_marker_msg_ app
  /\ world_to_body_ app' = world_to_body_ app
  /\ total_correction_ app' = total_correction_ app
  /\ corrected_pose_ app' = corrected_pose_ app.
Proof.
  destruct (pose_initialized_ app) eqn:Hinit.
  - rewrite (velodyneCallBack_tracking _ _ Hinit). cbn [fst].
    destruct (accumulate_scan_frame app scan)
      as (Hw & _ & _ & Ht & Hc & Hi & _).
    destruct (accumulate_scan_flags app scan) as (Hcfg & Hpm & Hm & Hpr & Hmk).
    destruct (dispatch_finished_frame (fst (accumulate_scan app scan)))
      as (Hw' & _ & _ & _ & _ & Ht' & Hc' & Hi' & _).
    destruct (dispatch_finished_flags (fst (accumulate_scan app scan)))
      as (Hcfg' & Hpm' & Hm' & Hpr' & Hmk').
    rewrite Hw', Ht', Hc', Hi', Hcfg', Hpm', Hm', Hpr', Hmk'.
    rewrite Hw, Ht, Hc, Hi, Hcfg, Hpm, Hm, Hpr, Hmk, Hinit.
    repeat split; reflexivity.
  - unfold velodyneCallBack. rewrite Hinit. cbn. rewrite Hinit.
    repeat split; reflexivity.
Qed.


(** ** The reference pose of the motion gate *)

Lemma accumulate_scan_announces app scan :
  existsb announces_dispatch (snd (accumulate_scan app scan)) = false.
Proof.
  unfold accumulate_scan.
  destruct (clear_clouds_buffer_ app); cbn;
    [destruct (getCounter (accu_ app)); cbn|]; reflexivity.
Qed.

(** A scan moves the reference pose and grows the queue exactly when it
    dispatches, which its trace announces. *)
Lemma velodyneCallBack_dispatch app scan :
  let app' := fst (velodyneCallBack app scan) in
  world_to_body_previous_ app'
  = (if dispatches app scan then world_to_body_ app
     else world_to_body_previous_ app)
  /\ cloud_queue_ app'
     = (if dispatches app scan
        then most_recent
               (cloud_queue_ app
                ++ [current_cloud (fst (accumulate_scan app scan))])
        else cloud_queue_ app)
  /\ existsb announces_dispatch (snd (velodyneCallBack app scan))
     = dispatches app scan.
Proof.
  unfold dispatches.
  destruct (pose_initialized_ app) eqn:Hinit; cbn [andb].
  - rewrite (velodyneCallBack_tracking _ _ Hinit). cbn [fst snd].
    destruct (accumulate_scan_frame app scan) as (Hw & Hp & Hq & _).
    destruct (dispatch_finished_frame (fst (accumulate_scan app scan)))
      as (_ & Hp' & Hq' & _ & _ & _ & _ & _ & _ & Hann).
    rewrite relative_motion_after_intake in Hp', Hq', Hann.
    rewrite Hp', Hq', existsb_app, Hann, accumulate_scan_announces.
    rewrite Hw, Hp, Hq, queue_push_queue. cbn [orb].
    repeat split; reflexivity.
  - unfold velodyneCallBack. rewrite Hinit. repeat split; reflexivity.
Qed.

(** A dispatching scan pushes its batch and prints the drops of the push. *)
Lemma velodyneCallBack_pushes app scan :
  dispatches app scan = true ->
  let batch := current_cloud (fst (accumulate_scan app scan)) in
  cloud_queue_ (fst (velodyneCallBack app scan))
  = fst (queue_push (cloud_queue_ app) batch)
  /\ reported_drops (snd (velodyneCallBack app scan))
     = reported_drops (snd (queue_push (cloud_queue_ app) batch)).
Proof.
  intros Hdisp batch.
  destruct (velodyneCallBack_dispatch app scan) as (_ & Hq & _).
  rewrite Hdisp in Hq. split; [now rewrite Hq, queue_push_queue|].
  unfold dispatches in Hdisp.
  apply andb_true_iff in Hdisp as [Hdisp Hmoved].
  apply andb_true_iff in Hdisp as [Hinit Hfin].
  rewrite (velodyneCallBack_tracking _ _ Hinit). cbn [snd].
  rewrite reported_drops_app.
  replace (reported_drops (snd (accumulate_scan app scan))) with 0%nat.
  2:{ unfold accumulate_scan.
      destruct (clear_clouds_buffer_ app); cbn;
        [destruct (getCounter (accu_ app)); cbn|]; reflexivity. }
  rewrite <- relative_motion_after_intake with (scan := scan) in Hmoved.
  destruct (accumulate_scan_frame app scan) as (_ & _ & Hq1 & _).
  unfold dispatch_finished. rewrite Hfin, Hmoved.
  unfold enqueue_cloud. cbn [cloud_queue_ set_world_to_body_previous_].
  rewrite Hq1. fold batch.
  destruct (queue_push (cloud_queue_ app) batch) as [q dropping].
  cbn [snd]. rewrite !reported_drops_app. cbn. lia.
Qed.

(** C3.  More than [max_queue_size] = 100 pushes in a row leave in the queue
    exactly the 100 clouds pushed last, in the order they were pushed,
    whatever the queue held before; the drop warnings printed on the way add
    up to the number of clouds removed, which from an empty queue is the
    number of pushes minus 100.  A push is what every dispatching scan
    callback does to the queue and prints. *)
Theorem queue_keeps_the_newest_hundred q0 clouds :
  (max_queue_size < List.length clouds)%nat ->
  max_queue_size = 100%nat
  /\ fst (push_all q0 clouds)
     = skipn (List.length clouds - max_queue_size) clouds
  /\ List.length (fst (push_all q0 clouds)) = max_queue_size
  /\ reported_drops (snd (push_all q0 clouds))
     = (List.length q0 + List.length clouds - max_queue_size)%nat
  /\ (q0 = [] ->
      reported_drops (snd (push_all q0 clouds))
      = (List.length clouds - max_queue_size)%nat)
  /\ (forall app scan,
        dispatches app scan = true ->
        let batch := current_cloud (fst (accumulate_scan app scan)) in
        cloud_queue_ (fst (velodyneCallBack app scan))
        = fst (queue_push (cloud_queue_ app) batch)
        /\ reported_drops (snd (velodyneCallBack app scan))
           = reported_drops (snd (queue_push (cloud_queue_ app) batch))).
Proof.
  intros Hmany.
  assert (Hqueue : fst (push_all q0 clouds)
                   = skipn (List.length clouds - max_queue_size) clouds).
  { destruct clouds as [|c rest]; [cbn in Hmany; lia|].
    rewrite push_all_queue. unfold most_recent.
    rewrite skipn_app, length_app.
    rewrite skipn_all2 by lia. cbn [app]. f_equal. lia. }
  assert (Hlen : List.length (fst (push_all q0 clouds)) = max_queue_size).
  { rewrite Hqueue, length_skipn. lia. }
  pose proof (push_all_accounting clouds q0) as Hacc.
  split; [reflexivity|]. split; [exact Hqueue|]. split; [exact Hlen|].
  split; [lia|]. split.
  - intros ->. cbn [List.length] in Hacc. lia.
  - intros app scan Hdisp. now apply velodyneCallBack_pushes.
Qed.

(** From [Some c = Some (x, y)], name [x] and [y] as the components of [c]. *)
Ltac take_result H :=
  injection H as H;
  let Hfst := fresh in
  let Hsnd := fresh in
  pose proof (f_equal fst H) as Hfst;
  pose proof (f_equal snd H) as Hsnd;
  cbn [fst snd] in Hfst, Hsnd;
  subst; clear H.

(** Once tracking, a callback keeps tracking and keeps the running
    correction and the composition of the corrected pose; it moves the
    reference pose only if it dispatches. *)
Lemma step_tracking app i app' out :
  pose_initialized_ app = true ->
  step app i = Some (app', out) ->
  pose_initialized_ app' = true
  /\ total_correction_ app' = total_correction_ app
  /\ (corrected_pose_ app = total_correction_ app ** world_to_body_ app ->
      corrected_pose_ app' = total_correction_ app' ** world_to_body_ app')
  /\ (existsb announces_dispatch out = false ->
      world_to_body_previous_ app' = world_to_body_previous_ app).
Proof.
  intros Hinit Hstep. destruct i as [msg now|scan|pose|path now]; cbn in Hstep.
  - take_result Hstep.
    destruct (pose_accepted app) eqn:Hacc.
    + destruct (robotPoseCallBack_accepted app msg now Hacc)
        as (Hw & Ht & Hc & Hp & Hi).
      rewrite Hinit in Ht, Hp. cbn in Ht.
      rewrite Hi, Hc, Ht, Hw, Hp. repeat split; reflexivity.
    + destruct (robotPoseCallBack_rejected app msg now Hacc) as [-> _].
      repeat split; auto.
  - take_result Hstep.
    destruct (velodyneCallBack_frame app scan)
      as (_ & Hi & _ & _ & _ & _ & Hw & Ht & Hc).
    destruct (velodyneCallBack_dispatch app scan) as (Hp & _ & Hann).
    rewrite Hi, Ht, Hc, Hw, Hp, Hann. repeat split; auto.
    intros ->. reflexivity.
  - take_result Hstep.
    destruct (interactionMarkerCallBack_frame app pose)
      as (_ & Hi & _ & _ & _ & _ & Hw & Hp & Ht & Hc & _).
    rewrite Hi, Ht, Hc, Hw, Hp. repeat split; auto.
  - destruct (loadMapFromFile app path now) as [[[app1 ok] out1]|] eqn:Hload;
      [|discriminate].
    injection Hstep as <- <-.
    destruct (loadMapFromFile_frame _ _ _ Hload)
      as (_ & Hi & _ & _ & Hw & Hp & Ht & Hc & _).
    rewrite Hi, Ht, Hc, Hw, Hp. repeat split; auto.
Qed.

Lemma run_tracking inputs :
  forall app app' out,
    pose_initialized_ app = true ->
    run app inputs = Some (app', out) ->
    pose_initialized_ app' = true
    /\ total_correction_ app' = total_correction_ app
    /\ (corrected_pose_ app = total_correction_ app ** world_to_body_ app ->
        corrected_pose_ app' = total_correction_ app' ** world_to_body_ app')
    /\ (existsb announces_dispatch out = false ->
        world_to_body_previous_ app' = world_to_body_previous_ app).
Proof.
  induction inputs as [|i inputs IH]; intros app app' out Hinit Hrun;
    cbn in Hrun.
  - injection Hrun as <- <-. repeat split; auto.
  - destruct (step app i) as [[app1 out1]|] eqn:Hstep; [|discriminate].
    destruct (run app1 inputs) as [[app2 out2]|] eqn:Hrest; [|discriminate].
    injection Hrun as <- <-.
    destruct (step_tracking _ _ Hinit Hstep) as (Hi1 & Ht1 & Hc1 & Hp1).
    destruct (IH _ _ _ Hi1 Hrest) as (Hi2 & Ht2 & Hc2 & Hp2).
    split; [exact Hi2|]. split; [congruence|]. split; [auto|].
    rewrite existsb_app. intros Hnone. apply orb_false_iff in Hnone.
    destruct Hnone as [Hn1 Hn2]. rewrite (Hp2 Hn2). auto.
Qed.

(** C9.  The reference pose of the motion gate is written in two places
    only: by the first accepted raw pose, and by a scan that dispatches a
    batch.  A finished batch that is rejected, later raw poses, the marker
    and map loading leave it as it is, so over any stretch of inputs that
    dispatches nothing the gate keeps measuring the motion from the pose of
    the last dispatch (or the first pose) to the current raw pose. *)
Theorem reference_pose_advances_only_on_dispatch app :
  (forall msg now,
     world_to_body_previous_ (fst (robotPoseCallBack app msg now))
     = (if pose_accepted app && negb (pose_initialized_ app)
        then getPoseAsIsometry3d (pose_pose msg)
        else world_to_body_previous_ app))
  /\ (forall scan,
        world_to_body_previous_ (fst (velodyneCallBack app scan))
        = (if dispatches app scan then world_to_body_ app
           else world_to_body_previous_ app)
        /\ dispatches app scan
           = pose_initialized_ app
             && getFinished (accu_ (fst (accumulate_scan app scan)))
             && moved_enough
                  (inverse (world_to_body_previous_ app) ** world_to_body_ app)
        /\ existsb announces_dispatch (snd (velodyneCallBack app scan))
           = dispatches app scan)
  /\ (forall pose,
        world_to_body_previous_ (fst (interactionMarkerCallBack app pose))
        = world_to_body_previous_ app)
  /\ (forall path now app' ok out,
        loadMapFromFile app path now = Some (app', ok, out) ->
        world_to_body_previous_ app' = world_to_body_previous_ app)
  /\ (forall inputs app' out,
        pose_initialized_ app = true ->
        run app inputs = Some (app', out) ->
        existsb announces_dispatch out = false ->
        world_to_body_previous_ app' = world_to_body_previous_ app
        /\ relative_motion app'
           = inverse (world_to_body_previous_ app) ** world_to_body_ app').
Proof.
  split; [|split; [|split; [|split]]].
  - intros msg now. destruct (pose_accepted app) eqn:Hacc; cbn [andb].
    + destruct (robotPoseCallBack_accepted app msg now Hacc)
        as (_ & _ & _ & Hp & _).
      rewrite Hp. destruct (pose_initialized_ app); reflexivity.
    + destruct (robotPoseCallBack_rejected app msg now Hacc) as [-> _].
      reflexivity.
  - intros scan.
    destruct (velodyneCallBack_dispatch app scan) as (Hp & _ & Hann).
    repeat split; [exact Hp | exact Hann].
  - intros pose.
    now destruct (interactionMarkerCallBack_frame app pose)
      as (_ & _ & _ & _ & _ & _ & _ & Hp & _).
  - intros path now app' ok out Hload.
    now destruct (loadMapFromFile_frame _ _ _ Hload)
      as (_ & _ & _ & _ & _ & Hp & _).
  - intros inputs app' out Hinit Hrun Hnone.
    destruct (run_tracking _ _ Hinit Hrun) as (_ & _ & _ & Hp).
    unfold relative_motion. rewrite (Hp Hnone). split; reflexivity.
Qed.

(** ** The flags and the map pointer *)

Lemma paramInit_well_formed cl_cfg (accu : Accumulator P) :
  well_formed (paramInit P cl_cfg accu) = true.
Proof. reflexivity. Qed.

(** From a well-formed state no callback dereferences a null map, and the
    state it leaves is well formed. *)
Lemma step_well_formed app i :
  well_formed app = true ->
  exists app' out, step app i = Some (app', out) /\ well_formed app' = true.
Proof.
  unfold well_formed. intros Hwf.
  destruct i as [msg now|scan|pose|path now]; cbn [step].
  - exists (fst (robotPoseCallBack app msg now)),
           (snd (robotPoseCallBack app msg now)).
    split; [now rewrite <- surjective_pairing|].
    destruct (robotPoseCallBack_frame app msg now)
      as (Hcfg & Hmk & Hm & Hpr & _).
    rewrite Hcfg, Hmk, Hm, Hpr.
    destruct (pose_accepted app) eqn:Hacc.
    + destruct (robotPoseCallBack_accepted app msg now Hacc)
        as (_ & _ & _ & _ & ->).
      unfold pose_accepted in Hacc.
      destruct (map_initialized_ app), (is_loaded (prior_map_ app)),
        (pose_marker_initialized_ app), (map_service (cl_cfg_ app));
        cbn in *; congruence.
    + destruct (robotPoseCallBack_rejected app msg now Hacc) as [-> _].
      exact Hwf.
  - exists (fst (velodyneCallBack app scan)), (snd (velodyneCallBack app scan)).
    split; [now rewrite <- surjective_pairing|].
    destruct (velodyneCallBack_frame app scan)
      as (Hcfg & Hi & Hmk & Hm & Hpr & _).
    now rewrite Hcfg, Hi, Hmk, Hm, Hpr.
  - exists (fst (interactionMarkerCallBack app pose)),
           (snd (interactionMarkerCallBack app pose)).
    split; [now rewrite <- surjective_pairing|].
    destruct (interactionMarkerCallBack_frame app pose)
      as (Hcfg & Hi & Hm & Hpr & Hmk & _).
    rewrite Hcfg, Hi, Hm, Hpr, Hmk.
    destruct (map_initialized_ app), (is_loaded (prior_map_ app)),
      (pose_marker_initialized_ app), (map_service (cl_cfg_ app)),
      (pose_initialized_ app); cbn in *; congruence.
  - destruct (loadMapFromFile app path now) as [[[app1 ok] out1]|] eqn:Hload.
    + exists app1, out1. split; [reflexivity|].
      destruct (loadMapFromFile_frame _ _ _ Hload)
        as (Hcfg & Hi & Hmk & _ & _ & _ & _ & _ & Hno & Hyes & _).
      destruct ok; [|now rewrite (Hno eq_refl)].
      destruct (Hyes eq_refl) as [Hm Hpr].
      rewrite Hcfg, Hi, Hmk, Hm, Hpr.
      destruct (map_initialized_ app), (is_loaded (prior_map_ app)),
        (pose_marker_initialized_ app), (map_service (cl_cfg_ app)),
        (pose_initialized_ app); cbn in *; congruence.
    + exfalso. unfold loadMapFromFile in Hload.
      rewrite <- negb_orb in Hload. fold (map_service (cl_cfg_ app)) in Hload.
      destruct (map_service (cl_cfg_ app)); [|discriminate]. cbn in Hload.
      destruct (pose_initialized_ app).
      * destruct (prior_map_ app); [discriminate|].
        destruct (map_initialized_ app), (pose_marker_initialized_ app);
          cbn in *; congruence.
      * destruct (loadPLYFile path); discriminate.
Qed.

(** No run of callbacks from a well-formed state crashes. *)
Lemma run_well_formed inputs :
  forall app,
    well_formed app = true ->
    exists app' out, run app inputs = Some (app', out)
                     /\ well_formed app' = true.
Proof.
  induction inputs as [|i inputs IH]; intros app Hwf; cbn [run].
  - now exists app, [].
  - destruct (step_well_formed app i Hwf) as (app1 & out1 & -> & Hwf1).
    destruct (IH app1 Hwf1) as (app2 & out2 & -> & Hwf2).
    now exists app2, (out1 ++ out2).
Qed.

(** ** Corrections and the buffer clear *)

(** An accepted raw pose turns a correction flagged by the worker into a
    pending buffer clear. *)
Lemma robotPoseCallBack_acknowledges app msg now :
  pose_accepted app = true ->
  let app' := fst (robotPoseCallBack app msg now) in
  updated_correction_ app' = false
  /\ clear_clouds_buffer_ app'
     = (updated_correction_ app || clear_clouds_buffer_ app).
Proof.
  unfold pose_accepted. intros Hacc. apply negb_true_iff in Hacc.
  unfold robotPoseCallBack. rewrite Hacc. cbn zeta. cbn [fst].
  unfold acknowledge_correction, initialize_pose.
  destruct (pose_initialized_ app); cbn;
    destruct (map_service (cl_cfg_ app)); cbn;
    destruct (updated_correction_ app) eqn:Hupd; cbn; rewrite ?Hupd;
    split; reflexivity.
Qed.

(** With no clear pending, a scan is forwarded first of all. *)
Lemma velodyneCallBack_forwards app scan :
  pose_initialized_ app = true ->
  clear_clouds_buffer_ app = false ->
  exists rest,
    snd (velodyneCallBack app scan) = AccuProcessLidar scan :: rest
    /\ accu_ (fst (accumulate_scan app scan))
       = processLidar (accu_ app) scan.
Proof.
  intros Hinit Hflag. rewrite (velodyneCallBack_tracking _ _ Hinit).
  cbn [snd]. unfold accumulate_scan at 1 3. rewrite Hflag. cbn.
  eexists. split; reflexivity.
Qed.

(** C5.  A raw-pose update that finds [updated_correction_] set leaves a
    buffer clear pending and takes the flag down.  The next scan is then not
    forwarded to the accumulator, whose counter is at zero afterwards (its
    clear resetting the counter), and the pending clear is gone: the scan
    after that one is forwarded. *)
Theorem correction_clears_buffer_once app msg now scan scan' :
  (forall a : Accumulator P, getCounter (clearCloud a) = 0%N) ->
  pose_accepted app = true ->
  updated_correction_ app = true ->
  let app1 := fst (robotPoseCallBack app msg now) in
  let app2 := fst (velodyneCallBack app1 scan) in
  clear_clouds_buffer_ app1 = true
  /\ updated_correction_ app1 = false
  /\ existsb forwards_scan (snd (velodyneCallBack app1 scan)) = false
  /\ (accu_ app2 = accu_ app
      \/ accu_ app2 = clearCloud (accu_ app)
      \/ accu_ app2 = clearCloud (clearCloud (accu_ app)))
  /\ getCounter (accu_ app2) = 0%N
  /\ clear_clouds_buffer_ app2 = false
  /\ (exists rest,
        snd (velodyneCallBack app2 scan') = AccuProcessLidar scan' :: rest).
Proof.
  intros Hreset Hacc Hupd app1 app2.
  destruct (robotPoseCallBack_acknowledges app msg now Hacc) as [Hdown Hset].
  rewrite Hupd in Hset. cbn in Hset. fold app1 in Hdown, Hset.
  destruct (robotPoseCallBack_accepted app msg now Hacc)
    as (_ & _ & _ & _ & Hinit).
  fold app1 in Hinit.
  destruct (robotPoseCallBack_frame app msg now)
    as (_ & _ & _ & _ & _ & _ & Haccu & _).
  fold app1 in Haccu.
  destruct (velodyneCallBack_pending app1 scan Hset Hinit) as [Hclr Hfwd].
  fold app2 in Hclr.
  assert (Hstate :
    (accu_ app2 = accu_ app
     \/ accu_ app2 = clearCloud (accu_ app)
     \/ accu_ app2 = clearCloud (clearCloud (accu_ app)))
    /\ getCounter (accu_ app2) = 0%N).
  { subst app2. rewrite (velodyneCallBack_tracking _ _ Hinit). cbn [fst].
    destruct (dispatch_finished_frame (fst (accumulate_scan app1 scan)))
      as (_ & _ & _ & -> & _).
    destruct (accumulate_scan_pending app1 scan Hset)
      as (_ & _ & _ & Hpos & Hzero).
    rewrite Haccu in Hpos, Hzero.
    destruct (N.ltb_spec 0 (getCounter (accu_ app))) as [Hp|Hz].
    - destruct (Hpos Hp) as [-> _].
      destruct (getFinished (clearCloud (accu_ app)));
        split; auto using Hreset.
    - assert (Hc : getCounter (accu_ app) = 0%N) by lia.
      destruct (Hzero Hc) as [-> _].
      destruct (getFinished (accu_ app)); split; auto using Hreset. }
  destruct Hstate as [Hfrom Hcount].
  repeat (split; [assumption|]).
  assert (Hinit2 : pose_initialized_ app2 = true).
  { subst app2.
    destruct (velodyneCallBack_frame app1 scan) as (_ & -> & _).
    exact Hinit. }
  destruct (velodyneCallBack_forwards app2 scan' Hinit2 Hclr)
    as (rest & Hout & _).
  now exists rest.
Qed.

(** ** The first raw pose in prior-map mode *)

(** C4 (amended).  In prior-map mode the first accepted raw pose sets the
    running correction to the single-precision rounding of
    [seed * raw^-1], through [initialT_], and the corrected pose to that
    correction composed with the raw pose.  This is the seed pose whenever
    the rounding is lossless on the product and the composition is exact on
    these poses: associative on [seed], [raw^-1] and [raw], with
    [raw^-1 * raw] the identity and the identity neutral on the right of
    [seed].  No later callback of the file writes the correction: every
    later corrected pose is this correction composed with the raw pose of
    the moment. *)
Theorem first_pose_fixes_rounded_correction app msg now :
  map_service (cl_cfg_ app) = true ->
  pose_marker_initialized_ app = true ->
  pose_initialized_ app = false ->
  let seed := world_to_body_marker_msg_ app in
  let raw := getPoseAsIsometry3d (pose_pose msg) in
  let derived :=
    fromMatrix4fToIsometry3d (matrix_cast_float (seed ** inverse raw)) in
  let app' := fst (robotPoseCallBack app msg now) in
  total_correction_ app' = derived
  /\ corrected_pose_ app' = derived ** raw
  /\ (derived = seed ** inverse raw ->
      (seed ** inverse raw) ** raw = seed ** (inverse raw ** raw) ->
      inverse raw ** raw = Identity ->
      seed ** Identity = seed ->
      corrected_pose_ app' = seed)
  /\ pose_initialized_ app' = true
  /\ (forall inputs app'' out,
        run app' inputs = Some (app'', out) ->
        total_correction_ app'' = derived
        /\ corrected_pose_ app'' = derived ** world_to_body_ app'')
  /\ (well_formed app = true ->
      forall inputs, exists app'' out, run app' inputs = Some (app'', out)).
Proof.
  intros Hmap Hmarker Hinit seed raw derived app'.
  assert (Hacc : pose_accepted app = true)
    by (unfold pose_accepted; rewrite Hmap, Hmarker; reflexivity).
  destruct (robotPoseCallBack_accepted app msg now Hacc)
    as (Hw & Ht & Hc & _ & Hi).
  rewrite Hinit, Hmap in Ht. cbn [negb andb] in Ht.
  fold seed raw derived app' in Hw, Ht, Hc, Hi.
  rewrite Ht in Hc.
  split; [exact Ht|]. split; [exact Hc|]. split.
  { intros Hlossless Hassoc Hinverse Hneutral.
    rewrite Hc, Hlossless, Hassoc, Hinverse. exact Hneutral. }
  split; [exact Hi|]. split.
  - intros inputs app'' out Hrun.
    destruct (run_tracking _ _ Hi Hrun) as (_ & Ht' & Hc' & _).
    rewrite Ht' in Hc'. rewrite Ht in Ht', Hc'.
    split; [exact Ht'|]. apply Hc'. rewrite Hc, Hw. reflexivity.
  - intros Hwf inputs.
    destruct (step_well_formed app (RobotPose msg now) Hwf)
      as (app1 & out1 & Hstep & Hwf1).
    cbn in Hstep. take_result Hstep.
    destruct (run_well_formed inputs _ Hwf1) as (app2 & out2 & Hrun & _).
    now exists app2, out2.
Qed.

(** ** Map loading *)

(** C6.  Before the first raw pose, with the map service on, two loads of
    readable files both succeed and the second map replaces the first; after
    the first raw pose a load returns failure and changes no member, the
    loaded map included. *)
Theorem map_reload_only_before_tracking app :
  (forall path1 path2 now1 now2 map1 map2,
     map_service (cl_cfg_ app) = true ->
     pose_initialized_ app = false ->
     loadPLYFile path1 = Some map1 ->
     loadPLYFile path2 = Some map2 ->
     exists app1 out1 app2 out2,
       loadMapFromFile app path1 now1 = Some (app1, true, out1)
       /\ prior_map_ app1
          = Some {| getUtime := now1;
                    getCloudPtr :=
                      regionGrowingUniformPlaneSegmentationFilter map1;
                    getWorldToBody := Identity |}
       /\ loadMapFromFile app1 path2 now2 = Some (app2, true, out2)
       /\ prior_map_ app2
          = Some {| getUtime := now2;
                    getCloudPtr :=
                      regionGrowingUniformPlaneSegmentationFilter map2;
                    getWorldToBody := Identity |}
       /\ map_initialized_ app2 = true)
  /\ (forall path now,
        pose_initialized_ app = true ->
        is_loaded (prior_map_ app) = true ->
        exists out, loadMapFromFile app path now = Some (app, false, out)).
Proof.
  split.
  - intros path1 path2 now1 now2 map1 map2 Hmap Hinit Hfile1 Hfile2.
    unfold map_service in Hmap.
    assert (Hguard : negb (load_map_from_file (cl_cfg_ app))
                     && negb (localize_against_prior_map (cl_cfg_ app))
                     = false)
      by (rewrite <- negb_orb, Hmap; reflexivity).
    set (loaded now map :=
           Some {| getUtime := now;
                   getCloudPtr :=
                     regionGrowingUniformPlaneSegmentationFilter map;
                   getWorldToBody := @Identity _ _ (EigenOps P) |}).
    set (app1 := set_map_initialized_ true
                   (set_prior_map_ (loaded now1 map1) app)).
    set (app2 := set_map_initialized_ true
                   (set_prior_map_ (loaded now2 map2) app1)).
    exists app1. eexists. exists app2. eexists.
    unfold loadMapFromFile. cbn [cl_cfg_ pose_initialized_ app1
      set_map_initialized_ set_prior_map_].
    rewrite Hguard, Hinit, Hfile1, Hfile2.
    repeat split; reflexivity.
  - intros path now Hinit Hloaded. unfold loadMapFromFile. rewrite Hinit.
    destruct (prior_map_ app) as [prior|]; [|discriminate].
    destruct (negb (load_map_from_file (cl_cfg_ app))
              && negb (localize_against_prior_map (cl_cfg_ app)));
      eexists; reflexivity.
Qed.

(** ** The lifecycle *)

(** No callback takes the lifecycle back to an earlier stage. *)
Lemma step_lifecycle app i app' out :
  step app i = Some (app', out) ->
  (stage (lifecycle app) <= stage (lifecycle app'))%nat.
Proof.
  intros Hstep. unfold lifecycle.
  destruct i as [msg now|scan|pose|path now]; cbn in Hstep.
  - take_result Hstep.
    destruct (robotPoseCallBack_frame app msg now) as (Hcfg & Hmk & _).
    destruct (pose_accepted app) eqn:Hacc.
    + destruct (robotPoseCallBack_accepted app msg now Hacc)
        as (_ & _ & _ & _ & ->).
      destruct (pose_initialized_ app);
        [|destruct (_ && _)]; cbn; lia.
    + destruct (robotPoseCallBack_rejected app msg now Hacc) as [-> _]. lia.
  - take_result Hstep.
    destruct (velodyneCallBack_frame app scan) as (-> & -> & -> & _). lia.
  - take_result Hstep.
    destruct (interactionMarkerCallBack_frame app pose)
      as (-> & -> & _ & _ & -> & _).
    destruct (pose_initialized_ app), (map_service (cl_cfg_ app)),
      (map_initialized_ app), (pose_marker_initialized_ app); cbn; lia.
  - destruct (loadMapFromFile app path now) as [[[app1 ok] out1]|] eqn:Hload;
      [|discriminate].
    injection Hstep as <- <-.
    destruct (loadMapFromFile_frame _ _ _ Hload) as (-> & -> & -> & _). lia.
Qed.

Lemma run_lifecycle inputs :
  forall app app' out,
    run app inputs = Some (app', out) ->
    (stage (lifecycle app) <= stage (lifecycle app'))%nat.
Proof.
  induction inputs as [|i inputs IH]; intros app app' out Hrun; cbn in Hrun.
  - injection Hrun as <- <-. lia.
  - destruct (step app i) as [[app1 out1]|] eqn:Hstep; [|discriminate].
    destruct (run app1 inputs) as [[app2 out2]|] eqn:Hrest; [|discriminate].
    injection Hrun as <- <-.
    pose proof (step_lifecycle _ _ Hstep). pose proof (IH _ _ _ Hrest). lia.
Qed.

(** While the seed is awaited, a callback either leaves the stage and the
    recorded marker pose as they are, or is the marker callback recording its
    pose and moving on to the first-pose stage. *)
Lemma step_awaiting_seed app i app' out :
  lifecycle app = AwaitingSeed ->
  step app i = Some (app', out) ->
  (takes_seed app i = false
   /\ lifecycle app' = AwaitingSeed
   /\ world_to_body_marker_msg_ app' = world_to_body_marker_msg_ app)
  \/ (takes_seed app i = true
      /\ lifecycle app' = AwaitingFirstPose
      /\ exists pose,
           i = InteractionMarker pose
           /\ world_to_body_marker_msg_ app' = getPoseAsIsometry3d pose).
Proof.
  unfold lifecycle. intros Hstage Hstep.
  destruct (pose_initialized_ app) eqn:Hinit; [discriminate|].
  destruct (map_service (cl_cfg_ app)) eqn:Hmap;
    [|cbn in Hstage; discriminate].
  destruct (pose_marker_initialized_ app) eqn:Hmarker;
    [cbn in Hstage; discriminate|].
  destruct i as [msg now|scan|pose|path now]; cbn in Hstep.
  - take_result Hstep. left.
    assert (Hrej : pose_accepted app = false)
      by (unfold pose_accepted; rewrite Hmap, Hmarker; reflexivity).
    destruct (robotPoseCallBack_rejected app msg now Hrej) as [-> _].
    rewrite Hinit, Hmap, Hmarker. repeat split; reflexivity.
  - take_result Hstep. left.
    destruct (velodyneCallBack_frame app scan)
      as (-> & -> & -> & _ & _ & -> & _).
    rewrite Hinit, Hmap, Hmarker. repeat split; reflexivity.
  - take_result Hstep.
    destruct (interactionMarkerCallBack_frame app pose)
      as (-> & -> & _ & _ & -> & -> & _).
    cbn [takes_seed]. rewrite Hinit, Hmap, Hmarker.
    destruct (map_initialized_ app); cbn.
    + right. split; [reflexivity|]. split; [reflexivity|].
      exists pose. split; reflexivity.
    + left. repeat split; reflexivity.
  - destruct (loadMapFromFile app path now) as [[[app1 ok] out1]|] eqn:Hload;
      [|discriminate].
    injection Hstep as <- <-. left.
    destruct (loadMapFromFile_frame _ _ _ Hload)
      as (-> & -> & -> & -> & _).
    rewrite Hinit, Hmap, Hmarker. repeat split; reflexivity.
Qed.

Lemma awaits_seed_stage app :
  awaits_seed app = false <-> (1 <= stage (lifecycle app))%nat.
Proof.
  unfold awaits_seed. destruct (lifecycle app); cbn; split;
    intros; try reflexivity; try discriminate; lia.
Qed.

(** Past the seed stage no marker pose counts. *)
Lemma seeds_taken_past_seed inputs :
  forall app,
    awaits_seed app = false -> seeds_taken_awaiting app inputs = 0%nat.
Proof.
  induction inputs as [|i inputs IH]; intros app Hpast; [reflexivity|].
  cbn [seeds_taken_awaiting]. rewrite Hpast. cbn [andb].
  destruct (step app i) as [[app1 out1]|] eqn:Hstep; [|reflexivity].
  apply IH. apply awaits_seed_stage. apply awaits_seed_stage in Hpast.
  pose proof (step_lifecycle _ _ Hstep). lia.
Qed.

Lemma seeds_taken_at_most_once inputs :
  forall app, (seeds_taken_awaiting app inputs <= 1)%nat.
Proof.
  induction inputs as [|i inputs IH]; intros app; [cbn; lia|].
  cbn [seeds_taken_awaiting].
  destruct (step app i) as [[app1 out1]|] eqn:Hstep.
  - destruct (awaits_seed app && takes_seed app i) eqn:Htaken.
    + apply andb_true_iff in Htaken as [Hawait Htakes].
      assert (Hstage : lifecycle app = AwaitingSeed)
        by (unfold awaits_seed in Hawait; destruct (lifecycle app);
            [reflexivity|discriminate|discriminate]).
      destruct (step_awaiting_seed _ _ Hstage Hstep)
        as [(Hno & _)|(_ & Hnext & _)]; [congruence|].
      rewrite seeds_taken_past_seed; [lia|].
      unfold awaits_seed. now rewrite Hnext.
    + pose proof (IH app1). lia.
  - destruct (awaits_seed app && takes_seed app i); lia.
Qed.

(** C8.  While the seed is awaited, a marker pose offered over a loaded map
    is recorded as the raw-frame placement and moves the lifecycle on to
    awaiting the first pose; nothing else leaves that stage, and since no run
    of callbacks returns to an earlier stage, at most one marker pose is ever
    taken in it.  Once tracking, a marker pose changes nothing. *)
Theorem marker_seed_taken_once_awaiting app :
  (forall pose,
     lifecycle app = AwaitingSeed ->
     map_initialized_ app = true ->
     let app' := fst (interactionMarkerCallBack app pose) in
     world_to_body_marker_msg_ app' = getPoseAsIsometry3d pose
     /\ lifecycle app' = AwaitingFirstPose)
  /\ (forall i app' out,
        lifecycle app = AwaitingSeed ->
        step app i = Some (app', out) ->
        (lifecycle app' = AwaitingSeed
         /\ world_to_body_marker_msg_ app' = world_to_body_marker_msg_ app)
        \/ (lifecycle app' = AwaitingFirstPose
            /\ exists pose,
                 i = InteractionMarker pose
                 /\ world_to_body_marker_msg_ app'
                    = getPoseAsIsometry3d pose))
  /\ (forall inputs, (seeds_taken_awaiting app inputs <= 1)%nat)
  /\ (forall pose,
        lifecycle app = Tracking ->
        fst (interactionMarkerCallBack app pose) = app
        /\ (map_service (cl_cfg_ app) = true ->
            map_initialized_ app = true ->
            snd (interactionMarkerCallBack app pose)
            = [ROS_WARN
                 "[Aicp] Interactive marker cannot be updated after localization started!"]))
  /\ (forall inputs app'' out,
        run app inputs = Some (app'', out) ->
        (stage (lifecycle app) <= stage (lifecycle app''))%nat
        /\ (lifecycle app = Tracking -> lifecycle app'' = Tracking)).
Proof.
  split; [|split; [|split; [|split]]].
  - intros pose Hstage Hmap app'.
    destruct (step_awaiting_seed app (InteractionMarker pose)
                (app' := app')
                (out := snd (interactionMarkerCallBack app pose))
                Hstage)
      as [(Hno & _)|(_ & Hnext & pose' & Hpose & Hmsg)].
    + cbn [step]. subst app'. now rewrite <- surjective_pairing.
    + exfalso. cbn [takes_seed] in Hno. rewrite Hmap in Hno.
      unfold lifecycle in Hstage.
      destruct (pose_initialized_ app); [discriminate|].
      destruct (map_service (cl_cfg_ app)); cbn in *; discriminate.
    + injection Hpose as <-. split; assumption.
  - intros i app' out Hstage Hstep.
    destruct (step_awaiting_seed _ _ Hstage Hstep)
      as [(_ & Hsame)|(_ & Hnext)]; [left|right]; assumption.
  - intros inputs. apply seeds_taken_at_most_once.
  - intros pose Hstage. unfold lifecycle in Hstage.
    destruct (pose_initialized_ app) eqn:Hinit;
      [|destruct (_ && _); discriminate].
    split.
    + destruct (interactionMarkerCallBack_frame app pose)
        as (_ & _ & _ & _ & _ & _ & _ & _ & _ & _ & Hsame & _).
      apply Hsame. rewrite Hinit. apply andb_false_r.
    + intros Hmap Hloaded. unfold interactionMarkerCallBack.
      rewrite <- negb_orb. fold (map_service (cl_cfg_ app)).
      rewrite Hmap, Hloaded, Hinit. reflexivity.
  - intros inputs app'' out Hrun.
    pose proof (run_lifecycle _ _ Hrun) as Hle. split; [exact Hle|].
    intros Htrack. rewrite Htrack in Hle.
    destruct (lifecycle app''); cbn in Hle; try lia. reflexivity.
Qed.

End Properties.

(** * The callbacks on the sample runs *)

(** Two transforms with different entries are different. *)
Ltac differ :=
  let H := fresh in
  intro H;
  match type of H with
  | ?a = ?b => apply (f_equal (Sample.same_entries b)) in H
  end;
  vm_compute in H; discriminate H.

(** The angular threshold is ten degrees in radians. *)
Example angle_threshold_value :
  angle_threshold = 0x1.657184ae74487p-3%float.
Proof. reflexivity. Qed.

(** Single precision keeps 24 bits: 2^24 + 1 rounds to 2^24, 0.1 to the
    float nearest to it, and what a float holds is kept. *)
Example to_float_rounds :
  Binary64.to_float 16777217 = 16777216%float
  /\ Binary64.to_float 0.1 = 0x1.99999ap-4%float
  /\ Binary64.to_float 1.5 = 1.5%float.
Proof. repeat split; reflexivity. Qed.

(** The two examples of the specification: a batch finished 0.1 away from
    the previous accepted pose is not enqueued, one 1.5 away is. *)
Example batch_after_short_motion_is_dropped :
  cloud_queue_ (fst (velodyneCallBack (Sample.moved_to 0.1) (Sample.scan 2)))
  = [].
Proof. reflexivity. Qed.

Example batch_after_long_motion_is_enqueued :
  List.map (@getUtime binary64)
    (cloud_queue_
       (fst (velodyneCallBack (Sample.moved_to 1.5) (Sample.scan 2))))
  = [2%Z].
Proof. reflexivity. Qed.

(** C1 on a tracking state: the raw pose moves to 1.5 along the first axis. *)
Lemma corrected_pose_is_correction_after_raw_witness :
  pose_accepted Sample.one_scan_in = true
  /\ (let app' :=
        fst (robotPoseCallBack Sample.one_scan_in (Sample.pose_msg 2 1.5 0 0) 2)
      in
      world_to_body_ app'
      = getPoseAsIsometry3d (pose_pose (Sample.pose_msg 2 1.5 0 0))
      /\ corrected_pose_ app' = total_correction_ app' ** world_to_body_ app').
Proof.
  split; [reflexivity|].
  pose proof (@corrected_pose_is_correction_after_raw binary64
                Sample.one_scan_in (Sample.pose_msg 2 1.5 0 0) 2 eq_refl)
    as (Hraw & Hcorr & _).
  split; [exact Hraw | exact Hcorr].
Defined.

(** C2 on the batch that finishes 1.5 away from the first pose. *)
Lemma finished_batch_enqueued_iff_moved_witness :
  pose_initialized_ (Sample.moved_to 1.5) = true
  /\ getFinished
       (accu_ (fst (accumulate_scan (Sample.moved_to 1.5) (Sample.scan 2))))
     = true
  /\ (exists front,
        cloud_queue_
          (fst (velodyneCallBack (Sample.moved_to 1.5) (Sample.scan 2)))
        = front
          ++ [current_cloud
                (fst (accumulate_scan (Sample.moved_to 1.5) (Sample.scan 2)))]).
Proof.
  split; [reflexivity|]. split; [reflexivity|].
  pose proof (@finished_batch_enqueued_iff_moved binary64
                (Sample.moved_to 1.5) (Sample.scan 2) eq_refl eq_refl)
    as (_ & Hmoved & _).
  apply Hmoved. left. reflexivity.
Defined.

(** C3 on 103 pushes onto an empty queue: batches 4 to 103 stay, and three
    drops are reported. *)
Lemma queue_keeps_the_newest_hundred_witness :
  (max_queue_size < List.length (Sample.batches 103))%nat
  /\ fst (push_all [] (Sample.batches 103))
     = skipn 3 (Sample.batches 103)
  /\ reported_drops (snd (push_all [] (Sample.batches 103))) = 3%nat.
Proof.
  assert (Hmany : (max_queue_size < List.length (Sample.batches 103))%nat)
    by (vm_compute; lia).
  split; [exact Hmany|].
  pose proof (@queue_keeps_the_newest_hundred binary64 []
                (Sample.batches 103) Hmany)
    as (_ & Hqueue & _ & _ & Hdrops & _).
  split; [exact Hqueue | exact (Hdrops eq_refl)].
Defined.

(** C4 (amended) with the marker at 2 and the first raw pose at 1: the
    correction is the translation by 1, exact in single precision, the
    composition is exact on these poses, and the corrected pose is the
    seed. *)
Lemma first_pose_fixes_rounded_correction_witness :
  map_service (cl_cfg_ (Sample.seeded_at 2)) = true
  /\ pose_marker_initialized_ (Sample.seeded_at 2) = true
  /\ pose_initialized_ (Sample.seeded_at 2) = false
  /\ (let seed := world_to_body_marker_msg_ (Sample.seeded_at 2) in
      let raw := getPoseAsIsometry3d (pose_pose (Sample.pose_msg 1 1 0 0)) in
      let app' :=
        fst (robotPoseCallBack (Sample.seeded_at 2) (Sample.pose_msg 1 1 0 0) 1)
      in
      fromMatrix4fToIsometry3d (matrix_cast_float (seed ** inverse raw))
      = seed ** inverse raw
      /\ (seed ** inverse raw) ** raw = seed ** (inverse raw ** raw)
      /\ inverse raw ** raw = Identity
      /\ seed ** Identity = seed
      /\ total_correction_ app'
         = Binary64.poseMsgToEigen (Binary64.at_position 1 0 0)
      /\ corrected_pose_ app' = seed).
Proof.
  split; [reflexivity|]. split; [reflexivity|]. split; [reflexivity|].
  pose proof (@first_pose_fixes_rounded_correction binary64
                (Sample.seeded_at 2) (Sample.pose_msg 1 1 0 0) 1
                eq_refl eq_refl eq_refl)
    as (Hderived & _ & Hseed & _).
  do 4 (split; [reflexivity|]). split.
  - rewrite Hderived. reflexivity.
  - exact (Hseed eq_refl eq_refl eq_refl eq_refl).
Defined.

(** Lossless rounding and a raw pose that cancels against its inverse are
    not enough: with the marker at 2^-60 and the first raw pose at 1, the
    product [seed * raw^-1] is already rounded to -1 in double precision,
    the composition is not associative on these poses, and the first
    corrected pose is the origin. *)
Example inexact_composition_misses_the_seed :
  let app := Sample.seeded_at 0x1p-60 in
  let app' := fst (robotPoseCallBack app (Sample.pose_msg 1 1 0 0) 1) in
  let seed := world_to_body_marker_msg_ app in
  let raw := world_to_body_ app' in
  total_correction_ app' = seed ** inverse raw
  /\ inverse raw ** raw = Identity
  /\ seed ** Identity = seed
  /\ (seed ** inverse raw) ** raw <> seed ** (inverse raw ** raw)
  /\ corrected_pose_ app' = Identity
  /\ corrected_pose_ app' <> seed.
Proof.
  repeat split; try reflexivity; differ.
Qed.

(** C4 as stated fails: with the marker at 2^24 + 1 = 16777217, which a
    double holds and a float does not, and the first raw pose at the origin,
    the correction is rounded to 16777216 and the first corrected pose is
    not the seed. *)
Lemma first_corrected_pose_misses_the_seed :
  let app := Sample.seeded_at 16777217 in
  let app' := fst (robotPoseCallBack app (Sample.pose_msg 1 0 0 0) 1) in
  map_service (cl_cfg_ app) = true
  /\ pose_marker_initialized_ app = true
  /\ pose_initialized_ app = false
  /\ world_to_body_marker_msg_ app
     = Binary64.poseMsgToEigen (Binary64.at_position 16777217 0 0)
  /\ total_correction_ app'
     = Binary64.poseMsgToEigen (Binary64.at_position 16777216 0 0)
  /\ total_correction_ app'
     <> world_to_body_marker_msg_ app ** inverse (world_to_body_ app')
  /\ corrected_pose_ app' <> world_to_body_marker_msg_ app.
Proof.
  repeat split; try reflexivity; differ.
Qed.

(** C5 after a correction by the worker, one scan being accumulated: the
    next scan is dropped with the accumulated one, the scan after it is
    forwarded. *)
Lemma correction_clears_buffer_once_witness :
  (forall a : Accumulator binary64, getCounter (clearCloud a) = 0%N)
  /\ pose_accepted (Sample.worker_corrects Sample.one_scan_in) = true
  /\ updated_correction_ (Sample.worker_corrects Sample.one_scan_in) = true
  /\ clear_clouds_buffer_ Sample.clear_pending = true
  /\ snd (velodyneCallBack Sample.clear_pending (Sample.scan 2))
     = [AccuClearCloud]
  /\ getCounter
       (accu_ (fst (velodyneCallBack Sample.clear_pending (Sample.scan 2))))
     = 0%N
  /\ (exists rest,
        snd (velodyneCallBack
               (fst (velodyneCallBack Sample.clear_pending (Sample.scan 2)))
               (Sample.scan 3))
        = AccuProcessLidar (Sample.scan 3) :: rest).
Proof.
  assert (Hreset : forall a : Accumulator binary64,
             getCounter (clearCloud a) = 0%N) by (intros a; reflexivity).
  split; [exact Hreset|]. split; [reflexivity|]. split; [reflexivity|].
  pose proof (@correction_clears_buffer_once binary64
                (Sample.worker_corrects Sample.one_scan_in)
                (Sample.pose_msg 2 0 0 0) 2 (Sample.scan 2) (Sample.scan 3)
                Hreset eq_refl eq_refl)
    as (Hset & _ & _ & _ & Hcount & _ & Hnext).
  split; [exact Hset|]. split; [reflexivity|].
  split; [exact Hcount | exact Hnext].
Defined.

(** C6 on the two maps of the sample disk: before the marker both loads
    succeed and the second map is the one kept; once tracking, the load is
    refused and nothing changes. *)
Lemma map_reload_only_before_tracking_witness :
  (map_service (cl_cfg_ Sample.awaiting_seed) = true
   /\ pose_initialized_ Sample.awaiting_seed = false
   /\ exists app1 out1 app2 out2,
        loadMapFromFile Sample.awaiting_seed "first.ply" 10
        = Some (app1, true, out1)
        /\ loadMapFromFile app1 "second.ply" 20 = Some (app2, true, out2)
        /\ option_map (@getUtime binary64) (prior_map_ app2) = Some 20%Z
        /\ option_map (@getCloudPtr binary64) (prior_map_ app2)
           = option_map regionGrowingUniformPlaneSegmentationFilter
               (loadPLYFile "second.ply"))
  /\ (pose_initialized_ Sample.tracking_over_map = true
      /\ is_loaded (prior_map_ Sample.tracking_over_map) = true
      /\ exists out,
           loadMapFromFile Sample.tracking_over_map "second.ply" 20
           = Some (Sample.tracking_over_map, false, out)).
Proof.
  destruct (@map_reload_only_before_tracking binary64 Sample.awaiting_seed)
    as [Hbefore _].
  destruct (@map_reload_only_before_tracking binary64 Sample.tracking_over_map)
    as [_ Hafter].
  split.
  - split; [reflexivity|]. split; [reflexivity|].
    destruct (Hbefore "first.ply"%string "second.ply"%string 10 20 _ _
                eq_refl eq_refl eq_refl eq_refl)
      as (app1 & out1 & app2 & out2 & Hfirst & _ & Hsecond & Hmap & _).
    exists app1, out1, app2, out2. rewrite Hmap.
    repeat split; try assumption; reflexivity.
  - split; [reflexivity|]. split; [reflexivity|].
    exact (Hafter "second.ply"%string 20 eq_refl eq_refl).
Defined.

(** C7 in prior-map mode before the marker: a scan and a raw pose are both
    dropped with their warning. *)
Lemma early_inputs_are_discarded_witness :
  pose_initialized_ Sample.awaiting_seed = false
  /\ map_service (cl_cfg_ Sample.awaiting_seed) = true
  /\ pose_marker_initialized_ Sample.awaiting_seed = false
  /\ velodyneCallBack Sample.awaiting_seed (Sample.scan 1)
     = (Sample.awaiting_seed,
        [ROS_WARN "[Aicp] Pose not initialized, waiting for pose prior..."])
  /\ robotPoseCallBack Sample.awaiting_seed (Sample.pose_msg 1 0 0 0) 1
     = (Sample.awaiting_seed,
        [ROS_WARN
           "[Aicp] Pose initial guess in map not set, waiting for interactive marker..."]).
Proof.
  destruct (@early_inputs_are_discarded binary64 Sample.awaiting_seed)
    as [Hscan Hpose].
  split; [reflexivity|]. split; [reflexivity|]. split; [reflexivity|].
  split.
  - exact (Hscan eq_refl (Sample.scan 1)).
  - exact (Hpose eq_refl eq_refl (Sample.pose_msg 1 0 0 0) 1).
Defined.

(** C8 on the sample runs: the seed is taken while awaited, and refused
    once tracking. *)
Lemma marker_seed_taken_once_awaiting_witness :
  lifecycle Sample.awaiting_seed = AwaitingSeed
  /\ map_initialized_ Sample.awaiting_seed = true
  /\ (world_to_body_marker_msg_ (Sample.seeded_at 2)
      = Binary64.poseMsgToEigen (Binary64.at_position 2 0 0)
      /\ lifecycle (Sample.seeded_at 2) = AwaitingFirstPose)
  /\ lifecycle Sample.tracking_over_map = Tracking
  /\ fst (interactionMarkerCallBack Sample.tracking_over_map
            (Binary64.at_position 3 0 0))
     = Sample.tracking_over_map.
Proof.
  split; [reflexivity|]. split; [reflexivity|]. split.
  - destruct (@marker_seed_taken_once_awaiting binary64 Sample.awaiting_seed)
      as (Hseed & _).
    exact (Hseed (Binary64.at_position 2 0 0) eq_refl eq_refl).
  - split; [reflexivity|].
    destruct (@marker_seed_taken_once_awaiting binary64
                Sample.tracking_over_map) as (_ & _ & _ & Htracking & _).
    exact (proj1 (Htracking (Binary64.at_position 3 0 0) eq_refl)).
Defined.

(** Between the seed and the first raw pose the marker can still be moved
    (the comment at line 219): a second marker pose replaces the first. *)
Example marker_moved_before_first_pose :
  let app1 := Sample.seeded_at 1 in
  let app2 :=
    fst (interactionMarkerCallBack app1 (Binary64.at_position 2 0 0)) in
  lifecycle app1 = AwaitingFirstPose
  /\ world_to_body_marker_msg_ app1
     = Binary64.poseMsgToEigen (Binary64.at_position 1 0 0)
  /\ world_to_body_marker_msg_ app2
     = Binary64.poseMsgToEigen (Binary64.at_position 2 0 0)
  /\ lifecycle app2 = AwaitingFirstPose.
Proof. repeat split; reflexivity. Qed.

(** A run that returns is the pair of what it leaves. *)
Lemma run_returns (r : option (AppROS binary64 * list (Event binary64))) :
  Sample.returns r = true -> r = Some (Sample.final r, Sample.trace r).
Proof. destruct r as [[app out]|]; [reflexivity|discriminate]. Defined.

(** C9 on batches finishing 0.4 and 0.8 away from the first pose: both are
    rejected and the reference pose stays where the first pose put it. *)
Lemma reference_pose_advances_only_on_dispatch_witness :
  pose_initialized_ Sample.odometry_tracking = true
  /\ existsb announces_dispatch
       (Sample.trace (run Sample.odometry_tracking Sample.slow_inputs))
     = false
  /\ world_to_body_previous_
       (Sample.final (run Sample.odometry_tracking Sample.slow_inputs))
     = world_to_body_previous_ Sample.odometry_tracking.
Proof.
  assert (Hquiet :
    existsb announces_dispatch
      (Sample.trace (run Sample.odometry_tracking Sample.slow_inputs))
    = false) by (vm_compute; reflexivity).
  split; [reflexivity|]. split; [exact Hquiet|].
  destruct (@reference_pose_advances_only_on_dispatch binary64
              Sample.odometry_tracking) as (_ & _ & _ & _ & Hrun).
  refine (proj1 (Hrun Sample.slow_inputs _ _ eq_refl
                   (run_returns _ _) Hquiet)).
  vm_compute. reflexivity.
Defined.

(** The third batch, 1.2 away from the first pose, is then measured from
    the first pose and dispatched. *)
Example slow_motion_adds_up_to_a_dispatch :
  let slow := Sample.final (run Sample.odometry_tracking Sample.slow_inputs) in
  let last := Sample.final (run slow Sample.third_batch) in
  List.length (cloud_queue_ slow) = 0%nat
  /\ List.map (@getUtime binary64) (cloud_queue_ last) = [6%Z]
  /\ Sample.same_entries (world_to_body_previous_ last)
       (Binary64.poseMsgToEigen (Binary64.at_position 1.2 0 0))
     = true.
Proof. repeat split; vm_compute; reflexivity. Qed.

(** C10 with a clear pending over an empty accumulator, and over one
    holding a scan. *)
Lemma pending_clear_discards_one_scan_witness :
  clear_clouds_buffer_ Sample.clear_pending_empty = true
  /\ getCounter (accu_ Sample.clear_pending_empty) = 0%N
  /\ (accu_ (fst (accumulate_scan Sample.clear_pending_empty (Sample.scan 2)))
      = accu_ Sample.clear_pending_empty
      /\ snd (accumulate_scan Sample.clear_pending_empty (Sample.scan 2)) = [])
  /\ clear_clouds_buffer_ Sample.clear_pending = true
  /\ (accu_ (fst (accumulate_scan Sample.clear_pending (Sample.scan 2)))
      = clearCloud (accu_ Sample.clear_pending)
      /\ snd (accumulate_scan Sample.clear_pending (Sample.scan 2))
         = [AccuClearCloud]).
Proof.
  split; [reflexivity|]. split; [reflexivity|].
  pose proof (@pending_clear_discards_one_scan binary64
                Sample.clear_pending_empty (Sample.scan 2) eq_refl)
    as (_ & _ & _ & _ & Hzero & _).
  split; [exact (Hzero eq_refl)|]. split; [reflexivity|].
  pose proof (@pending_clear_discards_one_scan binary64
                Sample.clear_pending (Sample.scan 2) eq_refl)
    as (_ & _ & _ & Hpos & _).
  exact (Hpos eq_refl).
Defined.

(** * Further properties of the callbacks *)

Section Coverage.

Variable P : Platform.

Implicit Types (app : AppROS P) (q clouds : list (AlignedCloud P)).
Implicit Types (out : list (Event P)) (scan : Scan P).
Implicit Types (i : Input P) (inputs : list (Input P)).

(** From [Some c = Some (x, y)], name [x] and [y] as the components of [c]. *)
Ltac take_result H :=
  injection H as H;
  let Hfst := fresh in
  let Hsnd := fresh in
  pose proof (f_equal fst H) as Hfst;
  pose proof (f_equal snd H) as Hsnd;
  cbn [fst snd] in Hfst, Hsnd;
  subst; clear H.

(** ** Traces *)

Lemma count_events_app (f : Event P -> bool) out out' :
  count_events f (out ++ out')
  = (count_events f out + count_events f out')%nat.
Proof. unfold count_events. now rewrite filter_app, length_app. Qed.

(** Everything a scan callback prints and calls while tracking, in order. *)
Lemma velodyneCallBack_trace app scan :
  pose_initialized_ app = true ->
  let app1 := fst (accumulate_scan app scan) in
  snd (velodyneCallBack app scan)
  = (if clear_clouds_buffer_ app
     then if (0 <? getCounter (accu_ app))%N then [AccuClearCloud] else []
     else [AccuProcessLidar scan])
    ++ (if getFinished (accu_ app1)
        then (if moved_enough (relative_motion app)
              then [CoutFinishedCollecting (getFinishedTime (accu_ app1));
                    CoutProcessingCloud (points_size (getCloud (accu_ app1)))]
                   ++ snd (queue_push (cloud_queue_ app) (current_cloud app1))
              else [])
             ++ [AccuClearCloud; NotifyWorker]
        else []).
Proof.
  intros Hinit app1.
  rewrite (velodyneCallBack_tracking _ _ Hinit). cbn [snd]. f_equal.
  - unfold accumulate_scan.
    destruct (clear_clouds_buffer_ app); cbn;
      [destruct (N.ltb 0 (getCounter (accu_ app)))|]; reflexivity.
  - fold app1. unfold dispatch_finished.
    destruct (getFinished (accu_ app1)); [|reflexivity].
    unfold app1 at 1. rewrite relative_motion_after_intake. fold app1.
    destruct (moved_enough (relative_motion app)); [|reflexivity].
    unfold enqueue_cloud. cbn [cloud_queue_ set_world_to_body_previous_].
    destruct (accumulate_scan_frame app scan) as (_ & _ & Hq & _).
    fold app1 in Hq. rewrite Hq.
    destruct (queue_push (cloud_queue_ app) (current_cloud app1))
      as [q dropping].
    reflexivity.
Qed.

(** ** Flags, configuration and what tracking freezes *)

Lemma loadMapFromFile_tracking app path now app' ok out :
  pose_initialized_ app = true ->
  loadMapFromFile app path now = Some (app', ok, out) ->
  app' = app /\ ok = false.
Proof.
  intros Hinit. unfold loadMapFromFile. rewrite Hinit.
  destruct (_ && _); [intros [= <- <- _]; split; reflexivity|].
  destruct (prior_map_ app); [|discriminate].
  intros [= <- <- _]. split; reflexivity.
Qed.

Lemma robotPoseCallBack_initialT app msg now :
  pose_initialized_ app = true ->
  initialT_ (fst (robotPoseCallBack app msg now)) = initialT_ app.
Proof.
  intros Hinit. unfold robotPoseCallBack, acknowledge_correction.
  destruct (_ && _); [reflexivity|]. rewrite Hinit. cbn.
  destruct (updated_correction_ app); reflexivity.
Qed.

Lemma velodyneCallBack_initialT app scan :
  initialT_ (fst (velodyneCallBack app scan)) = initialT_ app.
Proof.
  destruct (pose_initialized_ app) eqn:Hinit.
  - rewrite (velodyneCallBack_tracking _ _ Hinit). cbn [fst].
    unfold dispatch_finished, enqueue_cloud.
    destruct (getFinished _);
      [destruct (moved_enough _); [destruct (queue_push _ _)|]|];
      cbn; unfold accumulate_scan;
      (destruct (clear_clouds_buffer_ app); cbn;
       [destruct (N.ltb 0 (getCounter (accu_ app)))|]); reflexivity.
  - unfold velodyneCallBack. now rewrite Hinit.
Qed.

(** A callback keeps the configuration, and never takes a lifecycle flag
    down or the map away. *)
Lemma step_flags app i app' out :
  step app i = Some (app', out) ->
  cl_cfg_ app' = cl_cfg_ app
  /\ (pose_initialized_ app = true -> pose_initialized_ app' = true)
  /\ (pose_marker_initialized_ app = true ->
      pose_marker_initialized_ app' = true)
  /\ (map_initialized_ app = true -> map_initialized_ app' = true)
  /\ (is_loaded (prior_map_ app) = true ->
      is_loaded (prior_map_ app') = true).
Proof.
  intros Hstep. destruct i as [msg now|scan|pose|path now]; cbn in Hstep.
  - take_result Hstep.
    destruct (robotPoseCallBack_frame app msg now)
      as (-> & -> & -> & -> & _).
    repeat split; auto. intros Hinit.
    destruct (pose_accepted app) eqn:Hacc.
    + now destruct (robotPoseCallBack_accepted app msg now Hacc)
        as (_ & _ & _ & _ & ->).
    + now destruct (robotPoseCallBack_rejected app msg now Hacc) as [-> _].
  - take_result Hstep.
    destruct (velodyneCallBack_frame app scan)
      as (-> & -> & -> & -> & -> & _).
    repeat split; auto.
  - take_result Hstep.
    destruct (interactionMarkerCallBack_frame app pose)
      as (-> & -> & -> & -> & -> & _).
    repeat split; auto. intros ->. now destruct (_ && _).
  - destruct (loadMapFromFile app path now) as [[[app1 ok] out1]|] eqn:Hload;
      [|discriminate].
    injection Hstep as <- <-.
    destruct (loadMapFromFile_frame _ _ _ Hload)
      as (-> & -> & -> & _ & _ & _ & _ & _ & Hno & Hyes & _).
    destruct ok.
    + destruct (Hyes eq_refl) as [-> ->]. repeat split; auto.
    + rewrite (Hno eq_refl). repeat split; auto.
Qed.

(** X1.  Over any run of callbacks the configuration is never written, and a
    lifecycle flag that is up stays up: a pose, a marker or a map once taken
    is never taken back, and a loaded map is never unloaded. *)
Theorem flags_are_never_reset inputs :
  forall app app' out,
    run app inputs = Some (app', out) ->
    cl_cfg_ app' = cl_cfg_ app
    /\ (pose_initialized_ app = true -> pose_initialized_ app' = true)
    /\ (pose_marker_initialized_ app = true ->
        pose_marker_initialized_ app' = true)
    /\ (map_initialized_ app = true -> map_initialized_ app' = true)
    /\ (is_loaded (prior_map_ app) = true ->
        is_loaded (prior_map_ app') = true).
Proof.
  induction inputs as [|i inputs IH]; intros app app' out Hrun; cbn in Hrun.
  - injection Hrun as <- <-. repeat split; auto.
  - destruct (step app i) as [[app1 out1]|] eqn:Hstep; [|discriminate].
    destruct (run app1 inputs) as [[app2 out2]|] eqn:Hrest; [|discriminate].
    injection Hrun as <- <-.
    destruct (step_flags _ _ Hstep) as (Hc1 & Hi1 & Hk1 & Hm1 & Hl1).
    destruct (IH _ _ _ Hrest) as (Hc2 & Hi2 & Hk2 & Hm2 & Hl2).
    split; [congruence|]. repeat split; auto.
Qed.

(** Once tracking, a callback leaves the marker pose, the initial
    transform and the map as they are. *)
Lemma step_tracking_frozen app i app' out :
  pose_initialized_ app = true ->
  step app i = Some (app', out) ->
  world_to_body_marker_msg_ app' = world_to_body_marker_msg_ app
  /\ pose_marker_initialized_ app' = pose_marker_initialized_ app
  /\ initialT_ app' = initialT_ app
  /\ map_initialized_ app' = map_initialized_ app
  /\ prior_map_ app' = prior_map_ app.
Proof.
  intros Hinit Hstep.
  destruct i as [msg now|scan|pose|path now]; cbn in Hstep.
  - take_result Hstep.
    destruct (robotPoseCallBack_frame app msg now)
      as (_ & -> & -> & -> & -> & _).
    rewrite (robotPoseCallBack_initialT _ _ _ Hinit).
    repeat split; reflexivity.
  - take_result Hstep.
    destruct (velodyneCallBack_frame app scan)
      as (_ & _ & -> & -> & -> & -> & _).
    rewrite velodyneCallBack_initialT. repeat split; reflexivity.
  - take_result Hstep.
    destruct (interactionMarkerCallBack_frame app pose)
      as (_ & _ & _ & _ & _ & _ & _ & _ & _ & _ & Hsame & _).
    rewrite Hsame; [repeat split; reflexivity|].
    rewrite Hinit. apply andb_false_r.
  - destruct (loadMapFromFile app path now) as [[[app1 ok] out1]|] eqn:Hload;
      [|discriminate].
    injection Hstep as <- <-.
    destruct (loadMapFromFile_tracking _ _ _ Hinit Hload) as [-> _].
    repeat split; reflexivity.
Qed.

(** X2.  Once the first raw pose is in, no run of callbacks changes the
    marker pose, the initial transform [initialT_] or the prior map: what
    localization started from stays what it was. *)
Theorem tracking_freezes_marker_and_map inputs :
  forall app app' out,
    pose_initialized_ app = true ->
    run app inputs = Some (app', out) ->
    world_to_body_marker_msg_ app' = world_to_body_marker_msg_ app
    /\ pose_marker_initialized_ app' = pose_marker_initialized_ app
    /\ initialT_ app' = initialT_ app
    /\ map_initialized_ app' = map_initialized_ app
    /\ prior_map_ app' = prior_map_ app.
Proof.
  induction inputs as [|i inputs IH]; intros app app' out Hinit Hrun;
    cbn in Hrun.
  - injection Hrun as <- <-. repeat split; reflexivity.
  - destruct (step app i) as [[app1 out1]|] eqn:Hstep; [|discriminate].
    destruct (run app1 inputs) as [[app2 out2]|] eqn:Hrest; [|discriminate].
    injection Hrun as <- <-.
    destruct (step_tracking_frozen _ _ Hinit Hstep)
      as (Hk1 & Hf1 & Ht1 & Hm1 & Hp1).
    destruct (step_flags _ _ Hstep) as (_ & Hinit1 & _).
    destruct (IH _ _ _ (Hinit1 Hinit) Hrest) as (Hk2 & Hf2 & Ht2 & Hm2 & Hp2).
    repeat split; congruence.
Qed.

(** ** Before the first raw pose *)

(** A callback that leaves the node short of tracking has touched neither
    the accumulator, nor the queue, nor a pose other than the marker's. *)
Lemma step_before_tracking app i app' out :
  step app i = Some (app', out) ->
  pose_initialized_ app' = false ->
  accu_ app' = accu_ app
  /\ cloud_queue_ app' = cloud_queue_ app
  /\ world_to_body_ app' = world_to_body_ app
  /\ world_to_body_previous_ app' = world_to_body_previous_ app
  /\ total_correction_ app' = total_correction_ app
  /\ corrected_pose_ app' = corrected_pose_ app
  /\ existsb forwards_scan out = false
  /\ existsb notifies_worker out = false.
Proof.
  intros Hstep Hshort.
  destruct i as [msg now|scan|pose|path now]; cbn in Hstep.
  - take_result Hstep. revert Hshort. unfold robotPoseCallBack.
    destruct (_ && _); [intros _; repeat split; reflexivity|].
    cbn. discriminate.
  - take_result Hstep.
    destruct (velodyneCallBack_frame app scan) as (_ & Hi & _).
    rewrite Hi in Hshort. unfold velodyneCallBack. rewrite Hshort.
    repeat split; reflexivity.
  - take_result Hstep. unfold interactionMarkerCallBack.
    destruct (_ && _); [repeat split; reflexivity|].
    destruct (negb (map_initialized_ app)); [repeat split; reflexivity|].
    destruct (negb (pose_initialized_ app)); repeat split; reflexivity.
  - revert Hstep. unfold loadMapFromFile.
    destruct (_ && _); [intros [= <- <-]; repeat split; reflexivity|].
    destruct (pose_initialized_ app).
    + destruct (prior_map_ app); [|discriminate].
      intros [= <- <-]. repeat split; reflexivity.
    + destruct (loadPLYFile path); intros [= <- <-];
        repeat split; reflexivity.
Qed.

(** X3.  Until a raw pose has been accepted nothing is accumulated and
    nothing is queued: a run of callbacks that ends short of tracking has
    forwarded no scan, woken no worker, and left the accumulator, the queue,
    the raw poses and the correction as they were. *)
Theorem nothing_is_accumulated_before_tracking inputs :
  forall app app' out,
    run app inputs = Some (app', out) ->
    pose_initialized_ app' = false ->
    accu_ app' = accu_ app
    /\ cloud_queue_ app' = cloud_queue_ app
    /\ world_to_body_ app' = world_to_body_ app
    /\ world_to_body_previous_ app' = world_to_body_previous_ app
    /\ total_correction_ app' = total_correction_ app
    /\ corrected_pose_ app' = corrected_pose_ app
    /\ existsb forwards_scan out = false
    /\ existsb notifies_worker out = false.
Proof.
  induction inputs as [|i inputs IH]; intros app app' out Hrun Hshort;
    cbn in Hrun.
  - injection Hrun as <- <-. repeat split; reflexivity.
  - destruct (step app i) as [[app1 out1]|] eqn:Hstep; [|discriminate].
    destruct (run app1 inputs) as [[app2 out2]|] eqn:Hrest; [|discriminate].
    injection Hrun as <- <-.
    assert (Hshort1 : pose_initialized_ app1 = false).
    { destruct (pose_initialized_ app1) eqn:Hinit1; [|reflexivity].
      destruct (run_tracking _ _ Hinit1 Hrest) as (Hinit2 & _). congruence. }
    destruct (step_before_tracking _ _ Hstep Hshort1)
      as (Ha1 & Hq1 & Hw1 & Hp1 & Ht1 & Hc1 & Hf1 & Hn1).
    destruct (IH _ _ _ Hrest Hshort)
      as (Ha2 & Hq2 & Hw2 & Hp2 & Ht2 & Hc2 & Hf2 & Hn2).
    rewrite !existsb_app, Hf1, Hf2, Hn1, Hn2.
    repeat split; congruence.
Qed.

(** With the map service on and no map loaded, a callback other than a
    load of a readable file changes nothing and only logs. *)
Lemma step_without_map app i :
  map_service (cl_cfg_ app) = true ->
  map_initialized_ app = false ->
  pose_marker_initialized_ app = false ->
  pose_initialized_ app = false ->
  loads_nothing i = true ->
  exists out, step app i = Some (app, out) /\ forallb is_log out = true.
Proof.
  intros Hmap Hnomap Hmarker Hinit Hload.
  assert (Hguard : negb (load_map_from_file (cl_cfg_ app))
                   && negb (localize_against_prior_map (cl_cfg_ app))
                   = false)
    by (rewrite <- negb_orb; unfold map_service in Hmap; now rewrite Hmap).
  destruct i as [msg now|scan|pose|path now]; cbn [step].
  - unfold robotPoseCallBack. rewrite Hmap, Hmarker.
    eexists. split; reflexivity.
  - unfold velodyneCallBack. rewrite Hinit. eexists. split; reflexivity.
  - unfold interactionMarkerCallBack. rewrite Hguard, Hnomap.
    eexists. split; reflexivity.
  - unfold loadMapFromFile. rewrite Hguard, Hinit.
    cbn in Hload. unfold is_readable in Hload.
    destruct (loadPLYFile path); [discriminate|].
    eexists. split; reflexivity.
Qed.

(** X4.  In prior-map mode a node without a map stays where it is: as long
    as no readable map file is offered, every raw pose, scan, marker and
    failed load is answered with log lines only and no member changes. *)
Theorem node_is_gated_without_a_map inputs :
  forall app,
    map_service (cl_cfg_ app) = true ->
    map_initialized_ app = false ->
    pose_marker_initialized_ app = false ->
    pose_initialized_ app = false ->
    forallb loads_nothing inputs = true ->
    exists out, run app inputs = Some (app, out) /\ forallb is_log out = true.
Proof.
  induction inputs as [|i inputs IH];
    intros app Hmap Hnomap Hmarker Hinit Hloads; cbn [run].
  - now exists [].
  - cbn in Hloads. apply andb_true_iff in Hloads as [Hload Hrest].
    destruct (@step_without_map app i Hmap Hnomap Hmarker Hinit Hload)
      as (out1 & -> & Hlog1).
    destruct (IH app Hmap Hnomap Hmarker Hinit Hrest) as (out2 & -> & Hlog2).
    exists (out1 ++ out2). split; [reflexivity|].
    rewrite forallb_app, Hlog1, Hlog2. reflexivity.
Qed.

(** ** Without the map service *)

Lemma step_without_map_service app i :
  map_service (cl_cfg_ app) = false ->
  exists app' out,
    step app i = Some (app', out)
    /\ total_correction_ app' = total_correction_ app
    /\ initialT_ app' = initialT_ app
    /\ world_to_body_marker_msg_ app' = world_to_body_marker_msg_ app
    /\ pose_marker_initialized_ app' = pose_marker_initialized_ app
    /\ map_initialized_ app' = map_initialized_ app
    /\ prior_map_ app' = prior_map_ app
    /\ cl_cfg_ app' = cl_cfg_ app.
Proof.
  intros Hoff.
  assert (Hguard : negb (load_map_from_file (cl_cfg_ app))
                   && negb (localize_against_prior_map (cl_cfg_ app))
                   = true)
    by (rewrite <- negb_orb; unfold map_service in Hoff; now rewrite Hoff).
  destruct i as [msg now|scan|pose|path now]; cbn [step].
  - do 2 eexists. split; [now rewrite <- surjective_pairing|].
    assert (Hacc : pose_accepted app = true)
      by (unfold pose_accepted; now rewrite Hoff).
    destruct (robotPoseCallBack_accepted app msg now Hacc)
      as (_ & Ht & _).
    rewrite Hoff, andb_false_r in Ht.
    destruct (robotPoseCallBack_frame app msg now)
      as (-> & -> & -> & -> & -> & _).
    rewrite Ht. split; [reflexivity|]. split; [|repeat split; reflexivity].
    unfold robotPoseCallBack. rewrite Hoff. cbn [andb fst].
    unfold acknowledge_correction, initialize_pose.
    destruct (pose_initialized_ app); cbn [negb];
      cbn [cl_cfg_ set_world_to_body_previous_ set_world_to_body_
           set_world_to_body_msg_]; rewrite ?Hoff;
      match goal with
      | |- context [updated_correction_ ?a] =>
          destruct (updated_correction_ a)
      end; reflexivity.
  - do 2 eexists. split; [now rewrite <- surjective_pairing|].
    destruct (velodyneCallBack_frame app scan)
      as (-> & _ & -> & -> & -> & -> & _ & -> & _).
    rewrite velodyneCallBack_initialT. repeat split; reflexivity.
  - do 2 eexists. split; [now rewrite <- surjective_pairing|].
    unfold interactionMarkerCallBack. rewrite Hguard.
    repeat split; reflexivity.
  - unfold loadMapFromFile. rewrite Hguard.
    do 2 eexists. repeat split; reflexivity.
Qed.

(** X5.  With the map service off the callbacks never crash and never write
    the running correction, the initial transform, the marker or the map:
    the correction applied to the raw poses is the one the node started with
    until the worker replaces it, and marker and map requests are ignored. *)
Theorem odometry_mode_keeps_the_correction inputs :
  forall app,
    map_service (cl_cfg_ app) = false ->
    exists app' out,
      run app inputs = Some (app', out)
      /\ total_correction_ app' = total_correction_ app
      /\ initialT_ app' = initialT_ app
      /\ world_to_body_marker_msg_ app' = world_to_body_marker_msg_ app
      /\ pose_marker_initialized_ app' = pose_marker_initialized_ app
      /\ map_initialized_ app' = map_initialized_ app
      /\ prior_map_ app' = prior_map_ app.
Proof.
  induction inputs as [|i inputs IH]; intros app Hoff; cbn [run].
  - exists app, []. repeat split; reflexivity.
  - destruct (@step_without_map_service app i Hoff)
      as (app1 & out1 & -> & Ht1 & Hi1 & Hk1 & Hf1 & Hm1 & Hp1 & Hcfg).
    rewrite <- Hcfg in Hoff.
    destruct (IH app1 Hoff)
      as (app2 & out2 & -> & Ht2 & Hi2 & Hk2 & Hf2 & Hm2 & Hp2).
    exists app2, (out1 ++ out2). repeat split; congruence.
Qed.

(** ** The queue over runs *)

Lemma count_events_none (f : Event P -> bool) out :
  existsb f out = false -> count_events f out = 0%nat.
Proof.
  unfold count_events. induction out as [|e out IH]; [reflexivity|].
  cbn. destruct (f e); [discriminate|]. exact IH.
Qed.

Lemma queue_push_announces q (c : AlignedCloud P) :
  count_events announces_dispatch (snd (queue_push q c)) = 0%nat.
Proof.
  unfold queue_push. cbn [snd].
  destruct (max_queue_size <? List.length (q ++ [c]))%nat; reflexivity.
Qed.

(** A callback leaves the queue alone and announces nothing, or pushes one
    batch, trims, and announces it once. *)
Lemma step_queue app i app' out :
  step app i = Some (app', out) ->
  (cloud_queue_ app' = cloud_queue_ app
   /\ count_events announces_dispatch out = 0%nat)
  \/ (exists c,
        cloud_queue_ app' = most_recent (cloud_queue_ app ++ [c])
        /\ count_events announces_dispatch out = 1%nat).
Proof.
  intros Hstep. destruct i as [msg now|scan|pose|path now]; cbn in Hstep.
  - take_result Hstep. left.
    destruct (robotPoseCallBack_frame app msg now)
      as (_ & _ & _ & _ & _ & Hq & _ & Hann).
    split; [exact Hq | now apply count_events_none].
  - take_result Hstep.
    destruct (velodyneCallBack_dispatch app scan) as (_ & Hq & Hann).
    destruct (dispatches app scan) eqn:Hdisp.
    + right. eexists. split; [exact Hq|].
      unfold dispatches in Hdisp.
      apply andb_true_iff in Hdisp as [Hdisp Hmoved].
      apply andb_true_iff in Hdisp as [Hinit Hfin].
      rewrite (velodyneCallBack_trace _ _ Hinit), Hfin, Hmoved.
      rewrite !count_events_app, queue_push_announces.
      destruct (clear_clouds_buffer_ app);
        [destruct (N.ltb 0 (getCounter (accu_ app)))|]; reflexivity.
    + left. split; [exact Hq | now apply count_events_none].
  - take_result Hstep. left.
    destruct (interactionMarkerCallBack_frame app pose)
      as (_ & _ & _ & _ & _ & _ & _ & _ & _ & _ & _ & Hann).
    split; [|now apply count_events_none].
    unfold interactionMarkerCallBack.
    destruct (_ && _); [reflexivity|].
    destruct (negb (map_initialized_ app)); [reflexivity|].
    destruct (negb (pose_initialized_ app)); reflexivity.
  - destruct (loadMapFromFile app path now) as [[[app1 ok] out1]|] eqn:Hload;
      [|discriminate].
    injection Hstep as <- <-. left.
    destruct (loadMapFromFile_frame _ _ _ Hload)
      as (_ & _ & _ & _ & _ & _ & _ & _ & Hno & _ & Hann).
    split; [|now apply count_events_none].
    destruct ok; [|now rewrite (Hno eq_refl)].
    revert Hload. unfold loadMapFromFile.
    destruct (_ && _); [discriminate|].
    destruct (pose_initialized_ app);
      [destruct (prior_map_ app); discriminate|].
    destruct (loadPLYFile path); [|discriminate].
    intros [= <- _]. reflexivity.
Qed.

Lemma announced_times_app out out' :
  announced_times (out ++ out') = announced_times out ++ announced_times out'.
Proof. unfold announced_times. apply flat_map_app. Qed.

Lemma announced_times_none out :
  existsb announces_dispatch out = false -> announced_times out = [].
Proof.
  induction out as [|e out IH]; [reflexivity|].
  cbn [existsb]. intros Hnone. apply orb_false_iff in Hnone as [He Hrest].
  unfold announced_times in *. cbn [flat_map]. rewrite (IH Hrest).
  destruct e; try reflexivity. discriminate He.
Qed.

(** What a callback does to the queue and announces, in terms of the batch
    it pushes. *)
Lemma step_pushes_its_batch app i app' out :
  step app i = Some (app', out) ->
  cloud_queue_ app'
  = match batch_pushed app i with
    | [] => cloud_queue_ app
    | pushed => most_recent (cloud_queue_ app ++ pushed)
    end
  /\ announced_times out = List.map (@getUtime P) (batch_pushed app i)
  /\ count_events announces_dispatch out = List.length (batch_pushed app i).
Proof.
  intros Hstep.
  destruct (step_queue _ _ Hstep) as [[Hsame Hzero]|(c & Hpush & Hone)].
  - destruct i as [msg now|scan|pose|path now]; cbn [batch_pushed];
      try (split; [exact Hsame|]; split; [|exact Hzero]).
    + cbn in Hstep. take_result Hstep. apply announced_times_none.
      now destruct (robotPoseCallBack_frame app msg now)
        as (_ & _ & _ & _ & _ & _ & _ & Hann).
    + cbn in Hstep. take_result Hstep.
      destruct (velodyneCallBack_dispatch app scan) as (_ & _ & Hann).
      destruct (dispatches app scan) eqn:Hdisp.
      * exfalso. unfold dispatches in Hdisp.
        apply andb_true_iff in Hdisp as [Hdisp Hmoved].
        apply andb_true_iff in Hdisp as [Hinit Hfin].
        revert Hzero.
        rewrite (velodyneCallBack_trace _ _ Hinit), Hfin, Hmoved.
        rewrite !count_events_app, queue_push_announces.
        destruct (clear_clouds_buffer_ app);
          [destruct (N.ltb 0 (getCounter (accu_ app)))|]; discriminate.
      * split; [exact Hsame|]. split; [|exact Hzero].
        now apply announced_times_none.
    + cbn in Hstep. take_result Hstep. apply announced_times_none.
      now destruct (interactionMarkerCallBack_frame app pose)
        as (_ & _ & _ & _ & _ & _ & _ & _ & _ & _ & _ & Hann).
    + cbn in Hstep.
      destruct (loadMapFromFile app path now)
        as [[[app1 ok] out1]|] eqn:Hload; [|discriminate].
      injection Hstep as <- <-. apply announced_times_none.
      now destruct (loadMapFromFile_frame _ _ _ Hload)
        as (_ & _ & _ & _ & _ & _ & _ & _ & _ & _ & Hann).
  - destruct i as [msg now|scan|pose|path now]; cbn in Hstep.
    + take_result Hstep. exfalso.
      destruct (robotPoseCallBack_frame app msg now)
        as (_ & _ & _ & _ & _ & _ & _ & Hann).
      rewrite (count_events_none _ _ Hann) in Hone. discriminate.
    + take_result Hstep. cbn [batch_pushed].
      destruct (velodyneCallBack_dispatch app scan) as (_ & Hq & Hann).
      destruct (dispatches app scan) eqn:Hdisp.
      * split; [exact Hq|]. split; [|exact Hone].
        unfold dispatches in Hdisp.
        apply andb_true_iff in Hdisp as [Hdisp Hmoved].
        apply andb_true_iff in Hdisp as [Hinit Hfin].
        rewrite (velodyneCallBack_trace _ _ Hinit), Hfin, Hmoved.
        rewrite !announced_times_app.
        replace (announced_times
                   (snd (queue_push (cloud_queue_ app)
                           (current_cloud (fst (accumulate_scan app scan))))))
          with (@nil Z)
          by (unfold queue_push; cbn [snd];
              destruct (max_queue_size <? _)%nat; reflexivity).
        destruct (clear_clouds_buffer_ app);
          [destruct (N.ltb 0 (getCounter (accu_ app)))|]; reflexivity.
      * exfalso. rewrite (count_events_none _ _ Hann) in Hone. discriminate.
    + take_result Hstep. exfalso.
      destruct (interactionMarkerCallBack_frame app pose)
        as (_ & _ & _ & _ & _ & _ & _ & _ & _ & _ & _ & Hann).
      rewrite (count_events_none _ _ Hann) in Hone. discriminate.
    + destruct (loadMapFromFile app path now)
        as [[[app1 ok] out1]|] eqn:Hload; [|discriminate].
      injection Hstep as <- <-. exfalso.
      destruct (loadMapFromFile_frame _ _ _ Hload)
        as (_ & _ & _ & _ & _ & _ & _ & _ & _ & _ & Hann).
      rewrite (count_events_none _ _ Hann) in Hone. discriminate.
Qed.

(** X6.  The queue never holds more than 100 batches: a run of callbacks
    that starts within the bound ends within it. *)
Theorem queue_never_exceeds_its_bound inputs :
  forall app app' out,
    (List.length (cloud_queue_ app) <= max_queue_size)%nat ->
    run app inputs = Some (app', out) ->
    (List.length (cloud_queue_ app') <= max_queue_size)%nat.
Proof.
  induction inputs as [|i inputs IH]; intros app app' out Hbound Hrun;
    cbn in Hrun.
  - now injection Hrun as <- <-.
  - destruct (step app i) as [[app1 out1]|] eqn:Hstep; [|discriminate].
    destruct (run app1 inputs) as [[app2 out2]|] eqn:Hrest; [|discriminate].
    injection Hrun as <- <-.
    apply (IH app1 app2 out2); [|exact Hrest].
    destruct (step_queue _ _ Hstep) as [[-> _]|(c & -> & _)];
      [exact Hbound|].
    rewrite most_recent_length. lia.
Qed.

(** The queue after a run, front entries apart: what it held, then the
    batches the run dispatched. *)
Lemma run_queue_suffix inputs :
  forall app app' out,
    run app inputs = Some (app', out) ->
    exists dropped,
      cloud_queue_ app'
      = skipn dropped (cloud_queue_ app ++ dispatched_batches app inputs)
      /\ (dropped
          <= List.length (cloud_queue_ app ++ dispatched_batches app inputs))%nat.
Proof.
  induction inputs as [|i inputs IH]; intros app app' out Hrun; cbn in Hrun.
  - injection Hrun as <- <-. exists 0%nat. cbn [dispatched_batches].
    rewrite app_nil_r. split; [reflexivity | lia].
  - cbn [dispatched_batches].
    destruct (step app i) as [[app1 out1]|] eqn:Hstep; [|discriminate].
    destruct (run app1 inputs) as [[app2 out2]|] eqn:Hrest; [|discriminate].
    injection Hrun as <- <-.
    destruct (IH _ _ _ Hrest) as (dropped & Hq2 & Hle2).
    destruct (step_pushes_its_batch _ _ Hstep) as (Hq1 & _ & Hlen).
    pose proof (step_queue _ _ Hstep) as Hcases.
    destruct (batch_pushed app i) as [|c [|c' more]] eqn:Hbatch.
    + exists dropped. rewrite Hq1 in Hq2, Hle2. split; assumption.
    + set (pushed := dispatched_batches app1 inputs) in *.
      set (k := (List.length (cloud_queue_ app ++ [c]) - max_queue_size)%nat).
      assert (Hk : (k <= List.length (cloud_queue_ app ++ [c]))%nat)
        by (subst k; lia).
      assert (Hglue :
        most_recent (cloud_queue_ app ++ [c]) ++ pushed
        = skipn k (cloud_queue_ app ++ [c] ++ pushed)).
      { unfold most_recent. fold k. rewrite app_assoc.
        rewrite (skipn_app k (cloud_queue_ app ++ [c]) pushed).
        replace (k - List.length (cloud_queue_ app ++ [c]))%nat
          with 0%nat by lia.
        now rewrite skipn_0. }
      exists (dropped + k)%nat.
      rewrite Hq1, Hglue in Hq2, Hle2. rewrite skipn_skipn in Hq2.
      rewrite length_skipn in Hle2.
      split; [exact Hq2|].
      revert Hle2 Hk. rewrite !length_app. cbn [List.length]. lia.
    + exfalso. cbn [List.length] in Hlen.
      destruct Hcases as [[_ Hzero]|(c0 & _ & Hone)]; lia.
Qed.

(** X7.  The callbacks only append to the back of the queue and drop from
    its front.  After any run the queue is a suffix of what it held followed
    by the batches the run dispatched, each the cloud, time and raw pose of
    the scan that completed it, in that order; from a queue within the bound
    it is exactly the newest 100 of them.  The "Finished collecting" lines
    of the trace print the times of these batches, one line a batch. *)
Theorem queue_is_a_suffix_of_what_was_pushed inputs :
  forall app app' out,
    run app inputs = Some (app', out) ->
    let pushed := dispatched_batches app inputs in
    (exists dropped,
       cloud_queue_ app' = skipn dropped (cloud_queue_ app ++ pushed)
       /\ (dropped <= List.length (cloud_queue_ app ++ pushed))%nat)
    /\ ((List.length (cloud_queue_ app) <= max_queue_size)%nat ->
        cloud_queue_ app' = most_recent (cloud_queue_ app ++ pushed))
    /\ announced_times out = List.map (@getUtime P) pushed
    /\ List.length pushed = count_events announces_dispatch out.
Proof.
  intros app app' out Hrun pushed. subst pushed.
  split; [exact (run_queue_suffix _ _ Hrun)|].
  revert app app' out Hrun.
  induction inputs as [|i inputs IH]; intros app app' out Hrun; cbn in Hrun.
  - injection Hrun as <- <-. cbn [dispatched_batches]. rewrite app_nil_r.
    split; [|split; reflexivity].
    intros Hbound. symmetry. now apply most_recent_short.
  - cbn [dispatched_batches].
    destruct (step app i) as [[app1 out1]|] eqn:Hstep; [|discriminate].
    destruct (run app1 inputs) as [[app2 out2]|] eqn:Hrest; [|discriminate].
    injection Hrun as <- <-.
    destruct (IH _ _ _ Hrest) as (Hexact & Htimes & Hcount).
    destruct (step_pushes_its_batch _ _ Hstep) as (Hq1 & Htimes1 & Hcount1).
    split; [|split].
    + intros Hbound.
      assert (Hbound1 : (List.length (cloud_queue_ app1) <= max_queue_size)%nat).
      { rewrite Hq1. destruct (batch_pushed app i); [exact Hbound|].
        rewrite most_recent_length. lia. }
      rewrite (Hexact Hbound1), Hq1.
      destruct (batch_pushed app i) as [|c more]; [reflexivity|].
      now rewrite most_recent_app, <- app_assoc.
    + rewrite announced_times_app, Htimes1, Htimes, map_app. reflexivity.
    + rewrite count_events_app, Hcount1, <- Hcount, length_app. reflexivity.
Qed.

(** ** A finished batch *)

(** X8.  Whatever the motion test says, a scan that completes a batch ends
    with the accumulator cleared and the worker woken exactly once; a scan
    that completes none wakes no one and leaves the accumulator as the
    intake step left it. *)
Theorem finished_batch_clears_and_notifies app scan :
  pose_initialized_ app = true ->
  let accu1 := accu_ (fst (accumulate_scan app scan)) in
  let out := snd (velodyneCallBack app scan) in
  accu_ (fst (velodyneCallBack app scan))
  = (if getFinished accu1 then clearCloud accu1 else accu1)
  /\ count_events notifies_worker out
     = (if getFinished accu1 then 1 else 0)%nat
  /\ (getFinished accu1 = true ->
      exists before, out = before ++ [AccuClearCloud; NotifyWorker]).
Proof.
  intros Hinit accu1 out. subst out.
  rewrite (velodyneCallBack_trace _ _ Hinit). fold accu1.
  split; [|split].
  - rewrite (velodyneCallBack_tracking _ _ Hinit). cbn [fst].
    now destruct (dispatch_finished_frame (fst (accumulate_scan app scan)))
      as (_ & _ & _ & -> & _).
  - rewrite count_events_app.
    replace (count_events notifies_worker
               (if clear_clouds_buffer_ app
                then if (0 <? getCounter (accu_ app))%N
                     then [AccuClearCloud] else []
                else [AccuProcessLidar scan]))
      with 0%nat
      by (destruct (clear_clouds_buffer_ app);
          [destruct (N.ltb 0 (getCounter (accu_ app)))|]; reflexivity).
    destruct (getFinished accu1); [|reflexivity].
    rewrite count_events_app.
    destruct (moved_enough (relative_motion app)); [|reflexivity].
    rewrite count_events_app. unfold queue_push. cbn [snd].
    destruct (max_queue_size <? _)%nat; reflexivity.
  - intros ->. eexists. rewrite app_assoc. reflexivity.
Qed.

(** ** The two flags of the buffer clear *)

Lemma accumulate_scan_clear_flags app scan :
  updated_correction_ (fst (accumulate_scan app scan))
  = updated_correction_ app
  /\ clear_clouds_buffer_ (fst (accumulate_scan app scan)) = false.
Proof.
  unfold accumulate_scan.
  destruct (clear_clouds_buffer_ app) eqn:Hclr; cbn [negb];
    [destruct (N.ltb 0 _)|]; cbn; rewrite ?Hclr; split; reflexivity.
Qed.

Lemma dispatch_finished_updated app :
  updated_correction_ (fst (dispatch_finished app)) = updated_correction_ app.
Proof.
  unfold dispatch_finished, enqueue_cloud.
  destruct (getFinished (accu_ app)); [|reflexivity].
  destruct (moved_enough (relative_motion app)); [|reflexivity].
  cbn [cloud_queue_ set_world_to_body_previous_].
  destruct (queue_push _ _). reflexivity.
Qed.

(** What a callback does to [updated_correction_] and
    [clear_clouds_buffer_], and whether it forwards a scan. *)
Lemma step_clear_flags app i app' out :
  step app i = Some (app', out) ->
  match i with
  | RobotPose _ _ =>
      (pose_accepted app = true ->
       updated_correction_ app' = false
       /\ clear_clouds_buffer_ app'
          = (updated_correction_ app || clear_clouds_buffer_ app))
      /\ (pose_accepted app = false -> app' = app)
      /\ count_events forwards_scan out = 0%nat
  | Velodyne _ =>
      updated_correction_ app' = updated_correction_ app
      /\ clear_clouds_buffer_ app'
         = (if pose_initialized_ app then false else clear_clouds_buffer_ app)
      /\ count_events forwards_scan out
         = (if pose_initialized_ app && negb (clear_clouds_buffer_ app)
            then 1 else 0)%nat
  | _ =>
      updated_correction_ app' = updated_correction_ app
      /\ clear_clouds_buffer_ app' = clear_clouds_buffer_ app
      /\ count_events forwards_scan out = 0%nat
  end.
Proof.
  intros Hstep. destruct i as [msg now|scan|pose|path now]; cbn in Hstep.
  - take_result Hstep. split; [|split].
    + intros Hacc. now apply robotPoseCallBack_acknowledges.
    + intros Hrej. now destruct (robotPoseCallBack_rejected app msg now Hrej).
    + unfold robotPoseCallBack.
      destruct (_ && _); [reflexivity|]. cbn [snd].
      destruct (negb (pose_initialized_ app)); reflexivity.
  - take_result Hstep.
    destruct (pose_initialized_ app) eqn:Hinit; cbn [andb].
    + rewrite (velodyneCallBack_trace _ _ Hinit).
      rewrite (velodyneCallBack_tracking _ _ Hinit). cbn [fst].
      destruct (dispatch_finished_frame (fst (accumulate_scan app scan)))
        as (_ & _ & _ & _ & -> & _).
      rewrite dispatch_finished_updated.
      destruct (accumulate_scan_clear_flags app scan) as [-> ->].
      split; [reflexivity|]. split; [reflexivity|].
      rewrite !count_events_app.
      replace (count_events forwards_scan
                 (if getFinished (accu_ (fst (accumulate_scan app scan)))
                  then
                    (if moved_enough (relative_motion app)
                     then
                       [CoutFinishedCollecting
                          (getFinishedTime
                             (accu_ (fst (accumulate_scan app scan))));
                        CoutProcessingCloud
                          (points_size
                             (getCloud
                                (accu_ (fst (accumulate_scan app scan)))))]
                       ++ snd (queue_push (cloud_queue_ app)
                                 (current_cloud
                                    (fst (accumulate_scan app scan))))
                     else [])
                    ++ [AccuClearCloud; NotifyWorker]
                  else []))
        with 0%nat.
      * destruct (clear_clouds_buffer_ app);
          [destruct (N.ltb 0 (getCounter (accu_ app)))|]; reflexivity.
      * destruct (getFinished _); [|reflexivity].
        rewrite count_events_app.
        destruct (moved_enough _); [|reflexivity].
        rewrite count_events_app. unfold queue_push. cbn [snd].
        destruct (max_queue_size <? _)%nat; reflexivity.
    + unfold velodyneCallBack. rewrite Hinit. repeat split; reflexivity.
  - take_result Hstep. unfold interactionMarkerCallBack.
    destruct (_ && _); [repeat split; reflexivity|].
    destruct (negb (map_initialized_ app)); [repeat split; reflexivity|].
    destruct (negb (pose_initialized_ app)); repeat split; reflexivity.
  - revert Hstep. unfold loadMapFromFile.
    destruct (_ && _); [intros [= <- <-]; repeat split; reflexivity|].
    destruct (pose_initialized_ app).
    + destruct (prior_map_ app); [|discriminate].
      intros [= <- <-]. repeat split; reflexivity.
    + destruct (loadPLYFile path); intros [= <- <-];
        repeat split; reflexivity.
Qed.

(** X9.  The callbacks discard scans only on the worker's word: from a
    tracking state with neither [updated_correction_] nor the buffer clear
    set, both stay down over any run and every scan received is forwarded
    to the accumulator. *)
Theorem no_scan_is_dropped_without_a_correction inputs :
  forall app app' out,
    pose_initialized_ app = true ->
    updated_correction_ app = false ->
    clear_clouds_buffer_ app = false ->
    run app inputs = Some (app', out) ->
    updated_correction_ app' = false
    /\ clear_clouds_buffer_ app' = false
    /\ count_events forwards_scan out = count_inputs is_scan inputs.
Proof.
  induction inputs as [|i inputs IH];
    intros app app' out Hinit Hupd Hclr Hrun; cbn in Hrun.
  - injection Hrun as <- <-. repeat split; assumption.
  - destruct (step app i) as [[app1 out1]|] eqn:Hstep; [|discriminate].
    destruct (run app1 inputs) as [[app2 out2]|] eqn:Hrest; [|discriminate].
    injection Hrun as <- <-.
    destruct (step_flags _ _ Hstep) as (_ & Hinit1 & _).
    pose proof (step_clear_flags _ _ Hstep) as Hflags.
    assert (Hquiet : updated_correction_ app1 = false
                     /\ clear_clouds_buffer_ app1 = false
                     /\ count_events forwards_scan out1
                        = (if is_scan i then 1 else 0)%nat).
    { destruct i as [msg now|scan|pose|path now]; cbn [is_scan].
      - destruct Hflags as (Hacc & Hrej & Hcount).
        destruct (pose_accepted app) eqn:Ha.
        + destruct (Hacc eq_refl) as [-> ->].
          rewrite Hupd, Hclr. repeat split; auto.
        + rewrite (Hrej eq_refl). repeat split; auto.
      - destruct Hflags as (-> & -> & ->).
        rewrite Hinit, Hclr. repeat split; auto.
      - destruct Hflags as (-> & -> & ->). repeat split; auto.
      - destruct Hflags as (-> & -> & ->). repeat split; auto. }
    destruct Hquiet as (Hupd1 & Hclr1 & Hcount1).
    destruct (IH _ _ _ (Hinit1 Hinit) Hupd1 Hclr1 Hrest)
      as (Hupd2 & Hclr2 & Hcount2).
    split; [exact Hupd2|]. split; [exact Hclr2|].
    rewrite count_events_app, Hcount1, Hcount2.
    unfold count_inputs. cbn [filter]. destruct (is_scan i); reflexivity.
Qed.

(** X10.  A pending buffer clear is not lost: raw poses, markers and map
    requests arriving before the next scan leave it pending. *)
Theorem pending_clear_waits_for_a_scan inputs :
  forall app app' out,
    clear_clouds_buffer_ app = true ->
    existsb is_scan inputs = false ->
    run app inputs = Some (app', out) ->
    clear_clouds_buffer_ app' = true
    /\ existsb forwards_scan out = false
    /\ accu_ app' = accu_ app.
Proof.
  induction inputs as [|i inputs IH];
    intros app app' out Hclr Hnone Hrun; cbn in Hrun.
  - injection Hrun as <- <-. repeat split; assumption.
  - destruct (step app i) as [[app1 out1]|] eqn:Hstep; [|discriminate].
    destruct (run app1 inputs) as [[app2 out2]|] eqn:Hrest; [|discriminate].
    injection Hrun as <- <-.
    cbn in Hnone. apply orb_false_iff in Hnone as [Hi Hnone].
    pose proof (step_clear_flags _ _ Hstep) as Hflags.
    assert (Hkept : clear_clouds_buffer_ app1 = true
                    /\ existsb forwards_scan out1 = false
                    /\ accu_ app1 = accu_ app).
    { destruct i as [msg now|scan|pose|path now]; [| discriminate | |];
        cbn in Hstep.
      - take_result Hstep. destruct Hflags as (Hacc & Hrej & _).
        destruct (robotPoseCallBack_frame app msg now)
          as (_ & _ & _ & _ & _ & _ & Haccu & _).
        split; [|split; [|exact Haccu]].
        + destruct (pose_accepted app) eqn:Ha.
          * destruct (Hacc eq_refl) as [_ ->]. rewrite Hclr.
            apply orb_true_r.
          * now rewrite (Hrej eq_refl).
        + unfold robotPoseCallBack.
          destruct (_ && _); [reflexivity|]. cbn [snd].
          destruct (negb (pose_initialized_ app)); reflexivity.
      - take_result Hstep. destruct Hflags as (_ & -> & _).
        split; [exact Hclr|]. unfold interactionMarkerCallBack.
        destruct (_ && _); [split; reflexivity|].
        destruct (negb (map_initialized_ app)); [split; reflexivity|].
        destruct (negb (pose_initialized_ app)); split; reflexivity.
      - destruct Hflags as (_ & -> & _). split; [exact Hclr|].
        revert Hstep. unfold loadMapFromFile.
        destruct (_ && _); [intros [= <- <-]; split; reflexivity|].
        destruct (pose_initialized_ app).
        + destruct (prior_map_ app); [|discriminate].
          intros [= <- <-]. split; reflexivity.
        + destruct (loadPLYFile path); intros [= <- <-]; split; reflexivity. }
    destruct Hkept as (Hclr1 & Hfwd1 & Haccu1).
    destruct (IH _ _ _ Hclr1 Hnone Hrest) as (Hclr2 & Hfwd2 & Haccu2).
    rewrite existsb_app, Hfwd1, Hfwd2. repeat split; congruence.
Qed.

(** ** The corrected pose over runs *)

(** X11.  From the first accepted raw pose on, the stored corrected pose is
    the running correction composed with the stored raw pose after every
    callback, whatever the callbacks and their order. *)
Theorem corrected_pose_stays_composed inputs :
  forall app app' out,
    corrected_is_composed app ->
    run app inputs = Some (app', out) ->
    corrected_is_composed app'.
Proof.
  induction inputs as [|i inputs IH]; intros app app' out Hinv Hrun;
    cbn in Hrun.
  - now injection Hrun as <- <-.
  - destruct (step app i) as [[app1 out1]|] eqn:Hstep; [|discriminate].
    destruct (run app1 inputs) as [[app2 out2]|] eqn:Hrest; [|discriminate].
    injection Hrun as <- <-.
    apply (IH app1 app2 out2); [|exact Hrest].
    unfold corrected_is_composed in *. intros Hinit1.
    destruct (pose_initialized_ app) eqn:Hinit.
    + destruct (step_tracking _ _ Hinit Hstep) as (_ & _ & Hkeep & _).
      apply Hkeep, Hinv. reflexivity.
    + destruct i as [msg now|scan|pose|path now]; cbn in Hstep.
      * take_result Hstep.
        destruct (pose_accepted app) eqn:Hacc.
        -- destruct (robotPoseCallBack_accepted app msg now Hacc)
             as (Hw & _ & Hc & _).
           now rewrite Hc, Hw.
        -- destruct (robotPoseCallBack_rejected app msg now Hacc) as [Hsame _].
           rewrite Hsame in Hinit1. congruence.
      * take_result Hstep.
        destruct (velodyneCallBack_frame app scan) as (_ & Hi & _).
        congruence.
      * take_result Hstep.
        destruct (interactionMarkerCallBack_frame app pose) as (_ & Hi & _).
        congruence.
      * destruct (loadMapFromFile app path now)
          as [[[app0 ok] out0]|] eqn:Hload; [|discriminate].
        injection Hstep as <- <-.
        destruct (loadMapFromFile_frame _ _ _ Hload) as (_ & Hi & _).
        congruence.
Qed.

(** ** The map pointer *)

(** X12.  From a state whose flags agree with the map pointer, no sequence
    of callbacks reaches the null dereference of [prior_map_] at line 244:
    every run returns, the agreement is kept, and whenever the node tracks
    with the map service on a map is loaded. *)
Theorem prior_map_is_never_dereferenced_null inputs :
  forall app,
    well_formed app = true ->
    exists app' out,
      run app inputs = Some (app', out)
      /\ well_formed app' = true
      /\ (pose_initialized_ app' = true ->
          map_service (cl_cfg_ app') = true ->
          is_loaded (prior_map_ app') = true).
Proof.
  intros app Hwf.
  destruct (run_well_formed inputs app Hwf) as (app' & out & Hrun & Hwf').
  exists app', out. split; [exact Hrun|]. split; [exact Hwf'|].
  intros Hinit Hmap. unfold well_formed in Hwf'.
  rewrite Hinit, Hmap in Hwf'.
  destruct (map_initialized_ app'), (is_loaded (prior_map_ app')),
    (pose_marker_initialized_ app'); cbn in Hwf'; congruence.
Qed.

(** X13.  The map service call itself always succeeds; its [success] flag is
    set exactly when the map service is on, no raw pose has been accepted
    yet and the file is readable.  A refused or failed load changes no
    member; a successful one stores the filtered cloud, stamped with the
    time of the call. *)
Theorem map_service_call_reports_the_load app path now :
  well_formed app = true ->
  let success :=
    map_service (cl_cfg_ app) && negb (pose_initialized_ app)
    && is_readable P path in
  exists app' out,
    loadMapFromFileCallBack app path now = Some (app', (true, success), out)
    /\ (success = false -> app' = app)
    /\ (success = true ->
        map_initialized_ app' = true
        /\ option_map (@getUtime P) (prior_map_ app') = Some now
        /\ option_map (@getCloudPtr P) (prior_map_ app')
           = option_map regionGrowingUniformPlaneSegmentationFilter
               (loadPLYFile path)).
Proof.
  intros Hwf success. subst success.
  unfold loadMapFromFileCallBack, loadMapFromFile, is_readable, map_service.
  rewrite <- negb_orb.
  destruct (load_map_from_file (cl_cfg_ app)
            || localize_against_prior_map (cl_cfg_ app)) eqn:Hmap; cbn [negb andb].
  - destruct (pose_initialized_ app) eqn:Hinit; cbn [negb andb].
    + destruct (prior_map_ app) as [prior|] eqn:Hprior.
      * do 2 eexists. split; [reflexivity|]. split; [reflexivity|discriminate].
      * exfalso. unfold well_formed, map_service in Hwf.
        rewrite Hinit, Hmap, Hprior in Hwf.
        destruct (map_initialized_ app), (pose_marker_initialized_ app);
          cbn in Hwf; congruence.
    + destruct (loadPLYFile path) as [map|].
      * do 2 eexists. split; [reflexivity|]. split; [discriminate|].
        intros _. repeat split; reflexivity.
      * do 2 eexists. split; [reflexivity|]. split; [reflexivity|discriminate].
  - do 2 eexists. split; [reflexivity|]. split; [reflexivity|discriminate].
Qed.

(** ** Displacements that are not numbers *)

(** X14.  A displacement whose norm and Euler angles are NaN passes no
    comparison: the batch a scan completes then is not queued, the reference
    pose stays, and the batch is cleared and lost. *)
Theorem nan_motion_is_never_dispatched app scan :
  pose_initialized_ app = true ->
  translation_norm (relative_motion app) = nan ->
  quat_to_euler (relative_motion app) = (nan, nan, nan) ->
  let app' := fst (velodyneCallBack app scan) in
  dispatches app scan = false
  /\ cloud_queue_ app' = cloud_queue_ app
  /\ world_to_body_previous_ app' = world_to_body_previous_ app
  /\ (getFinished (accu_ (fst (accumulate_scan app scan))) = true ->
      accu_ app' = clearCloud (accu_ (fst (accumulate_scan app scan)))).
Proof.
  intros Hinit Hnorm Hangles app'.
  assert (Hstill : moved_enough (relative_motion app) = false).
  { unfold moved_enough. rewrite Hnorm, Hangles. reflexivity. }
  assert (Hdisp : dispatches app scan = false).
  { unfold dispatches. rewrite Hstill. apply andb_false_r. }
  destruct (velodyneCallBack_dispatch app scan) as (Hp & Hq & _).
  rewrite Hdisp in Hp, Hq. fold app' in Hp, Hq.
  split; [exact Hdisp|]. split; [exact Hq|]. split; [exact Hp|].
  intros Hfin. subst app'.
  rewrite (velodyneCallBack_tracking _ _ Hinit). cbn [fst].
  destruct (dispatch_finished_frame (fst (accumulate_scan app scan)))
    as (_ & _ & _ & -> & _).
  now rewrite Hfin.
Qed.

(** ** What is published *)

Lemma published_corrections_app out out' :
  published_corrections (out ++ out')
  = published_corrections out ++ published_corrections out'.
Proof. unfold published_corrections. apply flat_map_app. Qed.

Lemma step_publishes app i app' out :
  pose_accepted app = true ->
  step app i = Some (app', out) ->
  published_corrections out = received_poses (fixed_frame (cl_cfg_ app)) [i].
Proof.
  intros Hacc Hstep.
  destruct i as [msg now|scan|pose|path now]; cbn in Hstep.
  - take_result Hstep. unfold pose_accepted in Hacc.
    apply negb_true_iff in Hacc. unfold robotPoseCallBack. rewrite Hacc.
    cbn [snd]. rewrite published_corrections_app.
    destruct (negb (pose_initialized_ app)); cbn;
      [unfold initialize_pose; cbn;
       destruct (map_service (cl_cfg_ app))|]; reflexivity.
  - take_result Hstep.
    destruct (pose_initialized_ app) eqn:Hinit.
    + rewrite (velodyneCallBack_trace _ _ Hinit).
      rewrite published_corrections_app.
      replace (published_corrections
                 (if clear_clouds_buffer_ app
                  then if (0 <? getCounter (accu_ app))%N
                       then [AccuClearCloud] else []
                  else [AccuProcessLidar scan]))
        with (@nil (Z * Z * list float * string))
        by (destruct (clear_clouds_buffer_ app);
            [destruct (N.ltb 0 (getCounter (accu_ app)))|]; reflexivity).
      destruct (getFinished _); [|reflexivity].
      rewrite published_corrections_app.
      destruct (moved_enough _); [|reflexivity].
      rewrite published_corrections_app. unfold queue_push. cbn [snd].
      destruct (max_queue_size <? _)%nat; reflexivity.
    + unfold velodyneCallBack. rewrite Hinit. reflexivity.
  - take_result Hstep. unfold interactionMarkerCallBack.
    destruct (_ && _); [reflexivity|].
    destruct (negb (map_initialized_ app)); [reflexivity|].
    destruct (negb (pose_initialized_ app)); reflexivity.
  - revert Hstep. unfold loadMapFromFile.
    destruct (_ && _); [intros [= <- <-]; reflexivity|].
    destruct (pose_initialized_ app).
    + destruct (prior_map_ app); [|discriminate].
      intros [= <- <-]. reflexivity.
    + destruct (loadPLYFile path); intros [= <- <-]; reflexivity.
Qed.

(** X15.  Once raw poses are accepted, every raw pose received gets exactly
    one corrected pose published, in the order of arrival, carrying the
    stamp and the covariance of its raw pose and the fixed frame; no other
    callback publishes one. *)
Theorem one_corrected_pose_per_raw_pose inputs :
  forall app app' out,
    pose_accepted app = true ->
    run app inputs = Some (app', out) ->
    published_corrections out
    = received_poses (fixed_frame (cl_cfg_ app)) inputs.
Proof.
  induction inputs as [|i inputs IH]; intros app app' out Hacc Hrun;
    cbn in Hrun.
  - now injection Hrun as <- <-.
  - destruct (step app i) as [[app1 out1]|] eqn:Hstep; [|discriminate].
    destruct (run app1 inputs) as [[app2 out2]|] eqn:Hrest; [|discriminate].
    injection Hrun as <- <-.
    destruct (step_flags _ _ Hstep) as (Hcfg & _ & Hmarker & _).
    assert (Hacc1 : pose_accepted app1 = true).
    { unfold pose_accepted in *. rewrite Hcfg.
      destruct (map_service (cl_cfg_ app)); [|reflexivity].
      destruct (pose_marker_initialized_ app); [|discriminate].
      now rewrite Hmarker. }
    rewrite published_corrections_app.
    rewrite (@step_publishes app i app1 out1 Hacc Hstep).
    rewrite (IH _ _ _ Hacc1 Hrest), Hcfg.
    unfold received_poses. cbn [flat_map]. now rewrite app_nil_r.
Qed.

End Coverage.

(** * The further properties on the sample runs *)

(** X1 from the marker to tracking: the map flag stays up and the
    configuration is the one constructed with. *)
Lemma flags_are_never_reset_witness :
  Sample.returns (run Sample.awaiting_seed Sample.through_the_lifecycle) = true
  /\ map_initialized_ Sample.awaiting_seed = true
  /\ map_initialized_
       (Sample.final (run Sample.awaiting_seed Sample.through_the_lifecycle))
     = true
  /\ cl_cfg_
       (Sample.final (run Sample.awaiting_seed Sample.through_the_lifecycle))
     = cl_cfg_ Sample.awaiting_seed.
Proof.
  assert (Hreturns :
    Sample.returns (run Sample.awaiting_seed Sample.through_the_lifecycle)
    = true) by (vm_compute; reflexivity).
  split; [exact Hreturns|]. split; [reflexivity|].
  destruct (@flags_are_never_reset binary64 Sample.through_the_lifecycle
              Sample.awaiting_seed _ _ (run_returns _ Hreturns))
    as (Hcfg & _ & _ & Hmap & _).
  split; [exact (Hmap eq_refl) | exact Hcfg].
Defined.

(** X2 once tracking over a map: a later marker and a later load leave the
    marker pose and the map as they were. *)
Lemma tracking_freezes_marker_and_map_witness :
  pose_initialized_ Sample.tracking_over_map = true
  /\ Sample.returns (run Sample.tracking_over_map Sample.inputs_without_scan)
     = true
  /\ world_to_body_marker_msg_
       (Sample.final (run Sample.tracking_over_map Sample.inputs_without_scan))
     = world_to_body_marker_msg_ Sample.tracking_over_map
  /\ prior_map_
       (Sample.final (run Sample.tracking_over_map Sample.inputs_without_scan))
     = prior_map_ Sample.tracking_over_map.
Proof.
  assert (Hreturns :
    Sample.returns (run Sample.tracking_over_map Sample.inputs_without_scan)
    = true) by (vm_compute; reflexivity).
  split; [reflexivity|]. split; [exact Hreturns|].
  destruct (@tracking_freezes_marker_and_map binary64
              Sample.inputs_without_scan Sample.tracking_over_map _ _
              eq_refl (run_returns _ Hreturns))
    as (Hmarker & _ & _ & _ & Hmap).
  split; [exact Hmarker | exact Hmap].
Defined.

(** X3 before the marker: two scans, a reload and a raw pose leave the
    accumulator and the queue untouched. *)
Lemma nothing_is_accumulated_before_tracking_witness :
  Sample.returns (run Sample.awaiting_seed Sample.before_the_marker) = true
  /\ pose_initialized_
       (Sample.final (run Sample.awaiting_seed Sample.before_the_marker))
     = false
  /\ accu_ (Sample.final (run Sample.awaiting_seed Sample.before_the_marker))
     = accu_ Sample.awaiting_seed
  /\ cloud_queue_
       (Sample.final (run Sample.awaiting_seed Sample.before_the_marker))
     = cloud_queue_ Sample.awaiting_seed.
Proof.
  assert (Hreturns :
    Sample.returns (run Sample.awaiting_seed Sample.before_the_marker) = true)
    by (vm_compute; reflexivity).
  assert (Hshort :
    pose_initialized_
      (Sample.final (run Sample.awaiting_seed Sample.before_the_marker))
    = false) by (vm_compute; reflexivity).
  split; [exact Hreturns|]. split; [exact Hshort|].
  destruct (@nothing_is_accumulated_before_tracking binary64
              Sample.before_the_marker Sample.awaiting_seed _ _
              (run_returns _ Hreturns) Hshort)
    as (Haccu & Hqueue & _).
  split; [exact Haccu | exact Hqueue].
Defined.

(** X4 on the node constructed with a missing map file. *)
Lemma node_is_gated_without_a_map_witness :
  map_service (cl_cfg_ Sample.awaiting_map) = true
  /\ map_initialized_ Sample.awaiting_map = false
  /\ pose_marker_initialized_ Sample.awaiting_map = false
  /\ pose_initialized_ Sample.awaiting_map = false
  /\ forallb loads_nothing Sample.inputs_without_map = true
  /\ exists out,
       run Sample.awaiting_map Sample.inputs_without_map
       = Some (Sample.awaiting_map, out)
       /\ forallb is_log out = true.
Proof.
  assert (Hloads : forallb loads_nothing Sample.inputs_without_map = true)
    by (vm_compute; reflexivity).
  do 4 (split; [reflexivity|]). split; [exact Hloads|].
  exact (@node_is_gated_without_a_map binary64 Sample.inputs_without_map
           Sample.awaiting_map eq_refl eq_refl eq_refl eq_refl Hloads).
Defined.

(** X5 on a drive without the map service. *)
Lemma odometry_mode_keeps_the_correction_witness :
  map_service (cl_cfg_ Sample.odometry_tracking) = false
  /\ exists app' out,
       run Sample.odometry_tracking Sample.drive = Some (app', out)
       /\ total_correction_ app' = total_correction_ Sample.odometry_tracking.
Proof.
  split; [reflexivity|].
  destruct (@odometry_mode_keeps_the_correction binary64 Sample.drive
              Sample.odometry_tracking eq_refl)
    as (app' & out & Hrun & Hcorrection & _).
  exists app', out. split; [exact Hrun | exact Hcorrection].
Defined.

(** X6 on the same drive. *)
Lemma queue_never_exceeds_its_bound_witness :
  (List.length (cloud_queue_ Sample.odometry_tracking) <= max_queue_size)%nat
  /\ Sample.returns (run Sample.odometry_tracking Sample.drive) = true
  /\ (List.length
        (cloud_queue_ (Sample.final (run Sample.odometry_tracking Sample.drive)))
      <= max_queue_size)%nat.
Proof.
  assert (Hbound :
    (List.length (cloud_queue_ Sample.odometry_tracking) <= max_queue_size)%nat)
    by (vm_compute; lia).
  assert (Hreturns :
    Sample.returns (run Sample.odometry_tracking Sample.drive) = true)
    by (vm_compute; reflexivity).
  split; [exact Hbound|]. split; [exact Hreturns|].
  exact (@queue_never_exceeds_its_bound binary64 Sample.drive
           Sample.odometry_tracking _ _ Hbound (run_returns _ Hreturns)).
Defined.

(** X7 on the same drive: the batches finished at 2 and 4 are dispatched
    and are the queue, the one finished at 6, 0.2 further on, is not. *)
Lemma queue_is_a_suffix_of_what_was_pushed_witness :
  Sample.returns (run Sample.odometry_tracking Sample.drive) = true
  /\ (List.length (cloud_queue_ Sample.odometry_tracking) <= max_queue_size)%nat
  /\ List.map (@getUtime binary64)
       (dispatched_batches Sample.odometry_tracking Sample.drive)
     = [2%Z; 4%Z]
  /\ cloud_queue_ (Sample.final (run Sample.odometry_tracking Sample.drive))
     = most_recent
         (cloud_queue_ Sample.odometry_tracking
          ++ dispatched_batches Sample.odometry_tracking Sample.drive)
  /\ announced_times (Sample.trace (run Sample.odometry_tracking Sample.drive))
     = List.map (@getUtime binary64)
         (dispatched_batches Sample.odometry_tracking Sample.drive).
Proof.
  assert (Hreturns :
    Sample.returns (run Sample.odometry_tracking Sample.drive) = true)
    by (vm_compute; reflexivity).
  assert (Hbound :
    (List.length (cloud_queue_ Sample.odometry_tracking) <= max_queue_size)%nat)
    by (vm_compute; lia).
  split; [exact Hreturns|]. split; [exact Hbound|].
  split; [vm_compute; reflexivity|].
  destruct (@queue_is_a_suffix_of_what_was_pushed binary64 Sample.drive
              Sample.odometry_tracking _ _ (run_returns _ Hreturns))
    as (_ & Hexact & Htimes & _).
  split; [exact (Hexact Hbound) | exact Htimes].
Defined.

(** X8 on the batch finished 0.1 away from the first pose: it is rejected,
    and still the accumulator is cleared and the worker woken. *)
Lemma finished_batch_clears_and_notifies_witness :
  pose_initialized_ (Sample.moved_to 0.1) = true
  /\ getFinished
       (accu_ (fst (accumulate_scan (Sample.moved_to 0.1) (Sample.scan 2))))
     = true
  /\ count_events notifies_worker
       (snd (velodyneCallBack (Sample.moved_to 0.1) (Sample.scan 2)))
     = 1%nat
  /\ accu_ (fst (velodyneCallBack (Sample.moved_to 0.1) (Sample.scan 2)))
     = clearCloud
         (accu_ (fst (accumulate_scan (Sample.moved_to 0.1) (Sample.scan 2)))).
Proof.
  split; [reflexivity|]. split; [reflexivity|].
  destruct (@finished_batch_clears_and_notifies binary64
              (Sample.moved_to 0.1) (Sample.scan 2) eq_refl)
    as (Haccu & Hcount & _).
  split; [exact Hcount | exact Haccu].
Defined.

(** X9 on the drive: six scans received, six forwarded. *)
Lemma no_scan_is_dropped_without_a_correction_witness :
  pose_initialized_ Sample.odometry_tracking = true
  /\ updated_correction_ Sample.odometry_tracking = false
  /\ clear_clouds_buffer_ Sample.odometry_tracking = false
  /\ Sample.returns (run Sample.odometry_tracking Sample.drive) = true
  /\ count_inputs is_scan Sample.drive = 6%nat
  /\ count_events forwards_scan
       (Sample.trace (run Sample.odometry_tracking Sample.drive))
     = count_inputs is_scan Sample.drive.
Proof.
  assert (Hreturns :
    Sample.returns (run Sample.odometry_tracking Sample.drive) = true)
    by (vm_compute; reflexivity).
  do 3 (split; [reflexivity|]). split; [exact Hreturns|].
  split; [vm_compute; reflexivity|].
  destruct (@no_scan_is_dropped_without_a_correction binary64 Sample.drive
              Sample.odometry_tracking _ _ eq_refl eq_refl eq_refl
              (run_returns _ Hreturns))
    as (_ & _ & Hcount).
  exact Hcount.
Defined.

(** X10 with a clear pending: two raw poses, a marker and a load later it
    is pending still. *)
Lemma pending_clear_waits_for_a_scan_witness :
  clear_clouds_buffer_ Sample.clear_pending = true
  /\ existsb is_scan Sample.inputs_without_scan = false
  /\ Sample.returns (run Sample.clear_pending Sample.inputs_without_scan) = true
  /\ clear_clouds_buffer_
       (Sample.final (run Sample.clear_pending Sample.inputs_without_scan))
     = true.
Proof.
  assert (Hreturns :
    Sample.returns (run Sample.clear_pending Sample.inputs_without_scan) = true)
    by (vm_compute; reflexivity).
  split; [reflexivity|]. split; [reflexivity|]. split; [exact Hreturns|].
  destruct (@pending_clear_waits_for_a_scan binary64
              Sample.inputs_without_scan Sample.clear_pending _ _
              eq_refl eq_refl (run_returns _ Hreturns))
    as (Hpending & _).
  exact Hpending.
Defined.

(** X11 from the marker stage to tracking. *)
Lemma corrected_pose_stays_composed_witness :
  corrected_is_composed Sample.awaiting_seed
  /\ Sample.returns (run Sample.awaiting_seed Sample.through_the_lifecycle)
     = true
  /\ (let app' :=
        Sample.final (run Sample.awaiting_seed Sample.through_the_lifecycle) in
      pose_initialized_ app' = true
      /\ corrected_pose_ app' = total_correction_ app' ** world_to_body_ app').
Proof.
  assert (Hstart : corrected_is_composed Sample.awaiting_seed)
    by (intros Hinit; vm_compute in Hinit; discriminate Hinit).
  assert (Hreturns :
    Sample.returns (run Sample.awaiting_seed Sample.through_the_lifecycle)
    = true) by (vm_compute; reflexivity).
  assert (Htracking :
    pose_initialized_
      (Sample.final (run Sample.awaiting_seed Sample.through_the_lifecycle))
    = true) by (vm_compute; reflexivity).
  split; [exact Hstart|]. split; [exact Hreturns|]. split; [exact Htracking|].
  exact (@corrected_pose_stays_composed binary64 Sample.through_the_lifecycle
           Sample.awaiting_seed _ _ Hstart (run_returns _ Hreturns) Htracking).
Defined.

(** X12 from the marker stage, through a reload requested while tracking. *)
Lemma prior_map_is_never_dereferenced_null_witness :
  well_formed Sample.awaiting_seed = true
  /\ exists app' out,
       run Sample.awaiting_seed Sample.through_the_lifecycle = Some (app', out)
       /\ well_formed app' = true.
Proof.
  split; [reflexivity|].
  destruct (@prior_map_is_never_dereferenced_null binary64
              Sample.through_the_lifecycle Sample.awaiting_seed eq_refl)
    as (app' & out & Hrun & Hwf & _).
  exists app', out. split; [exact Hrun | exact Hwf].
Defined.

(** X13 on a service call for the second map before the marker, and for a
    file that is not there. *)
Lemma map_service_call_reports_the_load_witness :
  well_formed Sample.awaiting_seed = true
  /\ (exists app' out,
        loadMapFromFileCallBack Sample.awaiting_seed "second.ply" 20
        = Some (app', (true, true), out)
        /\ option_map (@getUtime binary64) (prior_map_ app') = Some 20%Z)
  /\ (exists out,
        loadMapFromFileCallBack Sample.awaiting_seed "missing.ply" 20
        = Some (Sample.awaiting_seed, (true, false), out)).
Proof.
  split; [reflexivity|]. split.
  - destruct (@map_service_call_reports_the_load binary64
                Sample.awaiting_seed "second.ply"%string 20 eq_refl)
      as (app' & out & Hcall & _ & Hyes).
    exists app', out. split; [exact Hcall|].
    exact (proj1 (proj2 (Hyes eq_refl))).
  - destruct (@map_service_call_reports_the_load binary64
                Sample.awaiting_seed "missing.ply"%string 20 eq_refl)
      as (app' & out & Hcall & Hno & _).
    exists out. rewrite <- (Hno eq_refl) at 2. exact Hcall.
Defined.

(** X14 after a raw pose of NaNs: the batch the next scan completes is
    lost. *)
Lemma nan_motion_is_never_dispatched_witness :
  pose_initialized_ Sample.lost_odometry = true
  /\ translation_norm (relative_motion Sample.lost_odometry) = nan
  /\ quat_to_euler (relative_motion Sample.lost_odometry) = (nan, nan, nan)
  /\ getFinished
       (accu_ (fst (accumulate_scan Sample.lost_odometry (Sample.scan 2))))
     = true
  /\ cloud_queue_ (fst (velodyneCallBack Sample.lost_odometry (Sample.scan 2)))
     = cloud_queue_ Sample.lost_odometry.
Proof.
  do 4 (split; [reflexivity|]).
  destruct (@nan_motion_is_never_dispatched binary64 Sample.lost_odometry
              (Sample.scan 2) eq_refl eq_refl eq_refl)
    as (_ & Hqueue & _).
  exact Hqueue.
Defined.

(** X15 on the drive: three raw poses, three corrected poses, stamped 2, 4
    and 6. *)
Lemma one_corrected_pose_per_raw_pose_witness :
  pose_accepted Sample.odometry_tracking = true
  /\ Sample.returns (run Sample.odometry_tracking Sample.drive) = true
  /\ published_corrections
       (Sample.trace (run Sample.odometry_tracking Sample.drive))
     = [((2, 0), [], "odom"%string); ((4, 0), [], "odom"%string);
        ((6, 0), [], "odom"%string)].
Proof.
  assert (Hreturns :
    Sample.returns (run Sample.odometry_tracking Sample.drive) = true)
    by (vm_compute; reflexivity).
  split; [reflexivity|]. split; [exact Hreturns|].
  rewrite (@one_corrected_pose_per_raw_pose binary64 Sample.drive
             Sample.odometry_tracking _ _ eq_refl (run_returns _ Hreturns)).
  reflexivity.
Defined.
